(** * YT-summarizer: the video-analysis service and its collaborators

    A shallow embedding of [services/videoAnalysisService.ts]
    ([extractVideoID], [getVideoDetails], [generateSummary], [generatePDF],
    [getEmbedUrl]), of [extractYouTubeVideoId] from
    [services/supabaseService.ts] and of [handleSubmit] from
    [pages/Index.tsx], followed by the properties of the summary pipeline.

    Conventions of the embedding.
    - A JavaScript string is a [string]: one [ascii] per code unit, so the
      model covers the strings whose code units are below 256.
    - A JavaScript number is a rational [Q] with exact arithmetic; the
      values the service computes with (timestamps, page coordinates) are
      finite, and the sign of a difference of finite numbers is the sign of
      the exact difference.
    - A promise is its outcome: [Ok v] when it resolves, [Throw e] when it
      rejects.  The external collaborators (the oEmbed endpoint, the
      captions service, the image table, the jsPDF library) are fields of
      explicit records passed to the functions that call them. *)

From Stdlib Require Import String Ascii List Bool Arith Lia.
From Stdlib Require Import NArith ZArith QArith Qround Lqa.
From Stdlib Require Import Decimal DecimalString.
From Stdlib Require Import Sorted Permutation.
Import ListNotations.

Local Open Scope string_scope.
Local Open Scope nat_scope.

(** ** JavaScript strings *)

Module Js.

(** The characters that cannot be written inside a literal here. *)
Definition quote : ascii := ascii_of_nat 34.
Definition newline : ascii := ascii_of_nat 10.
Definition NL : string := String newline EmptyString.
Definition QUOTE : string := String quote EmptyString.

Definition code (c : ascii) : nat := nat_of_ascii c.

Definition between (lo hi : nat) (c : ascii) : bool :=
  (lo <=? code c) && (code c <=? hi).

Definition is_upper := between 65 90.
Definition is_lower := between 97 122.
Definition is_digit := between 48 57.

(** [\w] is [[A-Za-z0-9_]]. *)
Definition word_char (c : ascii) : bool :=
  is_upper c || is_lower c || is_digit c || Ascii.eqb c "_".

(** Line terminators: LF and CR (U+2028 and U+2029 lie outside the
    code units of the model). *)
Definition line_terminator (c : ascii) : bool :=
  (code c =? 10) || (code c =? 13).

(** [\s] below 256: TAB, LF, VT, FF, CR, space and NBSP. *)
Definition white_space (c : ascii) : bool :=
  between 9 13 c || (code c =? 32) || (code c =? 160).

Definition one_of (cs : string) (c : ascii) : bool :=
  existsb (Ascii.eqb c) (list_ascii_of_string cs).

(** [s.substring(0, n)]. *)
Fixpoint take (n : nat) (s : string) : string :=
  match n, s with
  | S n', String c t => String c (take n' t)
  | _, _ => EmptyString
  end.

(** Truthiness of a string value: every string but the empty one. *)
Definition truthy (s : string) : bool :=
  match s with EmptyString => false | String _ _ => true end.

End Js.

(** ** Regular expressions

    The fragment of ECMAScript patterns that the sources use, with the
    backtracking semantics of the language: a matcher takes the state
    reached so far and a continuation for the rest of the pattern, tries
    its alternatives in priority order (left alternative first, longest
    repetition first) and fails over to the next one when the
    continuation fails. *)

Module RegExp.

Inductive regex : Type :=
| Eps                                  (* the empty pattern *)
| Chr (c : ascii)                      (* a literal character *)
| Dot                                  (* [.] *)
| Cls (p : ascii -> bool)              (* a class, escape or negated class *)
| Seq (r1 r2 : regex)                  (* concatenation *)
| Alt (r1 r2 : regex)                  (* [r1|r2] *)
| Opt (r : regex)                      (* [r?], greedy *)
| Star (r : regex)                     (* [r*], greedy *)
| Rep (n : nat) (r : regex)            (* [r{n}] *)
| Group (i : nat) (r : regex)          (* the i-th capturing group *)
| Bol                                  (* [^] without the m flag *)
| Eol.                                 (* [$] without the m flag *)

(** [r+] *)
Definition Plus (r : regex) : regex := Seq r (Star r).

(** A run of literal characters. *)
Fixpoint Lit (s : string) : regex :=
  match s with
  | EmptyString => Eps
  | String c EmptyString => Chr c
  | String c t => Seq (Chr c) (Lit t)
  end.

(** [(?:r1|r2|...)] *)
Fixpoint AltOf (r : regex) (rs : list regex) : regex :=
  match rs with
  | [] => r
  | r' :: rs' => Alt r (AltOf r' rs')
  end.

(** [r1 r2 ...] *)
Fixpoint SeqOf (r : regex) (rs : list regex) : regex :=
  match rs with
  | [] => r
  | r' :: rs' => Seq r (SeqOf r' rs')
  end.

(** The matcher state: the index of the next code unit, the input from
    there on, and the captures recorded so far (latest first). *)
Record mstate : Type := MState {
  idx : nat;
  rest : string;
  caps : list (nat * string)
}.

Definition cont : Type := mstate -> option mstate.

Definition consume (st : mstate) (t : string) : mstate :=
  MState (S (idx st)) t (caps st).

Definition one (p : ascii -> bool) (k : cont) (st : mstate) : option mstate :=
  match rest st with
  | String a t => if p a then k (consume st t) else None
  | EmptyString => None
  end.

Definition set_cap (i : nat) (from to : mstate) : mstate :=
  MState (idx to) (rest to)
         ((i, Js.take (idx to - idx from) (rest from)) :: caps to).

Definition or_else (a : option mstate) (b : option mstate) : option mstate :=
  match a with Some x => Some x | None => b end.

(** An iteration of a quantifier that consumed nothing is rejected. *)
Definition progress (st : mstate) (k : cont) : cont :=
  fun st' => if idx st' =? idx st then None else k st'.

Section Quantifiers.
(** The matcher of the quantified pattern, awaiting its continuation. *)
Variable body : cont -> cont.

(** [r*], greedy: one more iteration first, the continuation [k] when it
    fails.  Every iteration consumes input, so that [fuel], which starts
    above the length of the input left, never runs out (lemma
    [star_fuel]). *)
Fixpoint star (k : cont) (fuel : nat) (st : mstate) {struct fuel}
  : option mstate :=
  match fuel with
  | O => k st
  | S fuel' => or_else (body (progress st (star k fuel')) st) (k st)
  end.

(** [r{n}] *)
Fixpoint rep (n : nat) (k : cont) {struct n} : cont :=
  match n with
  | O => k
  | S n' => body (rep n' k)
  end.
End Quantifiers.

Fixpoint m (r : regex) (k : cont) (st : mstate) {struct r} : option mstate :=
  match r with
  | Eps => k st
  | Chr c => one (Ascii.eqb c) k st
  | Dot => one (fun a => negb (Js.line_terminator a)) k st
  | Cls p => one p k st
  | Seq r1 r2 => m r1 (m r2 k) st
  | Alt r1 r2 => or_else (m r1 k st) (m r2 k st)
  | Opt r1 => or_else (m r1 (progress st k) st) (k st)
  | Star r1 => star (m r1) k (S (String.length (rest st))) st
  | Rep n r1 => rep (m r1) n k st
  | Group i r1 => m r1 (fun st' => k (set_cap i st st')) st
  | Bol => if idx st =? 0 then k st else None
  | Eol => match rest st with EmptyString => k st | String _ _ => None end
  end.

(** The result of [RegExp.prototype.exec]: where the match starts, the
    matched text and the captures. *)
Record match_result : Type := MatchResult {
  index : nat;
  matched : string;
  last : mstate
}.

(** [match[i]] for [i >= 1]; [None] is [undefined]. *)
Fixpoint lookup (i : nat) (cs : list (nat * string)) : option string :=
  match cs with
  | [] => None
  | (j, v) :: cs' => if j =? i then Some v else lookup i cs'
  end.

Definition capture (mr : match_result) (i : nat) : option string :=
  lookup i (caps (last mr)).

(** The search of a pattern without the sticky flag: the first start
    position, from [i] on, at which the pattern matches. *)
Fixpoint search (r : regex) (i : nat) (s : string) : option match_result :=
  match m r Some (MState i s []) with
  | Some e => Some (MatchResult i (Js.take (idx e - i) s) e)
  | None =>
      match s with
      | EmptyString => None
      | String _ t => search r (S i) t
      end
  end.

(** [s.match(r)] and [r.exec(s)] for a pattern without the g flag. *)
Definition exec (r : regex) (s : string) : option match_result :=
  search r 0 s.

(** [r.test(s)] *)
Definition test (r : regex) (s : string) : bool :=
  match exec r s with Some _ => true | None => false end.

(** [s.replace(r, by)] for a pattern with the g flag and a replacement
    without [$] patterns: the matches are found from left to right, each
    search starting where the previous match ended (one code unit further
    after an empty match), and the text between them is kept. *)
Fixpoint replace_from (fuel : nat) (r : regex) (by_ : string)
         (i : nat) (s : string) : string :=
  match fuel with
  | O => s
  | S fuel' =>
      match m r Some (MState i s []) with
      | Some e =>
          if idx e =? i then
            match s with
            | EmptyString => by_
            | String c t => by_ ++ String c (replace_from fuel' r by_ (S i) t)
            end
          else by_ ++ replace_from fuel' r by_ (idx e) (rest e)
      | None =>
          match s with
          | EmptyString => EmptyString
          | String c t => String c (replace_from fuel' r by_ (S i) t)
          end
      end
  end.

Definition replace_all (r : regex) (by_ : string) (s : string) : string :=
  replace_from (S (String.length s)) r by_ 0 s.

(** [st'] lies ahead of [st]: the captures defined in [st] are defined in
    [st'], and [st'] is [st] after the code units [pre] of the input. *)
Definition keeps (st st' : mstate) : Prop :=
  (forall i, lookup i (caps st) <> None -> lookup i (caps st') <> None)
  /\ exists pre, rest st = pre ++ rest st'
                 /\ idx st' = idx st + String.length pre.

(** Some character of [s] satisfies [p]. *)
Fixpoint has (p : ascii -> bool) (s : string) : bool :=
  match s with
  | EmptyString => false
  | String a t => p a || has p t
  end.

(** Every match of [r] passes a literal character that satisfies [p]. *)
Fixpoint needs (p : ascii -> bool) (r : regex) : bool :=
  match r with
  | Chr c => p c
  | Seq r1 r2 => needs p r1 || needs p r2
  | Alt r1 r2 => needs p r1 && needs p r2
  | Group _ r1 => needs p r1
  | Rep (S _) r1 => needs p r1
  | _ => false
  end.

(** Group [i] lies on every path through [r]. *)
Fixpoint on_every_path (i : nat) (r : regex) : bool :=
  match r with
  | Group j r1 => (j =? i) || on_every_path i r1
  | Seq r1 r2 => on_every_path i r1 || on_every_path i r2
  | Alt r1 r2 => on_every_path i r1 && on_every_path i r2
  | Rep (S _) r1 => on_every_path i r1
  | _ => false
  end.

End RegExp.

(** ** services/videoAnalysisService.ts, first part: the id resolver *)

Module VideoId.
Import RegExp.

(** [[^#&?]] *)
Definition not_delim (c : ascii) : bool := negb (Js.one_of "#&?" c).

(** The pattern of the source, group by group (blanks added):
    [^ .* ( (youtu.be\/) | (v\/) | (\/u\/\w\/) | (embed\/) | (watch\?) )]
    [\?? v? =? ( [^#&?]* ) .*]
    The dot of [youtu.be] is not escaped in the source: it is [Dot]. *)
Definition regExp : regex :=
  SeqOf Bol
    [ Star Dot;
      Group 1 (AltOf
        (Group 2 (SeqOf (Lit "youtu") [Dot; Lit "be/"]))
        [ Group 3 (Lit "v/");
          Group 4 (SeqOf (Lit "/u/") [Cls Js.word_char; Chr "/"]);
          Group 5 (Lit "embed/");
          Group 6 (Lit "watch?") ]);
      Opt (Chr "?"); Opt (Chr "v"); Opt (Chr "=");
      Group 7 (Star (Cls not_delim));
      Star Dot ].

(** [extractVideoID] of videoAnalysisService.ts.  [match[7]] is read
    without a guard there; group 7 takes part in every match of
    [regExp], so the read never meets [undefined] (lemma
    [regExp_group7]) and the last branch below is never taken. *)
Definition extractVideoID (url : string) : option string :=
  if negb (Js.truthy url) then None
  else
    match exec regExp url with
    | Some mt =>
        match capture mt 7 with
        | Some id => if String.length id =? 11 then Some id else None
        | None => None
        end
    | None => None
    end.

(** [getEmbedUrl] *)
Definition getEmbedUrl (url : string) : string :=
  match extractVideoID url with
  | Some videoId =>
      if Js.truthy videoId
      then "https://www.youtube.com/embed/" ++ videoId
      else EmptyString
  | None => EmptyString
  end.

End VideoId.

(** ** types/index.ts *)

Module VideoDetails.
Record t : Type := Make {
  title : string;
  description : string;
  thumbnail : string;
  channel : string;
  duration : string;
  captions : option string;
  language : option string
}.
End VideoDetails.

Module TimeStampedContent.
Inductive kind : Type := text_kind | code_kind | key_point_kind.

Record t : Type := Make {
  timestamp : Q;
  text : string;
  type : kind;
  language : option string
}.
End TimeStampedContent.

Module SummaryContent.
Record t : Type := Make {
  text : string;
  code : list string;
  links : list string;
  imageReferences : list string;
  timestamps : list TimeStampedContent.t;
  keyPoints : list TimeStampedContent.t;
  transcriptSummary : option string
}.
End SummaryContent.

Module SummaryData.
Record t : Type := Make {
  videoDetails : option VideoDetails.t;
  summary : option SummaryContent.t;
  isLoading : bool;
  error : option string
}.
End SummaryData.

(** ** Outcomes of asynchronous calls *)

(** A thrown value: [new Error(message)]. *)
Inductive exn : Type := Error (message : string).

Inductive result (A : Type) : Type :=
| Ok (a : A)
| Throw (e : exn).

Arguments Ok {A} a.
Arguments Throw {A} e.

Module ResultMonad.

Definition bind {A B : Type} (c : result A) (f : A -> result B) : result B :=
  match c with
  | Ok a => f a
  | Throw e => Throw e
  end.

(** [try { c } catch (error) { h error }] *)
Definition try_catch {A : Type} (c : result A) (h : exn -> result A) : result A :=
  match c with
  | Ok a => Ok a
  | Throw e => h e
  end.

End ResultMonad.

Declare Scope result_scope.
Delimit Scope result_scope with result.
Notation "x <- c ;; k" := (ResultMonad.bind c (fun x => k))
  (at level 61, c at next level, right associativity) : result_scope.

(** A block that assigns to local variables [S] and may throw: the
    assignments made before a throw are kept, as they are for the [let]
    variables that a [try] block of the source assigns to. *)
Module Block.

Definition t (S A : Type) : Type := S -> result A * S.

Definition ret {S A : Type} (a : A) : t S A := fun s => (Ok a, s).

Definition bind {S A B : Type} (c : t S A) (f : A -> t S B) : t S B :=
  fun s =>
    match c s with
    | (Ok a, s') => f a s'
    | (Throw e, s') => (Throw e, s')
    end.

(** [await c] for an outcome [c] that does not depend on the locals. *)
Definition await {S A : Type} (c : result A) : t S A := fun s => (c, s).

Definition assign {S : Type} (f : S -> S) : t S unit := fun s => (Ok tt, f s).

(** [try { c } catch (error) { (nothing that throws or assigns) }] *)
Definition try_ {S : Type} (c : t S unit) : t S unit :=
  fun s => (Ok tt, snd (c s)).

End Block.

Declare Scope block_scope.
Delimit Scope block_scope with block.
Notation "x <- c ;; k" := (Block.bind c (fun x => k))
  (at level 61, c at next level, right associativity) : block_scope.
Notation "c ;; k" := (Block.bind c (fun _ => k))
  (at level 61, right associativity) : block_scope.

(** ** Arrays *)

Module JsArray.

Section Sort.
Context {A : Type}.

(** [comparefn(a, b)], a number: non-positive keeps [a] before [b]. *)
Variable comparefn : A -> A -> Q.

Fixpoint insert (x : A) (l : list A) : list A :=
  match l with
  | [] => [x]
  | y :: l' =>
      if Qle_bool (comparefn x y) 0 then x :: y :: l'
      else y :: insert x l'
  end.

(** [Array.prototype.sort(comparefn)]: the language requires a stable
    sort and leaves the algorithm open; for a comparator that is a
    consistent ordering, as a difference of finite numbers is, the
    result is the one of this insertion sort. *)
Definition sort (l : list A) : list A := fold_right insert [] l.
End Sort.

End JsArray.

(** [s.split(sep)] for a non-empty separator. *)
Module JsSplit.

(** [skip] counts the code units of a separator found earlier that are
    still to be passed over; [cur] is the piece being collected. *)
Fixpoint go (sep : string) (skip : nat) (cur : string) (s : string)
  : list string :=
  match s with
  | EmptyString => [cur]
  | String c t =>
      match skip with
      | S skip' => go sep skip' cur t
      | O =>
          if String.prefix sep s
          then cur :: go sep (String.length sep - 1) EmptyString t
          else go sep 0 (cur ++ String c EmptyString) t
      end
  end.

Definition split (sep : string) (s : string) : list string :=
  go sep 0 EmptyString s.

End JsSplit.

(** ** services/captionsService.ts, as far as its callers see it *)

Module Captions.

(** What [processTranscript] resolves to. *)
Record processed : Type := Processed {
  summary : string;
  keyPoints : list TimeStampedContent.t;
  codeBlocks : list TimeStampedContent.t
}.

End Captions.

(** ** services/videoAnalysisService.ts, second part: the summary *)

Module VideoAnalysis.
Import VideoId.

(** The body of the oEmbed response that [getVideoDetails] reads. *)
Record oembed : Type := OEmbed {
  oe_title : string;
  oe_description : option string;
  oe_author_name : string;
  oe_duration : option string
}.

(** The collaborators of the service.  [raw] is the type of what
    [fetchCaptions] resolves to. *)
Record services (raw : Type) : Type := Services {
  (** [fetch(url)] followed by [response.json()] *)
  fetch_json : string -> result oembed;
  (** [import.meta.env.VITE_YOUTUBE_API_KEY] *)
  VITE_YOUTUBE_API_KEY : option string;
  fetchCaptions : string -> string -> result raw;
  processTranscript : raw -> result Captions.processed
}.

Arguments fetch_json {raw} _ _.
Arguments VITE_YOUTUBE_API_KEY {raw} _.
Arguments fetchCaptions {raw} _ _ _.
Arguments processTranscript {raw} _ _.

(** [v || d] for an optional string. *)
Definition or_default (v : option string) (d : string) : string :=
  match v with
  | Some s => if Js.truthy s then s else d
  | None => d
  end.

Definition getVideoDetails {raw : Type} (sv : services raw) (url : string)
  : result VideoDetails.t :=
  match extractVideoID url with
  | Some videoId =>
      if negb (Js.truthy videoId) then Throw (Error "Invalid YouTube URL")
      else
        ResultMonad.try_catch
          (let oembedUrl :=
             "https://www.youtube.com/oembed?url=https://www.youtube.com/watch?v="
             ++ videoId ++ "&format=json" in
           data <- fetch_json sv oembedUrl ;;
           Ok (VideoDetails.Make
                 (oe_title data)
                 (or_default (oe_description data) "Description not available")
                 ("https://img.youtube.com/vi/" ++ videoId ++ "/maxresdefault.jpg")
                 (oe_author_name data)
                 (or_default (oe_duration data) "Duration not available")
                 None None))%result
          (fun error => Throw error)
  | None => Throw (Error "Invalid YouTube URL")
  end.

(** The [let] variables of [generateSummary]. *)
Record locals : Type := Locals {
  transcriptSummary : option string;
  timestamps : list TimeStampedContent.t;
  keyPoints : list TimeStampedContent.t;
  codeSnippets : list string
}.

Definition initial : locals := Locals None [] [] [].

(** [(a, b) => a.timestamp - b.timestamp] *)
Definition by_timestamp (a b : TimeStampedContent.t) : Q :=
  (TimeStampedContent.timestamp a - TimeStampedContent.timestamp b)%Q.

(** Whether [if (apiKey)] takes its branch. *)
Definition present (apiKey : option string) : option string :=
  match apiKey with
  | Some key => if Js.truthy key then Some key else None
  | None => None
  end.

(** The body of the inner [try] of [generateSummary]. *)
Definition processCaptions {raw : Type} (sv : services raw) (videoId : string)
  : Block.t locals unit :=
  match present (VITE_YOUTUBE_API_KEY sv) with
  | Some apiKey =>
      (captions <- Block.await (fetchCaptions sv videoId apiKey) ;;
       processedContent <- Block.await (processTranscript sv captions) ;;
       Block.assign (fun l =>
         Locals (Some (Captions.summary processedContent))
                (timestamps l) (keyPoints l) (codeSnippets l)) ;;
       Block.assign (fun l =>
         Locals (transcriptSummary l) (timestamps l)
                (Captions.keyPoints processedContent) (codeSnippets l)) ;;
       Block.assign (fun l =>
         Locals (transcriptSummary l)
                (JsArray.sort by_timestamp
                   (Captions.keyPoints processedContent
                    ++ Captions.codeBlocks processedContent))
                (keyPoints l) (codeSnippets l)) ;;
       Block.assign (fun l =>
         Locals (transcriptSummary l) (timestamps l) (keyPoints l)
                (map TimeStampedContent.text
                     (Captions.codeBlocks processedContent))))%block
  | None => Block.ret tt
  end.

(** The template that stands in for a missing transcript summary. *)
Definition fallbackText (videoDetails : VideoDetails.t) : string :=
  "This video titled " ++ Js.QUOTE ++ VideoDetails.title videoDetails
  ++ Js.QUOTE ++ " by " ++ VideoDetails.channel videoDetails
  ++ " provides a comprehensive overview of the topic." ++ Js.NL
  ++ "      " ++ Js.NL
  ++ "The content is structured to help viewers understand the subject matter through clear explanations and examples. The presenter breaks down complex concepts into digestible segments, making it easier for the audience to follow along.".

(** The template of [videoUrl]. *)
Definition watchUrl (videoId : string) : string :=
  "https://www.youtube.com/watch?v=" ++ videoId.

(** The locals after the inner [try] and its [catch], which only logs a
    warning. *)
Definition captionLocals {raw : Type} (sv : services raw) (videoId : string)
  : locals :=
  snd (Block.try_ (processCaptions sv videoId) initial).

(** [generateSummary]; the warning and the error that it logs on the
    console leave no trace in its outcome and are left out. *)
Definition generateSummary {raw : Type} (sv : services raw) (videoId : string)
  : result SummaryContent.t :=
  ResultMonad.try_catch
    (let videoUrl := watchUrl videoId in
     videoDetails <- getVideoDetails sv videoUrl ;;
     let l := captionLocals sv videoId in
     let summary :=
       SummaryContent.Make
         (or_default (transcriptSummary l) (fallbackText videoDetails))
         (codeSnippets l)
         [ videoUrl;
           "https://www.youtube.com/channel/" ++ VideoDetails.channel videoDetails ]
         [ VideoDetails.thumbnail videoDetails ]
         (timestamps l)
         (keyPoints l)
         (transcriptSummary l) in
     Ok summary)%result
    (fun error => Throw error).

End VideoAnalysis.

(** ** services/supabaseService.ts: the id resolver of the image uploader
    and the image references of a video *)

Module Supabase.
Import RegExp.

(** [[a-zA-Z0-9_-]] *)
Definition id_char (c : ascii) : bool :=
  Js.is_lower c || Js.is_upper c || Js.is_digit c || Js.one_of "_-" c.

(** [/^[a-zA-Z0-9_-]{11}$/] *)
Definition bareId : regex := SeqOf Bol [Rep 11 (Cls id_char); Eol].

(** [extractYouTubeVideoId]; its pattern is the one of [extractVideoID]. *)
Definition extractYouTubeVideoId (url : string) : option string :=
  if negb (Js.truthy url) then None
  else if (String.length url =? 11) && test bareId url then Some url
  else
    match exec VideoId.regExp url with
    | Some mt =>
        match capture mt 7 with
        | Some id =>
            if Js.truthy id && (String.length id =? 11) then Some id else None
        | None => None
        end
    | None => None
    end.

(** A row of the table [image_references], as selected. *)
Record row : Type := Row { image_url : string }.

(** What the query resolves to: [{ data, error }]. *)
Record response : Type := Response {
  data : list row;
  error : option exn
}.

(** The client: the query
    [from('image_references').select('image_url').eq('video_id', videoId)]. *)
Record client : Type := Client {
  select_image_references : string -> result response
}.

(** [getImageReferences] *)
Definition getImageReferences (supabase : client) (videoId : string)
  : list string :=
  match select_image_references supabase videoId with
  | Ok r =>
      match error r with
      | Some _ => []
      | None => map image_url (data r)
      end
  | Throw _ => []
  end.

End Supabase.


(** ** The jsPDF library, as [generatePDF] uses it *)

Module JsPDF.

(** The calls that change the document. *)
Inductive call : Type :=
| New
| SetFontSize (size : Q)
| SetFont (fontName fontStyle : string)
| Text (text : string) (x y : Q)
| TextLines (text : list string) (x y : Q)
| AddPage
| SetDrawColor (r g b : Q)
| Line (x1 y1 x2 y2 : Q)
| SetTextColor (r g b : Q)
| SetProperties (title subject author keywords creator : string)
| Output.

(** A document under construction is the sequence of the calls made on
    it, first call first. *)
Definition document : Type := list call.

(** The library is a collaborator: what [generatePDF] relies on is the
    height of a page, how a text is cut into lines for the font in use,
    and whether a call throws, each of them determined by the calls made
    so far. *)
Record library : Type := Library {
  (** [doc.internal.pageSize.height] *)
  pageSizeHeight : Q;
  (** [doc.splitTextToSize(text, maxWidth)] *)
  splitTextToSize : document -> string -> Q -> result (list string);
  (** the value that the call throws, if it throws *)
  fault : document -> call -> option exn
}.

(** [doc.output('blob')]: the blob holds the document. *)
Record blob : Type := Blob { content : document }.

Definition pages (d : document) : nat :=
  1 + List.length (filter (fun c => match c with AddPage => true | _ => false end) d).

End JsPDF.

(** ** services/videoAnalysisService.ts, third part: the PDF export *)

Module PDF.
Import JsPDF RegExp.

Local Open Scope Q_scope.

(** The state of [generatePDF]: the document and the [let] variable
    [yPosition]. *)
Record state : Type := State {
  doc : document;
  yPosition : Q
}.

Definition t (A : Type) : Type := state -> result (A * state).

Definition ret {A : Type} (a : A) : t A := fun st => Ok (a, st).

Definition bind {A B : Type} (c : t A) (f : A -> t B) : t B :=
  fun st =>
    match c st with
    | Ok (a, st') => f a st'
    | Throw e => Throw e
    end.

Declare Scope pdf_scope.
Delimit Scope pdf_scope with pdf.
Notation "x <- c ;; k" := (bind c (fun x => k))
  (at level 61, c at next level, right associativity) : pdf_scope.
Notation "c ;; k" := (bind c (fun _ => k))
  (at level 61, right associativity) : pdf_scope.

(** [for (const x of l) { body x }] *)
Fixpoint forEach {A : Type} (body : A -> t unit) (l : list A) : t unit :=
  match l with
  | [] => ret tt
  | x :: l' => (body x ;; forEach body l')%pdf
  end.

Definition when (b : bool) (c : t unit) : t unit :=
  if b then c else ret tt.

(** [array.length] *)
Definition len {A : Type} (l : list A) : Q := inject_Z (Z.of_nat (List.length l)).

Section Render.
Variable lib : library.

(** A call on [doc]. *)
Definition invoke (c : call) : t unit :=
  fun st =>
    match fault lib (doc st) c with
    | Some e => Throw e
    | None => Ok (tt, State (doc st ++ [c])%list (yPosition st))
    end.

Definition split (text : string) (maxWidth : Q) : t (list string) :=
  fun st =>
    match splitTextToSize lib (doc st) text maxWidth with
    | Ok lines => Ok (lines, st)
    | Throw e => Throw e
    end.

(** the value of [yPosition] *)
Definition y : t Q := fun st => Ok (yPosition st, st).

(** [yPosition += d] *)
Definition advance (d : Q) : t unit :=
  fun st => Ok (tt, State (doc st) (yPosition st + d)).

(** [yPosition = v] *)
Definition setY (v : Q) : t unit :=
  fun st => Ok (tt, State (doc st) v).

(** [doc.text(text, 15, yPosition)] *)
Definition text_at_y (text : string) : t unit :=
  (yPos <- y ;; invoke (Text text 15 yPos))%pdf.

Definition lines_at_y (text : list string) : t unit :=
  (yPos <- y ;; invoke (TextLines text 15 yPos))%pdf.

Definition lineHeight : Q := 10.
Definition maxWidth : Q := 180.
Definition pageHeight : Q := pageSizeHeight lib.

Definition checkPageBreak (neededSpace : Q) : t bool :=
  (yPos <- y ;;
   if Qlt_le_dec (pageHeight - 20) (yPos + neededSpace)
   then (invoke AddPage ;; setY 20 ;; ret true)
   else ret false)%pdf.

(** The body of the loop over the paragraphs of the summary. *)
Definition writeParagraph (paragraph : string) : t unit :=
  (splitText <- split paragraph maxWidth ;;
   checkPageBreak (len splitText * 6 + lineHeight) ;;
   lines_at_y splitText ;;
   advance (len splitText * 6 + lineHeight))%pdf.

(** [/```(\w+)/] *)
Definition fenceLanguage : regex :=
  Seq (Lit "```") (Group 1 (Plus (Cls Js.word_char))).

(** [/```\w*\n|```/g] *)
Definition fence : regex :=
  Alt (SeqOf (Lit "```") [Star (Cls Js.word_char); Chr Js.newline])
      (Lit "```").

Definition languageOf (codeSnippet : string) : string :=
  match exec fenceLanguage codeSnippet with
  | Some languageMatch =>
      match capture languageMatch 1 with
      | Some language => language
      | None => "code"
      end
  | None => "code"
  end.

Definition cleanCode (codeSnippet : string) : string :=
  replace_all fence EmptyString codeSnippet.

(** The body of the loop over [summary.code]. *)
Definition writeCodeSnippet (codeSnippet : string) : t unit :=
  (let language := languageOf codeSnippet in
   let cleanedCode := cleanCode codeSnippet in
   splitCode <- split cleanedCode maxWidth ;;
   checkPageBreak (len splitCode * 5 + lineHeight * 2) ;;
   invoke (SetFontSize 10) ;;
   invoke (SetFont "helvetica" "italic") ;;
   text_at_y ("Language: " ++ language) ;;
   advance lineHeight ;;
   invoke (SetFontSize 8) ;;
   invoke (SetFont "courier" "normal") ;;
   lines_at_y splitCode ;;
   advance (len splitCode * 5 + lineHeight * 1.5))%pdf.

(** The body of the loop over [summary.links]. *)
Definition writeLink (link : string) : t unit :=
  (checkPageBreak (lineHeight * 1.5) ;;
   splitLink <- split link maxWidth ;;
   lines_at_y splitLink ;;
   advance (len splitLink * 6 + 2))%pdf.

(** The three characters that precede the blank in the template of an
    image entry.  In the source they are the code units 226, 8364 and 162;
    the second, the euro sign, lies beyond the code units below 256 of
    this development and stands here as 128, its byte in Windows-1252.
    No property below reads the text of an image entry. *)
Definition bullet : string :=
  String (ascii_of_nat 226) (String (ascii_of_nat 128)
    (String (ascii_of_nat 162) EmptyString)).

(** The body of the loop over [summary.imageReferences]. *)
Definition writeImage (image : string) : t unit :=
  (checkPageBreak lineHeight ;;
   text_at_y (bullet ++ " " ++ image) ;;
   advance lineHeight)%pdf.

Definition nonEmpty {A : Type} (l : list A) : bool :=
  match l with [] => false | _ :: _ => true end.

(** The body of the [try] of [generatePDF]. *)
Definition render (videoDetails : VideoDetails.t) (summary : SummaryContent.t)
  : t blob :=
  (invoke New ;;
   (* title *)
   invoke (SetFontSize 16) ;;
   invoke (SetFont "helvetica" "bold") ;;
   text_at_y ("Video Summary: " ++ VideoDetails.title videoDetails) ;;
   advance (lineHeight * 1.5) ;;
   (* channel info *)
   invoke (SetFontSize 12) ;;
   invoke (SetFont "helvetica" "normal") ;;
   text_at_y ("Channel: " ++ VideoDetails.channel videoDetails) ;;
   advance lineHeight ;;
   text_at_y ("Duration: " ++ VideoDetails.duration videoDetails) ;;
   advance (lineHeight * 1.5) ;;
   (* horizontal line *)
   invoke (SetDrawColor 200 200 200) ;;
   yPos <- y ;;
   invoke (Line 15 yPos 195 yPos) ;;
   advance lineHeight ;;
   (* summary section *)
   invoke (SetFontSize 14) ;;
   invoke (SetFont "helvetica" "bold") ;;
   text_at_y "Summary" ;;
   advance lineHeight ;;
   invoke (SetFontSize 10) ;;
   invoke (SetFont "helvetica" "normal") ;;
   forEach writeParagraph
     (JsSplit.split (Js.NL ++ Js.NL) (SummaryContent.text summary)) ;;
   (* code snippets *)
   when (nonEmpty (SummaryContent.code summary))
     (checkPageBreak (lineHeight * 2) ;;
      advance (lineHeight / 2) ;;
      invoke (SetFontSize 14) ;;
      invoke (SetFont "helvetica" "bold") ;;
      text_at_y "Code Snippets" ;;
      advance lineHeight ;;
      invoke (SetFontSize 9) ;;
      invoke (SetFont "courier" "normal") ;;
      forEach writeCodeSnippet (SummaryContent.code summary)) ;;
   (* links *)
   when (nonEmpty (SummaryContent.links summary))
     (checkPageBreak (lineHeight * 2) ;;
      invoke (SetFontSize 14) ;;
      invoke (SetFont "helvetica" "bold") ;;
      text_at_y "Referenced Links" ;;
      advance lineHeight ;;
      invoke (SetFontSize 9) ;;
      invoke (SetFont "helvetica" "normal") ;;
      invoke (SetTextColor 0 0 255) ;;
      forEach writeLink (SummaryContent.links summary) ;;
      invoke (SetTextColor 0 0 0)) ;;
   (* image references *)
   when (nonEmpty (SummaryContent.imageReferences summary))
     (checkPageBreak (lineHeight * 2) ;;
      invoke (SetFontSize 14) ;;
      invoke (SetFont "helvetica" "bold") ;;
      text_at_y "Image References" ;;
      advance lineHeight ;;
      invoke (SetFontSize 10) ;;
      invoke (SetFont "helvetica" "normal") ;;
      forEach writeImage (SummaryContent.imageReferences summary)) ;;
   (* document metadata *)
   invoke (SetProperties
             (VideoDetails.title videoDetails ++ " - Summary")
             "YouTube Video Summary" "AI Summarizer"
             "youtube, summary, ai" "YouTube AI Summarizer") ;;
   invoke Output ;;
   fun st => Ok (Blob (doc st), st))%pdf.

(** [generatePDF]: the document starts empty and [yPosition] at 20;
    whatever the body throws is replaced by one error. *)
Definition generatePDF (videoDetails : VideoDetails.t)
           (summary : SummaryContent.t) : result blob :=
  ResultMonad.try_catch
    (match render videoDetails summary (State [] 20) with
     | Ok (pdfBlob, _) => Ok pdfBlob
     | Throw e => Throw e
     end)
    (fun error => Throw (Error "Failed to generate PDF")).

End Render.

End PDF.

(** ** pages/Index.tsx *)

Module Index.
Import RegExp.

(** [[^\/]] *)
Definition not_slash (c : ascii) : bool := negb (Ascii.eqb c "/").

(** The class of the captured group: no double quote, [&], [?], [/] or
    white space. *)
Definition id_char (c : ascii) : bool :=
  negb (Ascii.eqb c Js.quote || Js.one_of "&?/" c || Js.white_space c).

(** The pattern of [extractVideoId], piece by piece:
    [youtube\.com\/] followed by one of [ [^\/]+\/.+\/ ],
    [ (?:v|e(?:mbed)?)\/ ] and [ .*[?&]v= ]; or [youtu\.be\/]; then the
    group of eleven characters. *)
Definition videoIdPattern : regex :=
  Seq
    (Alt
       (Seq (Lit "youtube.com/")
            (AltOf
               (SeqOf (Plus (Cls not_slash)) [Chr "/"; Plus Dot; Chr "/"])
               [ Seq (Alt (Chr "v") (Seq (Chr "e") (Opt (Lit "mbed")))) (Chr "/");
                 SeqOf (Star Dot) [Cls (Js.one_of "?&"); Lit "v="] ]))
       (Lit "youtu.be/"))
    (Group 1 (Rep 11 (Cls id_char))).

(** [extractVideoId]: group 1 takes part in every match. *)
Definition extractVideoId (url : string) : string :=
  match exec videoIdPattern url with
  | Some videoIdMatch =>
      match capture videoIdMatch 1 with
      | Some id => id
      | None => EmptyString
      end
  | None => EmptyString
  end.

(** The state of the page. *)
Record page : Type := Page {
  videoUrl : string;
  videoId : string;
  embedUrl : string;
  summaryData : SummaryData.t
}.

(** [{ ...summary, imageReferences: [...(summary.imageReferences || []),
    ...supabaseImages] }] *)
Definition combinedSummary (summary : SummaryContent.t)
           (supabaseImages : list string) : SummaryContent.t :=
  SummaryContent.Make
    (SummaryContent.text summary)
    (SummaryContent.code summary)
    (SummaryContent.links summary)
    (SummaryContent.imageReferences summary ++ supabaseImages)%list
    (SummaryContent.timestamps summary)
    (SummaryContent.keyPoints summary)
    (SummaryContent.transcriptSummary summary).

Section Page.
Context {raw : Type}.
Variable sv : VideoAnalysis.services raw.
Variable supabase : Supabase.client.

(** The [try] block of [handleSubmit], from the first [await] on: its
    outcome is the last value given to [setSummaryData]. *)
Definition analyse (url : string) (extractedVideoId : string)
  : result SummaryData.t :=
  (details <- VideoAnalysis.getVideoDetails sv url ;;
   if negb (Js.truthy extractedVideoId)
   then Throw (Error "Could not extract video ID")
   else
     summary <- VideoAnalysis.generateSummary sv extractedVideoId ;;
     let supabaseImages :=
       Supabase.getImageReferences supabase extractedVideoId in
     Ok (SummaryData.Make (Some details)
                          (Some (combinedSummary summary supabaseImages))
                          false None))%result.

(** [handleSubmit], for a request that no other request overlaps; the
    toasts are left out. *)
Definition handleSubmit (url : string) : page :=
  let extractedVideoId := extractVideoId url in
  Page url extractedVideoId (VideoId.getEmbedUrl url)
       (match analyse url extractedVideoId with
        | Ok d => d
        | Throw (Error message) =>
            SummaryData.Make None None false (Some message)
        end).

(** [handleImageUploadSuccess] *)
Definition handleImageUploadSuccess (imageUrl : string) (p : page) : page :=
  match SummaryData.summary (summaryData p) with
  | None => p
  | Some s =>
      Page (videoUrl p) (videoId p) (embedUrl p)
           (SummaryData.Make
              (SummaryData.videoDetails (summaryData p))
              (Some (SummaryContent.Make
                       (SummaryContent.text s)
                       (SummaryContent.code s)
                       (SummaryContent.links s)
                       (SummaryContent.imageReferences s ++ [imageUrl])%list
                       (SummaryContent.timestamps s)
                       (SummaryContent.keyPoints s)
                       (SummaryContent.transcriptSummary s)))
              (SummaryData.isLoading (summaryData p))
              (SummaryData.error (summaryData p)))
  end.
End Page.

End Index.

(** ** Sample collaborators

    Concrete services, tables and a concrete PDF library, on which the
    functions above can be run. *)

Module Demo.
Import VideoAnalysis.

Definition videoId : string := "dQw4w9WgXcQ".

Definition response : oembed :=
  OEmbed "Never Gonna Give You Up" None "Rick Astley" None.

Definition item (t : Q) (text : string) (k : TimeStampedContent.kind)
  : TimeStampedContent.t :=
  TimeStampedContent.Make t text k None.

Definition keyPoints : list TimeStampedContent.t :=
  [ item 30 "chorus" TimeStampedContent.key_point_kind;
    item 5 "intro" TimeStampedContent.key_point_kind;
    item 12 "verse" TimeStampedContent.key_point_kind ].

(** A code block in markdown fences. *)
Definition fenced : string :=
  "```js" ++ Js.NL ++ "let x = 1;" ++ Js.NL ++ "```".

Definition codeBlocks : list TimeStampedContent.t :=
  [ item 12 fenced TimeStampedContent.code_kind;
    item 5 "x = 2" TimeStampedContent.code_kind ].

Definition processed : Captions.processed :=
  Captions.Processed "A summary of the transcript." keyPoints codeBlocks.

(** Services with an API key, whose captions calls have the given
    outcomes. *)
Definition services (captions : result unit)
           (outcome : result Captions.processed) : services unit :=
  Services unit (fun _ => Ok response) (Some "key")
           (fun _ _ => captions) (fun _ => outcome).

Definition supabase : Supabase.client :=
  Supabase.Client (fun _ =>
    Ok (Supabase.Response
          [ Supabase.Row "video-images/a.png";
            Supabase.Row "https://youtu.be/xyz" ] None)).

(** A string of [n] characters. *)
Fixpoint filler (n : nat) : string :=
  match n with
  | O => EmptyString
  | S n' => String "x" (filler n')
  end.

(** Lines of at most [width] characters: [room] is what is left on the
    line [cur]. *)
Fixpoint chunk (width room : nat) (cur : string) (s : string) : list string :=
  match s with
  | EmptyString => [cur]
  | String c t =>
      match room with
      | O => cur :: chunk width (width - 1) (String c EmptyString) t
      | S room' => chunk width room' (cur ++ String c EmptyString) t
      end
  end.

(** A library with pages 297 units high, that puts 100 characters on a
    line and never throws. *)
Definition a4 : JsPDF.library :=
  JsPDF.Library 297 (fun _ text _ => Ok (chunk 100 100 EmptyString text))
                (fun _ _ => None).

(** The same library, except that it cannot add a page. *)
Definition onePage : JsPDF.library :=
  JsPDF.Library 297 (fun _ text _ => Ok (chunk 100 100 EmptyString text))
                (fun _ c => match c with
                            | JsPDF.AddPage => Some (Error "out of memory")
                            | _ => None
                            end).

Definition details : VideoDetails.t :=
  VideoDetails.Make "Never Gonna Give You Up" "Description not available"
                    "thumb.jpg" "Rick Astley" "Duration not available" None None.

(** A summary whose only link takes three lines, after a text of 27
    lines. *)
Definition tallLink : SummaryContent.t :=
  SummaryContent.Make (filler 2700) [] [filler 300] [] [] [] None.

End Demo.

(** ** More of the string library *)

Module JsText.

(** [s.startsWith(p)] *)
Definition startsWith (p s : string) : bool := String.prefix p s.

(** [s.includes(p)] *)
Fixpoint includes (p s : string) : bool :=
  String.prefix p s
  || match s with
     | EmptyString => false
     | String _ t => includes p t
     end.

(** [parts.join(sep)] *)
Fixpoint join (sep : string) (parts : list string) : string :=
  match parts with
  | [] => EmptyString
  | [x] => x
  | x :: rest => x ++ sep ++ join sep rest
  end.

(** [s.slice(n)] for a non-negative [n]. *)
Fixpoint drop (n : nat) (s : string) : string :=
  match n, s with
  | S n', String _ t => drop n' t
  | _, _ => s
  end.

(** The lower-case form of a code unit below 256: the letters [A-Z] and
    the capital letters of Latin-1 (192 to 222 but the sign at 215). *)
Definition lower (c : ascii) : ascii :=
  if Js.is_upper c
     || (Js.between 192 222 c && negb (Js.code c =? 215))
  then ascii_of_nat (Js.code c + 32)
  else c.

(** [s.toLowerCase()] *)
Fixpoint toLowerCase (s : string) : string :=
  match s with
  | EmptyString => EmptyString
  | String c t => String (lower c) (toLowerCase t)
  end.

(** Whether [s.trim()] is the empty string: [s] has white space only. *)
Fixpoint blank (s : string) : bool :=
  match s with
  | EmptyString => true
  | String c t => Js.white_space c && blank t
  end.

(** [c.repeat(n)] for a one-character string. *)
Fixpoint repeat (c : ascii) (n : nat) : string :=
  match n with
  | O => EmptyString
  | S n' => String c (repeat c n')
  end.

(** [s.padStart(n, c)] for a one-character filler. *)
Definition padStart (n : nat) (c : ascii) (s : string) : string :=
  repeat c (n - String.length s) ++ s.

(** Every character of [s] satisfies [p]. *)
Fixpoint every (p : ascii -> bool) (s : string) : bool :=
  match s with
  | EmptyString => true
  | String c t => p c && every p t
  end.

(** The decimal form of an integer, as [toString] and templates give it
    (below ten to the 21, where the exponent form starts). *)
Definition ofInt (z : Z) : string := NilZero.string_of_int (Z.to_int z).

End JsText.

(** ** services/supabaseService.ts: thumbnails and storage *)

Module Images.
Import RegExp.

(** What a call of the storage or database client resolves to: either the
    data or the error is set. *)
Inductive response (A : Type) : Type :=
| Data (data : A)
| Failure (error : exn).

Arguments Data {A} data.
Arguments Failure {A} error.

(** A [File] of the browser, as far as the service reads it. *)
Record file : Type := File { name : string }.

(** The client and the clock. *)
Record client : Type := Client {
  (** [Date.now()] *)
  now : N;
  (** [storage.from(bucket).upload(fileName, file)] *)
  upload : string -> string -> file -> result (response unit);
  (** [storage.from(bucket).createSignedUrl(filePath, expiresIn)], with
      [data.signedUrl] as data *)
  createSignedUrl : string -> string -> Q -> result (response string);
  (** [storage.from(bucket).getPublicUrl(filePath)], with [data.publicUrl]
      as data *)
  getPublicUrl : string -> string -> result string;
  (** [from('image_references').insert([{ video_id, image_url }])] *)
  insert_image_reference : string -> string -> result (response unit)
}.

Definition invalidThumbnail : string :=
  "https://placehold.co/600x400?text=Invalid+YouTube+URL".

Definition notAvailable : string :=
  "https://placehold.co/600x400?text=Image+Not+Available".

(** Whether [if (id)] takes its branch for a resolver's result. *)
Definition resolved (id : option string) : option string :=
  match id with
  | Some v => if Js.truthy v then Some v else None
  | None => None
  end.

(** [getYouTubeThumbnailUrl] *)
Definition getYouTubeThumbnailUrl (videoIdOrUrl : string) : string :=
  if negb (Js.truthy videoIdOrUrl) then invalidThumbnail
  else
    let videoId :=
      if String.length videoIdOrUrl =? 11 then Some videoIdOrUrl
      else Supabase.extractYouTubeVideoId videoIdOrUrl in
    match resolved videoId with
    | None => invalidThumbnail
    | Some id => "https://img.youtube.com/vi/" ++ id ++ "/hqdefault.jpg"
    end.

(** [/\s+/g] *)
Definition whiteSpaceRun : regex := Plus (Cls Js.white_space).

(** [uploadImage]; [null] is [None]. *)
Definition uploadImage (supabase : client) (f : file) (bucket : string)
  : option string :=
  let fileName :=
    JsText.ofInt (Z.of_N (now supabase)) ++ "_"
    ++ replace_all whiteSpaceRun "_" (name f) in
  match
    ResultMonad.bind (upload supabase bucket fileName f)
      (fun r =>
         match r with
         | Failure error => Throw error
         | Data _ => Ok (bucket ++ "/" ++ fileName)
         end)
  with
  | Ok path => Some path
  | Throw _ => None
  end.

(** The default of the parameter [bucket]. *)
Definition defaultBucket : string := "video-images".

(** The bucket and the file path that [getSignedImageUrl] and
    [getImageUrl] read off an image path. *)
Definition bucketAndPath (imagePath : string) : string * string :=
  if JsText.includes "/" imagePath
  then
    let parts := JsSplit.split "/" imagePath in
    (hd EmptyString parts, JsText.join "/" (tl parts))
  else (defaultBucket, imagePath).

(** [getSignedImageUrl] *)
Definition getSignedImageUrl (supabase : client) (imagePath : string)
           (expiresIn : Q) : option string :=
  match
    (if JsText.startsWith "http" imagePath then Ok imagePath
     else
       match resolved (Supabase.extractYouTubeVideoId imagePath) with
       | Some _ => Ok (getYouTubeThumbnailUrl imagePath)
       | None =>
           let (bucketName, filePath) := bucketAndPath imagePath in
           ResultMonad.bind (createSignedUrl supabase bucketName filePath expiresIn)
             (fun r =>
                match r with
                | Failure error => Throw error
                | Data signedUrl => Ok signedUrl
                end)
       end)
  with
  | Ok url => Some url
  | Throw _ =>
      (* the fallback to the public URL *)
      let (bucketName, filePath) := bucketAndPath imagePath in
      match getPublicUrl supabase bucketName filePath with
      | Ok publicUrl => Some publicUrl
      | Throw _ => None
      end
  end.

(** The default of the parameter [expiresIn]. *)
Definition defaultExpiry : Q := 3600.

(** [getImageUrl] *)
Definition getImageUrl (supabase : client) (imagePath : string) : option string :=
  match
    (if JsText.startsWith "http" imagePath then Ok imagePath
     else
       match resolved (Supabase.extractYouTubeVideoId imagePath) with
       | Some _ => Ok (getYouTubeThumbnailUrl imagePath)
       | None =>
           let (bucketName, filePath) := bucketAndPath imagePath in
           match
             resolved (getSignedImageUrl supabase
                         (bucketName ++ "/" ++ filePath) defaultExpiry)
           with
           | Some signedUrl => Ok signedUrl
           | None => getPublicUrl supabase bucketName filePath
           end
       end)
  with
  | Ok url => Some url
  | Throw _ => Some notAvailable
  end.

(** [storeImageReference] *)
Definition storeImageReference (supabase : client) (videoId imageUrl : string)
  : bool :=
  match insert_image_reference supabase videoId imageUrl with
  | Ok (Data _) => true
  | Ok (Failure _) => false
  | Throw _ => false
  end.

End Images.

(** ** components/PDFExport.tsx: the name of the download *)

Module PDFExport.
Import RegExp.

(** [/[^a-z0-9]/gi]: with the i flag a letter of either case is in the
    range, and no other code unit below 256 folds onto one. *)
Definition unsafe (c : ascii) : bool :=
  negb (Js.is_lower c || Js.is_upper c || Js.is_digit c).

(** The value given to [link.download] in [handleExport]. *)
Definition downloadName (videoDetails : VideoDetails.t) : string :=
  JsText.toLowerCase
    (replace_all (Cls unsafe) "_" (VideoDetails.title videoDetails))
  ++ "_summary.pdf".

End PDFExport.

(** ** components/YouTubeInput.tsx: the form *)

Module YouTubeInput.
Import RegExp.

(** The pattern of [validateUrl], piece by piece: [^], the optional groups
    [(https?:\/\/)] and [(www\.)], the group [(youtube\.com|youtu\.?be)],
    [\/], [.+] and [$]. *)
Definition youtubeRegex : regex :=
  SeqOf Bol
    [ Opt (Group 1 (SeqOf (Lit "http") [Opt (Chr "s"); Lit "://"]));
      Opt (Group 2 (Lit "www."));
      Group 3 (Alt (Lit "youtube.com")
                   (SeqOf (Lit "youtu") [Opt (Chr "."); Lit "be"]));
      Chr "/"; Plus Dot; Eol ].

Definition validateUrl (url : string) : bool := test youtubeRegex url.

(** What [handleSubmit] does with the text of the field: it sets an
    error, or clears it and hands the text to [onSubmit]. *)
Inductive outcome : Type :=
| SetError (message : string)
| Submit (url : string).

Definition handleSubmit (url : string) : outcome :=
  if JsText.blank url then SetError "Please enter a YouTube URL"
  else if negb (validateUrl url) then SetError "Please enter a valid YouTube URL"
  else Submit url.

End YouTubeInput.

(** ** components/SummarySection.tsx: the time of a timeline entry *)

Module SummarySection.

(** [Math.trunc], which [%] rounds its quotient with. *)
Definition trunc (q : Q) : Z :=
  if Qle_bool 0 q then Qfloor q else Qceiling q.

(** [a % n] *)
Definition remainder (a n : Q) : Q := (a - n * inject_Z (trunc (a / n)))%Q.

(** [formatTimestamp], in exact arithmetic.  The code computes in doubles:
    the two agree on the whole numbers of seconds from 0 to below two to
    the 53, where the quotient by 60 floors to the same integer and [%] is
    exact; the property below is limited to those. *)
Definition formatTimestamp (seconds : Q) : string :=
  let minutes := Qfloor (seconds / 60) in
  let remainingSeconds := Qfloor (remainder seconds 60) in
  JsText.ofInt minutes ++ ":"
  ++ JsText.padStart 2 "0" (JsText.ofInt remainingSeconds).

End SummarySection.

(** ** The pattern of the resolvers, in parts

    The parts of [VideoId.regExp] under names, for the proofs that follow
    a match through it (lemma [regExp_parts]). *)

Module Shapes.
Import RegExp.

(** What [.] matches. *)
Definition any (a : ascii) : bool := negb (Js.line_terminator a).

(** Group 7, [( [^#&?]* )], and the closing [.*]. *)
Definition idGroup : regex :=
  Seq (Group 7 (Star (Cls VideoId.not_delim))) (Star Dot).

(** The optional [\?], [v] and [=], then the above. *)
Definition idRest : regex :=
  SeqOf (Opt (Chr "?")) [Opt (Chr "v"); Opt (Chr "="); idGroup].

(** [(\/u\/\w\/)] *)
Definition userShape : regex :=
  Group 4 (SeqOf (Lit "/u/") [Cls Js.word_char; Chr "/"]).

(** The alternatives of group 1. *)
Definition shapes : regex :=
  AltOf (Group 2 (SeqOf (Lit "youtu") [Dot; Lit "be/"]))
        [ Group 3 (Lit "v/"); userShape; Group 5 (Lit "embed/");
          Group 6 (Lit "watch?") ].

(** The pattern after [^.*]. *)
Definition idTail : regex := Seq (Group 1 shapes) idRest.

End Shapes.

(** ** The request for the details of a video *)

Module Requests.

(** The URL that [getVideoDetails] fetches for the id [videoId]. *)
Definition oembedUrl (videoId : string) : string :=
  "https://www.youtube.com/oembed?url=https://www.youtube.com/watch?v="
  ++ videoId ++ "&format=json".

End Requests.

(** ** Patterns that consume input *)

Module Consuming.
Import RegExp.

(** Every match of [r] passes one character at least. *)
Fixpoint nonempty (r : regex) : bool :=
  match r with
  | Chr _ | Dot | Cls _ => true
  | Seq r1 r2 => nonempty r1 || nonempty r2
  | Alt r1 r2 => nonempty r1 && nonempty r2
  | Group _ r1 => nonempty r1
  | Rep (S _) r1 => nonempty r1
  | _ => false
  end.

End Consuming.

(** ** Steps that only add to the document *)

Module Growth.

(** A step of the export that, when it succeeds, leaves the calls made
    before it in place and adds its own after them. *)
Definition grows {A : Type} (c : PDF.t A) : Prop :=
  forall st a st',
    c st = Ok (a, st') -> exists d, PDF.doc st' = (PDF.doc st ++ d)%list.

End Growth.

(** ** What a pattern matches

    The strings a pattern can pass, without positions and captures: the
    matcher passes from the input [s] to the input [t] left only if
    [lang r s t] (lemma [m_lang]). *)

Module Language.
Import RegExp.

Fixpoint iter (n : nat) (R : string -> string -> Prop) (s t : string) : Prop :=
  match n with
  | O => s = t
  | S n' => exists u, R s u /\ iter n' R u t
  end.

Fixpoint lang (r : regex) (s t : string) : Prop :=
  match r with
  | Eps => s = t
  | Chr c => s = String c t
  | Dot => exists a, s = String a t /\ Shapes.any a = true
  | Cls p => exists a, s = String a t /\ p a = true
  | Seq r1 r2 => exists u, lang r1 s u /\ lang r2 u t
  | Alt r1 r2 => lang r1 s t \/ lang r2 s t
  | Opt r1 => lang r1 s t \/ s = t
  | Star r1 => exists n, iter n (lang r1) s t
  | Rep n r1 => iter n (lang r1) s t
  | Group _ r1 => lang r1 s t
  | Bol => s = t
  | Eol => s = EmptyString /\ t = EmptyString
  end.

End Language.

(** ** Classes of characters and digits *)

Module Written.

(** A letter, a digit or the underscore. *)
Definition kept (c : ascii) : bool :=
  Js.is_lower c || Js.is_upper c || Js.is_digit c || Ascii.eqb c "_".

(** A small letter, a digit or the underscore. *)
Definition tame (c : ascii) : bool :=
  Js.is_lower c || Js.is_digit c || Ascii.eqb c "_".

(** The character of a decimal digit. *)
Definition digit (d : Z) : ascii := ascii_of_nat (48 + Z.to_nat d).

(** A number below a hundred in two digits. *)
Definition twoDigits (k : Z) : string :=
  String (digit (k / 10)) (String (digit (k mod 10)) EmptyString).

End Written.

(** ** The label of a code snippet, read from left to right

    What [generatePDF] prints as the language of a snippet, said without
    a pattern, to compare [PDF.languageOf] with. *)

Module Label.

(** The longest prefix of [s] with characters of the class [p]. *)
Fixpoint run (p : ascii -> bool) (s : string) : string :=
  match s with
  | String c t => if p c then String c (run p t) else EmptyString
  | EmptyString => EmptyString
  end.

(** What follows that prefix. *)
Fixpoint after (p : ascii -> bool) (s : string) : string :=
  match s with
  | String c t => if p c then after p t else s
  | EmptyString => EmptyString
  end.

(** The word that follows the fence at the start of [s]: [s] starts with
    three backquotes and a word character, and the word is the longest
    run of word characters there. *)
Definition labelAt (s : string) : option string :=
  if String.prefix "```" s then
    match run Js.word_char (JsText.drop 3 s) with
    | EmptyString => None
    | word => Some word
    end
  else None.

(** The word that follows the first fence of [s] that has one. *)
Fixpoint firstLabel (s : string) : option string :=
  match labelAt s with
  | Some word => Some word
  | None =>
      match s with
      | EmptyString => None
      | String _ t => firstLabel t
      end
  end.

End Label.

(** ** More sample collaborators *)

Module Samples.

(** Services whose oEmbed request fails. *)
Definition offline : VideoAnalysis.services unit :=
  VideoAnalysis.Services unit (fun _ => Throw (Error "Failed to fetch"))
    (Some "key") (fun _ _ => Ok tt) (fun _ => Ok Demo.processed).

(** Services with an empty API key. *)
Definition keyless : VideoAnalysis.services unit :=
  VideoAnalysis.Services unit (fun _ => Ok Demo.response)
    (Some EmptyString) (fun _ _ => Ok tt) (fun _ => Ok Demo.processed).

(** A storage that stores every file, signs no URL and has a public URL
    for every path. *)
Definition storage : Images.client :=
  Images.Client 1712345678901%N
    (fun _ _ _ => Ok (Images.Data tt))
    (fun _ _ _ => Ok (Images.Failure (Error "Object not found")))
    (fun bucket path =>
       Ok ("https://project.supabase.co/storage/v1/object/public/"
           ++ bucket ++ "/" ++ path))
    (fun _ _ => Ok (Images.Data tt)).

(** A storage that is out of reach. *)
Definition unreachable : Images.client :=
  Images.Client 1712345678901%N
    (fun _ _ _ => Throw (Error "Failed to fetch"))
    (fun _ _ _ => Throw (Error "Failed to fetch"))
    (fun _ _ => Throw (Error "Failed to fetch"))
    (fun _ _ => Throw (Error "Failed to fetch")).

End Samples.

(** * Properties *)

(** ** The matcher *)

Module RegExpFacts.
Import RegExp.

Lemma keeps_refl st : keeps st st.
Proof.
  split; [intros i H; exact H|].
  exists EmptyString. split; [reflexivity | simpl; lia].
Qed.

Lemma append_assoc (a b c : string) : (a ++ b) ++ c = a ++ (b ++ c).
Proof. induction a as [|x a IH]; simpl; [reflexivity | rewrite IH; reflexivity]. Qed.

Lemma length_append (a b : string) :
  String.length (a ++ b) = String.length a + String.length b.
Proof. induction a as [|x a IH]; simpl; [reflexivity | rewrite IH; reflexivity]. Qed.

Lemma keeps_trans st1 st2 st3 : keeps st1 st2 -> keeps st2 st3 -> keeps st1 st3.
Proof.
  intros [H12 (p12 & E12 & I12)] [H23 (p23 & E23 & I23)]. split.
  - intros i H; apply H23, H12, H.
  - exists (p12 ++ p23). split.
    + rewrite E12, E23, append_assoc. reflexivity.
    + rewrite length_append. lia.
Qed.

Lemma keeps_consume st a t : rest st = String a t -> keeps st (consume st t).
Proof.
  intros E. split; [intros i H; exact H|].
  exists (String a EmptyString). split; [rewrite E; reflexivity | simpl; lia].
Qed.

Lemma keeps_set_cap i st st' : keeps st' (set_cap i st st').
Proof.
  split.
  - intros j H. unfold set_cap; simpl.
    destruct (i =? j); [discriminate | exact H].
  - exists EmptyString. split; [reflexivity | simpl; lia].
Qed.

Lemma set_cap_defined i st st' : lookup i (caps (set_cap i st st')) <> None.
Proof. unfold set_cap; simpl. rewrite Nat.eqb_refl. discriminate. Qed.

(** What lies ahead has no more input left, and less if the index moved. *)
Lemma keeps_length st st' :
  keeps st st' ->
  String.length (rest st') <= String.length (rest st)
  /\ (idx st' <> idx st -> String.length (rest st') < String.length (rest st)).
Proof.
  intros [_ (pre & E & I)]. rewrite E, length_append. split; lia.
Qed.

Create HintDb regexp.
#[local] Hint Resolve keeps_refl keeps_consume keeps_set_cap : regexp.

Lemma or_else_some a b e :
  or_else a b = Some e -> a = Some e \/ (a = None /\ b = Some e).
Proof. destruct a; simpl; intros H; [left | right]; auto. Qed.

Lemma one_some p k st e :
  one p k st = Some e ->
  exists a t, rest st = String a t /\ p a = true /\ k (consume st t) = Some e.
Proof.
  unfold one. destruct (rest st) as [|a t]; [discriminate|].
  destruct (p a) eqn:Hp; [|discriminate].
  intros H; exists a, t; auto.
Qed.

Lemma progress_some st k st' e :
  progress st k st' = Some e -> idx st' <> idx st /\ k st' = Some e.
Proof.
  unfold progress. destruct (Nat.eqb_spec (idx st') (idx st)); [discriminate|].
  auto.
Qed.

Section Quantified.
Variable body : cont -> cont.
Hypothesis body_via_cont : forall k st e,
  body k st = Some e -> exists st', k st' = Some e /\ keeps st st'.

Lemma star_via_cont k e : forall fuel st,
  star body k fuel st = Some e -> exists st', k st' = Some e /\ keeps st st'.
Proof.
  induction fuel as [|fuel IHf]; intros st H; simpl in H.
  - eauto with regexp.
  - apply or_else_some in H as [H | [_ H]].
    + apply body_via_cont in H as (st1 & H & K1).
      apply progress_some in H as [_ H].
      apply IHf in H as (st2 & H & K2).
      exists st2; split; [exact H | eapply keeps_trans; eassumption].
    + eauto with regexp.
Qed.

Lemma rep_via_cont e : forall n k st,
  rep body n k st = Some e -> exists st', k st' = Some e /\ keeps st st'.
Proof.
  induction n as [|n IHn]; intros k st H; simpl in H.
  - eauto with regexp.
  - apply body_via_cont in H as (st1 & H & K1). apply IHn in H as (st2 & H & K2).
    exists st2; split; [exact H | eapply keeps_trans; eassumption].
Qed.
End Quantified.

(** A match succeeds through its continuation only, further on in the
    input, and no capture is lost on the way. *)
Lemma m_via_cont r : forall k st e,
  m r k st = Some e -> exists st', k st' = Some e /\ keeps st st'.
Proof.
  induction r as [ | c | | p | r1 IH1 r2 IH2 | r1 IH1 r2 IH2 | r1 IH1
                 | r1 IH1 | n r1 IH1 | i r1 IH1 | | ]; intros k st e H;
    cbn [m] in H.
  - exists st; auto with regexp.
  - apply one_some in H as (a & t & E & _ & H). eauto with regexp.
  - apply one_some in H as (a & t & E & _ & H). eauto with regexp.
  - apply one_some in H as (a & t & E & _ & H). eauto with regexp.
  - apply IH1 in H as (st1 & H & K1). apply IH2 in H as (st2 & H & K2).
    exists st2; split; [exact H | eapply keeps_trans; eassumption].
  - apply or_else_some in H as [H | [_ H]]; [apply IH1 in H | apply IH2 in H];
      exact H.
  - apply or_else_some in H as [H | [_ H]].
    + apply IH1 in H as (st1 & H & K1). apply progress_some in H as [_ H]. eauto.
    + eauto with regexp.
  - eapply star_via_cont; [exact IH1 | exact H].
  - eapply rep_via_cont; [exact IH1 | exact H].
  - apply IH1 in H as (st1 & H & K1). eexists; split; [exact H|].
    eapply keeps_trans; [exact K1 | apply keeps_set_cap].
  - destruct (idx st =? 0); [|discriminate]. eauto with regexp.
  - destruct (rest st); [|discriminate]. eauto with regexp.
Qed.

(** The outcome of a match depends on its continuation only through the
    states that lie ahead. *)
Lemma m_ext r : forall k k' st,
  (forall st', keeps st st' -> k st' = k' st') -> m r k st = m r k' st.
Proof.
  induction r as [ | c | | p | r1 IH1 r2 IH2 | r1 IH1 r2 IH2 | r1 IH1
                 | r1 IH1 | n r1 IH1 | i r1 IH1 | | ]; intros k k' st H; cbn [m].
  - apply H; auto with regexp.
  - unfold one. destruct (rest st) as [|a t] eqn:E; [reflexivity|].
    destruct (Ascii.eqb c a); [apply H; eauto with regexp | reflexivity].
  - unfold one. destruct (rest st) as [|a t] eqn:E; [reflexivity|].
    destruct (negb (Js.line_terminator a));
      [apply H; eauto with regexp | reflexivity].
  - unfold one. destruct (rest st) as [|a t] eqn:E; [reflexivity|].
    destruct (p a); [apply H; eauto with regexp | reflexivity].
  - apply IH1. intros st1 K1. apply IH2. intros st2 K2.
    apply H. eapply keeps_trans; eassumption.
  - rewrite (IH1 k k' st H), (IH2 k k' st H). reflexivity.
  - rewrite (H st (keeps_refl st)). f_equal.
    apply IH1. intros st1 K1. unfold progress.
    destruct (idx st1 =? idx st); [reflexivity | apply H, K1].
  - generalize (S (String.length (rest st))). intros fuel.
    revert st H. induction fuel as [|fuel IHf]; intros st H; simpl.
    + apply H; auto with regexp.
    + rewrite (H st (keeps_refl st)). f_equal.
      apply IH1. intros st1 K1. unfold progress.
      destruct (idx st1 =? idx st); [reflexivity|].
      apply IHf. intros st2 K2. apply H. eapply keeps_trans; eassumption.
  - revert k k' st H. induction n as [|n IHn]; intros k k' st H; simpl.
    + apply H; auto with regexp.
    + apply IH1. intros st1 K1. apply IHn. intros st2 K2.
      apply H. eapply keeps_trans; eassumption.
  - apply IH1. intros st1 K1. apply H.
    eapply keeps_trans; [exact K1 | apply keeps_set_cap].
  - destruct (idx st =? 0); [apply H; auto with regexp | reflexivity].
  - destruct (rest st) eqn:E; [apply H; auto with regexp | reflexivity].
Qed.

(** The fuel of [r*] never runs out: above the length of the input left,
    one unit more changes nothing. *)
Lemma star_fuel r k : forall fuel st,
  String.length (rest st) < fuel ->
  star (m r) k (S fuel) st = star (m r) k fuel st.
Proof.
  induction fuel as [|fuel IHf]; intros st L; [lia|].
  change (or_else (m r (progress st (star (m r) k (S fuel))) st) (k st)
          = or_else (m r (progress st (star (m r) k fuel)) st) (k st)).
  f_equal. apply m_ext. intros st1 K1. unfold progress.
  destruct (Nat.eqb_spec (idx st1) (idx st)) as [|N]; [reflexivity|].
  apply IHf. destruct (keeps_length _ _ K1) as [_ Hlt]. specialize (Hlt N). lia.
Qed.

Lemma star_enough r k st : forall extra,
  star (m r) k (extra + S (String.length (rest st))) st = m (Star r) k st.
Proof.
  induction extra as [|extra IH]; [reflexivity|].
  rewrite <- IH. apply star_fuel. lia.
Qed.

Lemma m_sets_group i r : forall k st e,
  on_every_path i r = true ->
  m r k st = Some e ->
  exists st', k st' = Some e /\ lookup i (caps st') <> None.
Proof.
  induction r as [ | c | | p | r1 IH1 r2 IH2 | r1 IH1 r2 IH2 | r1 IH1
                 | r1 IH1 | n r1 IH1 | j r1 IH1 | | ];
    intros k st e Hp H; simpl in Hp; try discriminate.
  - cbn [m] in H. apply orb_true_iff in Hp as [Hp | Hp].
    + apply (IH1 _ _ _ Hp) in H as (st1 & H & D).
      apply m_via_cont in H as (st2 & H & K). destruct K as [K _]. eauto.
    + apply m_via_cont in H as (st1 & H & _). eauto.
  - cbn [m] in H. apply andb_true_iff in Hp as [Hp1 Hp2].
    apply or_else_some in H as [H | [_ H]]; eauto.
  - destruct n as [|n]; [discriminate|]. cbn [m rep] in H.
    apply (IH1 _ _ _ Hp) in H as (st1 & H & D).
    apply (rep_via_cont _ (m_via_cont r1)) in H as (st2 & H & K).
    destruct K as [K _]. eauto.
  - cbn [m] in H. apply orb_true_iff in Hp as [Hp | Hp].
    + apply Nat.eqb_eq in Hp; subst j.
      apply m_via_cont in H as (st1 & H & _).
      eexists; split; [exact H | apply set_cap_defined].
    + apply (IH1 _ _ _ Hp) in H as (st1 & H & D).
      eexists; split; [exact H | apply (keeps_set_cap j st st1), D].
Qed.

Lemma search_some r : forall s i mr,
  search r i s = Some mr ->
  exists j t, m r Some (MState j t []) = Some (last mr) /\ index mr = j.
Proof.
  induction s as [|c s IH]; intros i mr H; simpl in H.
  - destruct (m r Some (MState i EmptyString [])) eqn:E; [|discriminate].
    inversion H; subst; simpl. eauto.
  - destruct (m r Some (MState i (String c s) [])) eqn:E.
    + inversion H; subst; simpl. eauto.
    + eauto.
Qed.

(** A group on every path of the pattern is defined in every match:
    reading [match[i]] never gives [undefined]. *)
Lemma capture_defined r i s mr :
  on_every_path i r = true ->
  exec r s = Some mr ->
  exists v, capture mr i = Some v.
Proof.
  intros Hp H. apply search_some in H as (j & t & H & _).
  apply (m_sets_group _ _ _ _ _ Hp) in H as (st' & H & D).
  inversion H; subst. unfold capture.
  destruct (lookup i (caps (last mr))) as [v|]; [eauto | contradiction].
Qed.

Lemma has_app p a b : has p (a ++ b) = has p a || has p b.
Proof.
  induction a as [|x a IH]; simpl; [reflexivity|].
  rewrite IH, orb_assoc. reflexivity.
Qed.

Lemma has_ahead p st st' : keeps st st' -> has p (rest st) = false -> has p (rest st') = false.
Proof.
  intros [_ (pre & E & _)] H. rewrite E, has_app in H.
  apply orb_false_iff in H as [_ H]. exact H.
Qed.

(** A pattern that needs a character of a kind finds no match in an
    input without any. *)
Lemma m_needs p r : forall k st,
  needs p r = true -> has p (rest st) = false -> m r k st = None.
Proof.
  induction r as [ | c | | q | r1 IH1 r2 IH2 | r1 IH1 r2 IH2 | r1 IH1
                 | r1 IH1 | n r1 IH1 | j r1 IH1 | | ];
    intros k st Hn Hs; simpl in Hn; try discriminate.
  - simpl. unfold one. destruct (rest st) as [|a t]; [reflexivity|].
    destruct (Ascii.eqb_spec c a) as [->|]; [|reflexivity].
    simpl in Hs. rewrite Hn in Hs. discriminate.
  - simpl. apply orb_true_iff in Hn as [Hn | Hn]; [apply IH1; assumption|].
    destruct (m r1 (m r2 k) st) as [e|] eqn:E; [|reflexivity].
    apply m_via_cont in E as (st1 & E & K).
    rewrite (IH2 k st1 Hn (has_ahead _ _ _ K Hs)) in E. discriminate.
  - simpl. apply andb_true_iff in Hn as [Hn1 Hn2].
    rewrite IH1, IH2 by assumption. reflexivity.
  - destruct n as [|n]; [discriminate|]. simpl. apply IH1; assumption.
  - simpl. apply IH1; assumption.
Qed.

Lemma search_needs p r : forall s i,
  needs p r = true -> has p s = false -> search r i s = None.
Proof.
  induction s as [|c s IH]; intros i Hn Hs; simpl.
  - rewrite (m_needs p) by assumption. reflexivity.
  - rewrite (m_needs p) by assumption.
    simpl in Hs. apply orb_false_iff in Hs as [_ Hs]. apply IH; assumption.
Qed.

(** Replacing the matches of such a pattern leaves such an input as it is. *)
Lemma replace_all_needs p r by_ s :
  needs p r = true -> has p s = false -> replace_all r by_ s = s.
Proof.
  intros Hn. unfold replace_all. generalize (S (String.length s)) 0.
  intros fuel; revert s. induction fuel as [|fuel IH]; intros s i Hs; simpl.
  - reflexivity.
  - rewrite (m_needs p) by assumption.
    destruct s as [|c s]; [reflexivity|].
    simpl in Hs. apply orb_false_iff in Hs as [_ Hs].
    rewrite IH by assumption. reflexivity.
Qed.

(** Nor does the fuel of a global replacement: every step passes at least
    one code unit. *)
Lemma replace_from_fuel r by_ : forall fuel fuel' i s,
  String.length s < fuel -> String.length s < fuel' ->
  replace_from fuel r by_ i s = replace_from fuel' r by_ i s.
Proof.
  induction fuel as [|fuel IH]; intros fuel' i s L L'; [lia|].
  destruct fuel' as [|fuel']; [lia|]. simpl.
  destruct (m r Some (MState i s [])) as [e|] eqn:E.
  - apply m_via_cont in E as (st' & E & K). inversion E; subst st'.
    destruct (keeps_length _ _ K) as [Hle Hlt]. simpl in Hle, Hlt.
    destruct (Nat.eqb_spec (idx e) i) as [|N].
    + destruct s as [|c t]; [reflexivity|]. simpl in L, L'.
      rewrite (IH fuel' (S i) t) by lia. reflexivity.
    + specialize (Hlt N). rewrite (IH fuel' (idx e) (rest e)) by lia. reflexivity.
  - destruct s as [|c t]; [reflexivity|]. simpl in L, L'.
    rewrite (IH fuel' (S i) t) by lia. reflexivity.
Qed.

End RegExpFacts.

(** ** Sorting by a numeric key *)

Module JsArrayFacts.
Import JsArray.

Section ByKey.
Context {A : Type}.
Variable key : A -> Q.

Let comparefn (a b : A) : Q := (key a - key b)%Q.
Let le (a b : A) : Prop := (key a <= key b)%Q.

Lemma comparefn_le a b : Qle_bool (comparefn a b) 0 = true <-> le a b.
Proof.
  unfold comparefn, le. rewrite Qle_bool_iff. split; intros H; lra.
Qed.

Lemma insert_perm x l : Permutation (insert comparefn x l) (x :: l).
Proof.
  induction l as [|y l IH]; simpl; [reflexivity|].
  destruct (Qle_bool (comparefn x y) 0); [reflexivity|].
  rewrite IH. apply perm_swap.
Qed.

Lemma sort_perm l : Permutation (sort comparefn l) l.
Proof.
  induction l as [|x l IH]; simpl; [reflexivity|].
  rewrite insert_perm. apply perm_skip, IH.
Qed.

Lemma insert_sorted x l :
  StronglySorted le l -> StronglySorted le (insert comparefn x l).
Proof.
  induction 1 as [|y l Hs IH Hy]; simpl.
  - repeat constructor.
  - destruct (Qle_bool (comparefn x y) 0) eqn:E.
    + apply comparefn_le in E. constructor; [constructor; assumption|].
      constructor; [exact E|].
      eapply Forall_impl; [|exact Hy].
      unfold le in *; intros b Hb; lra.
    + constructor; [exact IH|].
      eapply Permutation_Forall.
      * symmetry; apply insert_perm.
      * constructor; [|exact Hy].
        assert (N : ~ le x y) by (rewrite <- comparefn_le, E; discriminate).
        unfold le in *; lra.
Qed.

Lemma sort_sorted l : StronglySorted le (sort comparefn l).
Proof.
  induction l as [|x l IH]; simpl; [constructor | apply insert_sorted, IH].
Qed.

(** The elements that share a key keep the order they had. *)
Lemma insert_stable t x l :
  filter (fun a => Qeq_bool (key a) t) (insert comparefn x l)
  = filter (fun a => Qeq_bool (key a) t) (x :: l).
Proof.
  induction l as [|y l IH]; [reflexivity|].
  simpl insert.
  destruct (Qle_bool (comparefn x y) 0) eqn:E; [reflexivity|].
  assert (N : ~ le x y) by (rewrite <- comparefn_le, E; discriminate).
  change (filter ?f (y :: ?l')) with (if f y then y :: filter f l' else filter f l').
  rewrite IH. simpl.
  destruct (Qeq_bool (key x) t) eqn:Ex; [|reflexivity].
  destruct (Qeq_bool (key y) t) eqn:Ey; [|reflexivity].
  apply Qeq_bool_iff in Ex, Ey. unfold le in N. exfalso; lra.
Qed.

Lemma sort_stable t l :
  filter (fun a => Qeq_bool (key a) t) (sort comparefn l)
  = filter (fun a => Qeq_bool (key a) t) l.
Proof.
  induction l as [|x l IH]; [reflexivity|].
  simpl sort. rewrite insert_stable. simpl. rewrite IH. reflexivity.
Qed.
End ByKey.

End JsArrayFacts.

(** ** The id resolvers *)

Lemma group7_on_every_path : RegExp.on_every_path 7 VideoId.regExp = true.
Proof. reflexivity. Qed.

(** Reading [match[7]] after a match of the pattern gives a string. *)
Lemma regExp_group7 url mt :
  RegExp.exec VideoId.regExp url = Some mt -> exists id, RegExp.capture mt 7 = Some id.
Proof. apply RegExpFacts.capture_defined, group7_on_every_path. Qed.

(** So do the reads of [languageMatch[1]] in [generatePDF] and of
    [videoIdMatch[1]] on the page. *)
Lemma fenceLanguage_group1 codeSnippet languageMatch :
  RegExp.exec PDF.fenceLanguage codeSnippet = Some languageMatch ->
  exists language, RegExp.capture languageMatch 1 = Some language.
Proof. apply RegExpFacts.capture_defined. reflexivity. Qed.

Lemma videoIdPattern_group1 url videoIdMatch :
  RegExp.exec Index.videoIdPattern url = Some videoIdMatch ->
  exists id, RegExp.capture videoIdMatch 1 = Some id.
Proof. apply RegExpFacts.capture_defined. reflexivity. Qed.

Lemma length_truthy s : String.length s = 11 -> Js.truthy s = true.
Proof. destruct s; [discriminate | reflexivity]. Qed.

Lemma extractVideoID_length url id :
  VideoId.extractVideoID url = Some id -> String.length id = 11.
Proof.
  unfold VideoId.extractVideoID.
  destruct (negb (Js.truthy url)); [discriminate|].
  destruct (RegExp.exec VideoId.regExp url) as [mt|]; [|discriminate].
  destruct (RegExp.capture mt 7) as [g|]; [|discriminate].
  destruct (Nat.eqb_spec (String.length g) 11); [|discriminate].
  intros H; inversion H; subst; assumption.
Qed.

Lemma extractYouTubeVideoId_length url id :
  Supabase.extractYouTubeVideoId url = Some id -> String.length id = 11.
Proof.
  unfold Supabase.extractYouTubeVideoId.
  destruct (negb (Js.truthy url)); [discriminate|].
  destruct (Nat.eqb_spec (String.length url) 11) as [E|_]; simpl.
  - destruct (RegExp.test Supabase.bareId url).
    + intros H; inversion H; subst; exact E.
    + destruct (RegExp.exec VideoId.regExp url) as [mt|]; [|discriminate].
      destruct (RegExp.capture mt 7) as [g|]; [|discriminate].
      destruct (Js.truthy g); simpl; [|discriminate].
      destruct (Nat.eqb_spec (String.length g) 11); [|discriminate].
      intros H; inversion H; subst; assumption.
  - destruct (RegExp.exec VideoId.regExp url) as [mt|]; [|discriminate].
    destruct (RegExp.capture mt 7) as [g|]; [|discriminate].
    destruct (Js.truthy g); simpl; [|discriminate].
    destruct (Nat.eqb_spec (String.length g) 11); [|discriminate].
    intros H; inversion H; subst; assumption.
Qed.

(** C10: whatever the input, [extractVideoID] and [extractYouTubeVideoId]
    return null or a string of exactly 11 characters, and both return null
    on the empty string. *)
Theorem resolvers_null_or_11 (url : string) :
  (VideoId.extractVideoID url = None
   \/ exists id, VideoId.extractVideoID url = Some id /\ String.length id = 11)
  /\ (Supabase.extractYouTubeVideoId url = None
      \/ exists id, Supabase.extractYouTubeVideoId url = Some id
                    /\ String.length id = 11)
  /\ VideoId.extractVideoID EmptyString = None
  /\ Supabase.extractYouTubeVideoId EmptyString = None.
Proof.
  repeat split.
  - destruct (VideoId.extractVideoID url) as [id|] eqn:E; [right | left; reflexivity].
    exists id; split; [reflexivity | apply (extractVideoID_length url), E].
  - destruct (Supabase.extractYouTubeVideoId url) as [id|] eqn:E;
      [right | left; reflexivity].
    exists id; split; [reflexivity | apply (extractYouTubeVideoId_length url), E].
Qed.

(** C4: [getEmbedUrl] is the embed prefix followed by the id that
    [extractVideoID] resolves, and the empty string when it resolves none;
    for [https://youtu.be/dQw4w9WgXcQ] the id is [dQw4w9WgXcQ] and the embed
    URL [https://www.youtube.com/embed/dQw4w9WgXcQ]. *)
Theorem getEmbedUrl_composes (url : string) :
  VideoId.getEmbedUrl url
  = match VideoId.extractVideoID url with
    | Some id => "https://www.youtube.com/embed/" ++ id
    | None => EmptyString
    end
  /\ VideoId.extractVideoID "https://youtu.be/dQw4w9WgXcQ" = Some "dQw4w9WgXcQ"
  /\ VideoId.getEmbedUrl "https://youtu.be/dQw4w9WgXcQ"
     = "https://www.youtube.com/embed/dQw4w9WgXcQ".
Proof.
  split; [|split; vm_compute; reflexivity].
  unfold VideoId.getEmbedUrl.
  destruct (VideoId.extractVideoID url) as [id|] eqn:E; [|reflexivity].
  rewrite (length_truthy id (extractVideoID_length url id E)). reflexivity.
Qed.

Lemma id_char_no_delimiter c :
  Supabase.id_char c = true -> Js.one_of "/?" c = false.
Proof.
  destruct c as [[] [] [] [] [] [] [] []]; vm_compute; congruence.
Qed.

Lemma bare_id_no_delimiter s :
  (forall c, In c (list_ascii_of_string s) -> Supabase.id_char c = true) ->
  RegExp.has (Js.one_of "/?") s = false.
Proof.
  induction s as [|a s IH]; intros H; simpl; [reflexivity|].
  rewrite (id_char_no_delimiter a) by (apply H; left; reflexivity).
  apply IH. intros c Hc. apply H. right. exact Hc.
Qed.

Lemma regExp_needs_delimiter : RegExp.needs (Js.one_of "/?") VideoId.regExp = true.
Proof. reflexivity. Qed.

(** An input without [/] and [?] has no match, so [extractVideoID]
    returns null on it. *)
Lemma extractVideoID_no_delimiter s :
  RegExp.has (Js.one_of "/?") s = false -> VideoId.extractVideoID s = None.
Proof.
  intros H. unfold VideoId.extractVideoID, RegExp.exec.
  rewrite (RegExpFacts.search_needs _ _ _ _ regExp_needs_delimiter H).
  destruct (negb (Js.truthy s)); reflexivity.
Qed.

Lemma bareId_test s :
  String.length s = 11 ->
  (forall c, In c (list_ascii_of_string s) -> Supabase.id_char c = true) ->
  RegExp.test Supabase.bareId s = true.
Proof.
  intros L H.
  do 11 (destruct s as [|? s]; [discriminate L|]).
  destruct s; [|discriminate L].
  unfold RegExp.test, RegExp.exec, Supabase.bareId. simpl. unfold RegExp.one. simpl.
  repeat (rewrite H by (simpl; tauto); simpl).
  reflexivity.
Qed.

(** C3: on a bare 11-character id over [[A-Za-z0-9_-]],
    [extractYouTubeVideoId] returns the id unchanged, and [extractVideoID],
    which has no branch for a bare id, returns null. *)
Theorem bare_id_resolution (s : string) :
  String.length s = 11 ->
  (forall c, In c (list_ascii_of_string s) -> Supabase.id_char c = true) ->
  Supabase.extractYouTubeVideoId s = Some s /\ VideoId.extractVideoID s = None.
Proof.
  intros L H. split.
  - unfold Supabase.extractYouTubeVideoId.
    rewrite (length_truthy s L), L, (bareId_test s L H). reflexivity.
  - apply extractVideoID_no_delimiter, bare_id_no_delimiter, H.
Qed.

Lemma bare_id_resolution_witness :
  Supabase.extractYouTubeVideoId "dQw4w9WgXcQ" = Some "dQw4w9WgXcQ"
  /\ VideoId.extractVideoID "dQw4w9WgXcQ" = None.
Proof.
  apply (bare_id_resolution "dQw4w9WgXcQ").
  - reflexivity.
  - intros c Hc. simpl in Hc.
    repeat (destruct Hc as [<- | Hc]; [reflexivity|]). contradiction.
Defined.

(** C3, as the claim has it, fails for the resolver of the analysis
    service: the sample is a bare id, eleven characters of the class, and
    [extractVideoID] returns null on it, so that [getEmbedUrl], which
    composes on it, returns the empty string. *)
Lemma bare_id_not_resolved :
  String.length "dQw4w9WgXcQ" = 11
  /\ RegExp.test Supabase.bareId "dQw4w9WgXcQ" = true
  /\ VideoId.extractVideoID "dQw4w9WgXcQ" = None
  /\ VideoId.extractVideoID "dQw4w9WgXcQ" <> Some "dQw4w9WgXcQ"
  /\ VideoId.getEmbedUrl "dQw4w9WgXcQ" = EmptyString.
Proof.
  split; [reflexivity|]. split; [reflexivity|]. split; [reflexivity|].
  split; [vm_compute; discriminate | reflexivity].
Qed.

(** ** The summary *)

Section Summary.
Import VideoAnalysis.
Context {raw : Type}.
Variable sv : services raw.
Variable videoId : string.

#[local] Abbreviation videoUrl := (watchUrl videoId).
#[local] Abbreviation finalLocals := (captionLocals sv videoId).

(** [generateSummary] returns whenever the details of the video are
    fetched, whatever happens to the captions. *)
Lemma generateSummary_returns videoDetails :
  getVideoDetails sv videoUrl = Ok videoDetails ->
  generateSummary sv videoId
  = Ok (SummaryContent.Make
          (or_default (transcriptSummary finalLocals) (fallbackText videoDetails))
          (codeSnippets finalLocals)
          [ videoUrl;
            "https://www.youtube.com/channel/" ++ VideoDetails.channel videoDetails ]
          [ VideoDetails.thumbnail videoDetails ]
          (timestamps finalLocals)
          (keyPoints finalLocals)
          (transcriptSummary finalLocals)).
Proof.
  intros H. unfold generateSummary. rewrite H. reflexivity.
Qed.

Lemma generateSummary_details s :
  generateSummary sv videoId = Ok s ->
  exists videoDetails, getVideoDetails sv videoUrl = Ok videoDetails.
Proof.
  unfold generateSummary.
  destruct (getVideoDetails sv videoUrl) as [vd|e]; [eauto | discriminate].
Qed.

Lemma locals_processed apiKey captions processedContent :
  present (VITE_YOUTUBE_API_KEY sv) = Some apiKey ->
  fetchCaptions sv videoId apiKey = Ok captions ->
  processTranscript sv captions = Ok processedContent ->
  finalLocals
  = Locals (Some (Captions.summary processedContent))
           (JsArray.sort by_timestamp
              (Captions.keyPoints processedContent
               ++ Captions.codeBlocks processedContent))
           (Captions.keyPoints processedContent)
           (map TimeStampedContent.text (Captions.codeBlocks processedContent)).
Proof.
  intros Hk Hf Hp. unfold captionLocals, processCaptions, Block.try_.
  rewrite Hk. unfold Block.bind, Block.await, Block.assign.
  rewrite Hf, Hp. reflexivity.
Qed.

Lemma locals_failed apiKey e :
  present (VITE_YOUTUBE_API_KEY sv) = Some apiKey ->
  fetchCaptions sv videoId apiKey = Throw e
  \/ (exists captions, fetchCaptions sv videoId apiKey = Ok captions
                       /\ processTranscript sv captions = Throw e) ->
  finalLocals = initial.
Proof.
  intros Hk H. unfold captionLocals, processCaptions, Block.try_.
  rewrite Hk. unfold Block.bind, Block.await, Block.assign.
  destruct H as [Hf | (captions & Hf & Hp)].
  - rewrite Hf. reflexivity.
  - rewrite Hf, Hp. reflexivity.
Qed.

Lemma fallbackText_nonempty videoDetails : fallbackText videoDetails <> EmptyString.
Proof. unfold fallbackText. simpl. discriminate. Qed.

Lemma or_default_nonempty v d : d <> EmptyString -> or_default v d <> EmptyString.
Proof.
  intros Hd. unfold or_default. destruct v as [[|c s]|]; simpl; auto. discriminate.
Qed.

(** C1: when the captions are processed, [timestamps] is the stable sort
    by ascending timestamp of [keyPoints] followed by [codeBlocks]: it is
    non-decreasing in the timestamp, it has the same elements with the
    same multiplicities, the items of equal timestamp keep the order they
    had, and every key point is in it. *)
Theorem timestamps_stable_sort videoDetails apiKey captions processedContent :
  getVideoDetails sv videoUrl = Ok videoDetails ->
  present (VITE_YOUTUBE_API_KEY sv) = Some apiKey ->
  fetchCaptions sv videoId apiKey = Ok captions ->
  processTranscript sv captions = Ok processedContent ->
  exists s,
    generateSummary sv videoId = Ok s
    /\ SummaryContent.keyPoints s = Captions.keyPoints processedContent
    /\ StronglySorted
         (fun a b => (TimeStampedContent.timestamp a
                      <= TimeStampedContent.timestamp b)%Q)
         (SummaryContent.timestamps s)
    /\ Permutation (SummaryContent.timestamps s)
                   (Captions.keyPoints processedContent
                    ++ Captions.codeBlocks processedContent)
    /\ (forall t,
           filter (fun a => Qeq_bool (TimeStampedContent.timestamp a) t)
                  (SummaryContent.timestamps s)
           = filter (fun a => Qeq_bool (TimeStampedContent.timestamp a) t)
                    (Captions.keyPoints processedContent
                     ++ Captions.codeBlocks processedContent))
    /\ (forall k, In k (SummaryContent.keyPoints s) ->
                  In k (SummaryContent.timestamps s)).
Proof.
  intros Hd Hk Hf Hp.
  eexists; split; [apply generateSummary_returns, Hd|].
  rewrite (locals_processed _ _ _ Hk Hf Hp). simpl.
  split; [reflexivity|].
  split; [apply (JsArrayFacts.sort_sorted TimeStampedContent.timestamp)|].
  split; [apply (JsArrayFacts.sort_perm TimeStampedContent.timestamp)|].
  split; [intros t; apply (JsArrayFacts.sort_stable TimeStampedContent.timestamp)|].
  intros k Hin.
  apply (Permutation_in k
           (Permutation_sym
              (JsArrayFacts.sort_perm TimeStampedContent.timestamp _))).
  apply in_or_app; left; exact Hin.
Qed.

(** C2, as the code has it: [code] has the length of [codeBlocks] and each
    [code[i]] is [codeBlocks[i].text] as it stands; it is the text with
    the fences stripped, as [generatePDF] strips them, for every block
    whose text has no backquote. *)
Theorem code_is_block_text videoDetails apiKey captions processedContent :
  getVideoDetails sv videoUrl = Ok videoDetails ->
  present (VITE_YOUTUBE_API_KEY sv) = Some apiKey ->
  fetchCaptions sv videoId apiKey = Ok captions ->
  processTranscript sv captions = Ok processedContent ->
  exists s,
    generateSummary sv videoId = Ok s
    /\ List.length (SummaryContent.code s)
       = List.length (Captions.codeBlocks processedContent)
    /\ (forall i,
           nth_error (SummaryContent.code s) i
           = option_map TimeStampedContent.text
               (nth_error (Captions.codeBlocks processedContent) i))
    /\ (forall i block,
           nth_error (Captions.codeBlocks processedContent) i = Some block ->
           RegExp.has (Ascii.eqb "`") (TimeStampedContent.text block) = false ->
           nth_error (SummaryContent.code s) i
           = Some (PDF.cleanCode (TimeStampedContent.text block))).
Proof.
  intros Hd Hk Hf Hp.
  eexists; split; [apply generateSummary_returns, Hd|].
  rewrite (locals_processed _ _ _ Hk Hf Hp). simpl.
  split; [apply length_map|].
  split; [intros i; apply nth_error_map|].
  intros i block Hb Hq. rewrite nth_error_map, Hb. simpl.
  unfold PDF.cleanCode.
  rewrite (RegExpFacts.replace_all_needs (Ascii.eqb "`")); auto.
Qed.


(** C6: when fetching or processing the captions throws,
    [generateSummary] still returns a summary: [code], [timestamps] and
    [keyPoints] are empty and the text is the template, which is not
    empty. *)
Theorem captions_failure_recovered videoDetails apiKey e :
  getVideoDetails sv videoUrl = Ok videoDetails ->
  present (VITE_YOUTUBE_API_KEY sv) = Some apiKey ->
  fetchCaptions sv videoId apiKey = Throw e
  \/ (exists captions, fetchCaptions sv videoId apiKey = Ok captions
                       /\ processTranscript sv captions = Throw e) ->
  exists s,
    generateSummary sv videoId = Ok s
    /\ SummaryContent.code s = []
    /\ SummaryContent.timestamps s = []
    /\ SummaryContent.keyPoints s = []
    /\ SummaryContent.text s = fallbackText videoDetails
    /\ SummaryContent.text s <> EmptyString.
Proof.
  intros Hd Hk H.
  eexists; split; [apply generateSummary_returns, Hd|].
  rewrite (locals_failed _ _ Hk H). simpl.
  repeat split. apply fallbackText_nonempty.
Qed.

End Summary.

(** The theorems above, on the sample services. *)

Lemma timestamps_stable_sort_witness :
  exists s,
    VideoAnalysis.generateSummary
      (Demo.services (Ok tt) (Ok Demo.processed)) Demo.videoId = Ok s
    /\ SummaryContent.keyPoints s = Captions.keyPoints Demo.processed
    /\ StronglySorted
         (fun a b => (TimeStampedContent.timestamp a
                      <= TimeStampedContent.timestamp b)%Q)
         (SummaryContent.timestamps s)
    /\ Permutation (SummaryContent.timestamps s)
                   (Captions.keyPoints Demo.processed
                    ++ Captions.codeBlocks Demo.processed)
    /\ (forall t,
           filter (fun a => Qeq_bool (TimeStampedContent.timestamp a) t)
                  (SummaryContent.timestamps s)
           = filter (fun a => Qeq_bool (TimeStampedContent.timestamp a) t)
                    (Captions.keyPoints Demo.processed
                     ++ Captions.codeBlocks Demo.processed))
    /\ (forall k, In k (SummaryContent.keyPoints s) ->
                  In k (SummaryContent.timestamps s)).
Proof.
  apply (timestamps_stable_sort
           (Demo.services (Ok tt) (Ok Demo.processed)) Demo.videoId
           (VideoDetails.Make
              "Never Gonna Give You Up" "Description not available"
              "https://img.youtube.com/vi/dQw4w9WgXcQ/maxresdefault.jpg"
              "Rick Astley" "Duration not available" None None)
           "key" tt Demo.processed);
    reflexivity.
Defined.

(** The timeline of the sample: the two items at 5 and the two items at 12
    stand in the order in which they were produced, key point first. *)
Example timestamps_of_sample :
  map (fun a => (TimeStampedContent.timestamp a, TimeStampedContent.text a))
      (JsArray.sort VideoAnalysis.by_timestamp
         (Demo.keyPoints ++ Demo.codeBlocks))
  = [ (5%Q, "intro"); (5%Q, "x = 2"); (12%Q, "verse"); (12%Q, Demo.fenced);
      (30%Q, "chorus") ].
Proof. reflexivity. Qed.

(** C2, as the claim has it, fails on the sample: the first code block is
    fenced, [code[0]] is its text with the fences, and stripping the fences
    gives another string. *)
Lemma code_keeps_fences :
  exists s,
    VideoAnalysis.generateSummary
      (Demo.services (Ok tt) (Ok Demo.processed)) Demo.videoId = Ok s
    /\ nth_error (Captions.codeBlocks Demo.processed) 0
       = Some (Demo.item 12 Demo.fenced TimeStampedContent.code_kind)
    /\ nth_error (SummaryContent.code s) 0 = Some Demo.fenced
    /\ PDF.cleanCode Demo.fenced = "let x = 1;" ++ Js.NL
    /\ nth_error (SummaryContent.code s) 0
       <> Some (PDF.cleanCode Demo.fenced).
Proof.
  eexists. split; [vm_compute; reflexivity|].
  split; [reflexivity|]. split; [reflexivity|]. split; [reflexivity|].
  vm_compute. discriminate.
Qed.

Lemma code_is_block_text_witness :
  exists s,
    VideoAnalysis.generateSummary
      (Demo.services (Ok tt) (Ok Demo.processed)) Demo.videoId = Ok s
    /\ List.length (SummaryContent.code s)
       = List.length (Captions.codeBlocks Demo.processed)
    /\ (forall i,
           nth_error (SummaryContent.code s) i
           = option_map TimeStampedContent.text
               (nth_error (Captions.codeBlocks Demo.processed) i))
    /\ (forall i block,
           nth_error (Captions.codeBlocks Demo.processed) i = Some block ->
           RegExp.has (Ascii.eqb "`") (TimeStampedContent.text block) = false ->
           nth_error (SummaryContent.code s) i
           = Some (PDF.cleanCode (TimeStampedContent.text block))).
Proof.
  apply (code_is_block_text
           (Demo.services (Ok tt) (Ok Demo.processed)) Demo.videoId
           (VideoDetails.Make
              "Never Gonna Give You Up" "Description not available"
              "https://img.youtube.com/vi/dQw4w9WgXcQ/maxresdefault.jpg"
              "Rick Astley" "Duration not available" None None)
           "key" tt Demo.processed);
    reflexivity.
Defined.


Lemma captions_failure_recovered_witness :
  exists s,
    VideoAnalysis.generateSummary
      (Demo.services (Throw (Error "quota exceeded")) (Ok Demo.processed))
      Demo.videoId = Ok s
    /\ SummaryContent.code s = []
    /\ SummaryContent.timestamps s = []
    /\ SummaryContent.keyPoints s = []
    /\ SummaryContent.text s
       = VideoAnalysis.fallbackText
           (VideoDetails.Make
              "Never Gonna Give You Up" "Description not available"
              "https://img.youtube.com/vi/dQw4w9WgXcQ/maxresdefault.jpg"
              "Rick Astley" "Duration not available" None None)
    /\ SummaryContent.text s <> EmptyString.
Proof.
  apply (captions_failure_recovered
           (Demo.services (Throw (Error "quota exceeded")) (Ok Demo.processed))
           Demo.videoId _ "key" (Error "quota exceeded")).
  - reflexivity.
  - reflexivity.
  - left. reflexivity.
Defined.

(** The transcript summary is the text when the captions are processed. *)
Example text_of_sample :
  exists s,
    VideoAnalysis.generateSummary
      (Demo.services (Ok tt) (Ok Demo.processed)) Demo.videoId = Ok s
    /\ SummaryContent.text s = "A summary of the transcript.".
Proof. eexists. split; [vm_compute; reflexivity | reflexivity]. Qed.

(** ** The image references of the page *)

Lemma generateSummary_thumbnail {raw : Type} (sv : VideoAnalysis.services raw)
      videoId s :
  VideoAnalysis.generateSummary sv videoId = Ok s ->
  exists videoDetails,
    VideoAnalysis.getVideoDetails sv (VideoAnalysis.watchUrl videoId)
    = Ok videoDetails
    /\ SummaryContent.imageReferences s = [VideoDetails.thumbnail videoDetails].
Proof.
  intros H. destruct (generateSummary_details sv videoId s H) as [vd Hd].
  exists vd. split; [exact Hd|].
  rewrite (generateSummary_returns sv videoId vd Hd) in H.
  inversion H; subst. reflexivity.
Qed.

Lemma combinedSummary_images summary supabaseImages :
  SummaryContent.imageReferences (Index.combinedSummary summary supabaseImages)
  = (SummaryContent.imageReferences summary ++ supabaseImages)%list.
Proof. reflexivity. Qed.

(** C9: the image references of the summary that [handleSubmit] puts on
    the page are the thumbnail of the video followed by the references read
    from the table, in their order; and combining a summary whose image
    references are [thumb.jpg] with the extras [video-images/a.png] and
    [https://youtu.be/xyz] gives the three of them in that order. *)
Theorem thumbnail_first {raw : Type} (sv : VideoAnalysis.services raw)
        (supabase : Supabase.client) (url : string) (s : SummaryContent.t) :
  SummaryData.summary (Index.summaryData (Index.handleSubmit sv supabase url))
  = Some s ->
  (exists videoDetails,
      VideoAnalysis.getVideoDetails sv
        (VideoAnalysis.watchUrl (Index.extractVideoId url)) = Ok videoDetails
      /\ SummaryContent.imageReferences s
         = VideoDetails.thumbnail videoDetails
           :: Supabase.getImageReferences supabase (Index.extractVideoId url))
  /\ (forall summary,
         SummaryContent.imageReferences summary = ["thumb.jpg"] ->
         SummaryContent.imageReferences
           (Index.combinedSummary summary
              ["video-images/a.png"; "https://youtu.be/xyz"])
         = ["thumb.jpg"; "video-images/a.png"; "https://youtu.be/xyz"]).
Proof.
  intros H. split.
  - unfold Index.handleSubmit, Index.summaryData, Index.analyse,
      ResultMonad.bind in H.
    destruct (VideoAnalysis.getVideoDetails sv url) as [details|[msg]];
      [|discriminate H].
    destruct (negb (Js.truthy (Index.extractVideoId url))); [discriminate H|].
    destruct (VideoAnalysis.generateSummary sv (Index.extractVideoId url))
      as [summary|[msg]] eqn:E; [|discriminate H].
    injection H as H; subst s.
    destruct (generateSummary_thumbnail sv _ _ E) as (vd & Hd & Hi).
    exists vd. split; [exact Hd|].
    rewrite combinedSummary_images, Hi. reflexivity.
  - intros summary Hs. rewrite combinedSummary_images, Hs. reflexivity.
Qed.

Lemma thumbnail_first_witness :
  (exists videoDetails,
      VideoAnalysis.getVideoDetails
        (Demo.services (Ok tt) (Ok Demo.processed))
        (VideoAnalysis.watchUrl
           (Index.extractVideoId "https://youtu.be/dQw4w9WgXcQ"))
      = Ok videoDetails
      /\ [ "https://img.youtube.com/vi/dQw4w9WgXcQ/maxresdefault.jpg";
           "video-images/a.png"; "https://youtu.be/xyz" ]
         = VideoDetails.thumbnail videoDetails
           :: Supabase.getImageReferences Demo.supabase
                (Index.extractVideoId "https://youtu.be/dQw4w9WgXcQ"))
  /\ (forall summary,
         SummaryContent.imageReferences summary = ["thumb.jpg"] ->
         SummaryContent.imageReferences
           (Index.combinedSummary summary
              ["video-images/a.png"; "https://youtu.be/xyz"])
         = ["thumb.jpg"; "video-images/a.png"; "https://youtu.be/xyz"]).
Proof.
  apply (thumbnail_first
           (Demo.services (Ok tt) (Ok Demo.processed)) Demo.supabase
           "https://youtu.be/dQw4w9WgXcQ"
           (SummaryContent.Make
              "A summary of the transcript."
              (map TimeStampedContent.text Demo.codeBlocks)
              [ "https://www.youtube.com/watch?v=dQw4w9WgXcQ";
                "https://www.youtube.com/channel/Rick Astley" ]
              [ "https://img.youtube.com/vi/dQw4w9WgXcQ/maxresdefault.jpg";
                "video-images/a.png"; "https://youtu.be/xyz" ]
              (JsArray.sort VideoAnalysis.by_timestamp
                 (Demo.keyPoints ++ Demo.codeBlocks))
              Demo.keyPoints
              (Some "A summary of the transcript."))).
  vm_compute. reflexivity.
Defined.

(** ** The PDF export *)

Module PDFFacts.
Import JsPDF PDF.

Lemma bind_ok {A B : Type} (c : PDF.t A) (f : A -> PDF.t B) st r :
  PDF.bind c f st = Ok r -> exists a st', c st = Ok (a, st') /\ f a st' = Ok r.
Proof.
  unfold PDF.bind. destruct (c st) as [[a st']|e]; [eauto | discriminate].
Qed.

Lemma invoke_ok lib c st u st' :
  invoke lib c st = Ok (u, st') ->
  doc st' = (doc st ++ [c])%list /\ yPosition st' = yPosition st.
Proof.
  unfold invoke. destruct (fault lib (doc st) c); [discriminate|].
  intros H; inversion H; subst; simpl. auto.
Qed.

(** A blob is the document after the call of [output]. *)
Lemma render_ends_with_output lib videoDetails summary st0 pdfBlob st :
  render lib videoDetails summary st0 = Ok (pdfBlob, st) ->
  exists d, content pdfBlob = (d ++ [Output])%list.
Proof.
  unfold render. intros H.
  repeat (apply bind_ok in H as (? & ? & ? & H)).
  match goal with
  | Hi : invoke lib Output ?a = Ok (_, ?b) |- _ =>
      apply invoke_ok in Hi as [Hi _]; inversion H; subst; simpl;
      rewrite Hi; eauto
  end.
Qed.

End PDFFacts.

(** C7: [generatePDF] either returns the blob of a document that was
    rendered to its end, or throws the error [Failed to generate PDF], the
    same whatever was thrown inside; it has no other outcome. *)
Theorem generatePDF_blob_or_one_error (lib : JsPDF.library)
        (videoDetails : VideoDetails.t) (summary : SummaryContent.t) :
  match PDF.generatePDF lib videoDetails summary with
  | Ok pdfBlob =>
      (exists st,
          PDF.render lib videoDetails summary (PDF.State [] 20)
          = Ok (pdfBlob, st))
      /\ exists d, JsPDF.content pdfBlob = (d ++ [JsPDF.Output])%list
  | Throw e =>
      e = Error "Failed to generate PDF"
      /\ exists inner,
          PDF.render lib videoDetails summary (PDF.State [] 20) = Throw inner
  end.
Proof.
  unfold PDF.generatePDF.
  destruct (PDF.render lib videoDetails summary (PDF.State [] 20))
    as [[pdfBlob st]|inner] eqn:E; simpl.
  - split; [eauto | eapply PDFFacts.render_ends_with_output; exact E].
  - split; [reflexivity | eauto].
Qed.

(** A library that cannot add a page makes the export of a long summary
    fail with the one error. *)
Example generatePDF_fault :
  PDF.generatePDF Demo.onePage Demo.details
    (SummaryContent.Make (Demo.filler 4000) [] [] [] [] [] None)
  = Throw (Error "Failed to generate PDF").
Proof. vm_compute. reflexivity. Qed.

(** ** Page breaks *)

Section PageBreaks.
Import JsPDF PDF.
Variable lib : library.

Local Open Scope Q_scope.

(** [checkPageBreak] starts a page and puts the cursor at 20 when the
    needed space does not fit above the bottom margin. *)
Lemma checkPageBreak_breaks neededSpace st :
  pageSizeHeight lib - 20 < yPosition st + neededSpace ->
  fault lib (doc st) AddPage = None ->
  checkPageBreak lib neededSpace st
  = Ok (true, State (doc st ++ [AddPage])%list 20).
Proof.
  intros Hlt Hf. unfold checkPageBreak, PDF.bind, y, pageHeight.
  destruct (Qlt_le_dec (pageSizeHeight lib - 20) (yPosition st + neededSpace))
    as [_|Hle]; [|exfalso; lra].
  unfold invoke. simpl. rewrite Hf. reflexivity.
Qed.

(** It does nothing when the needed space fits. *)
Lemma checkPageBreak_stays neededSpace st :
  yPosition st + neededSpace <= pageSizeHeight lib - 20 ->
  checkPageBreak lib neededSpace st = Ok (false, st).
Proof.
  intros Hle. unfold checkPageBreak, PDF.bind, y, pageHeight.
  destruct (Qlt_le_dec (pageSizeHeight lib - 20) (yPosition st + neededSpace))
    as [Hlt|_]; [exfalso; lra | reflexivity].
Qed.

(** A paragraph that does not fit is written at the top of a new page: the
    space that is checked is the height by which the cursor moves. *)
Lemma writeParagraph_breaks paragraph splitText st :
  splitTextToSize lib (doc st) paragraph maxWidth = Ok splitText ->
  pageSizeHeight lib - 20 < yPosition st + (len splitText * 6 + lineHeight) ->
  fault lib (doc st) AddPage = None ->
  fault lib (doc st ++ [AddPage])%list (TextLines splitText 15 20) = None ->
  writeParagraph lib paragraph st
  = Ok (tt, State ((doc st ++ [AddPage]) ++ [TextLines splitText 15 20])%list
                  (20 + (len splitText * 6 + lineHeight))).
Proof.
  intros Hs Hlt Hf1 Hf2. unfold writeParagraph.
  unfold PDF.bind at 1. unfold split. rewrite Hs.
  unfold PDF.bind at 1. rewrite (checkPageBreak_breaks _ _ Hlt Hf1).
  unfold PDF.bind, lines_at_y, PDF.bind, y, invoke, advance. simpl.
  rewrite Hf2. reflexivity.
Qed.

(** So is an image entry. *)
Lemma writeImage_breaks image st :
  pageSizeHeight lib - 20 < yPosition st + lineHeight ->
  fault lib (doc st) AddPage = None ->
  fault lib (doc st ++ [AddPage])%list
        (Text (bullet ++ " " ++ image) 15 20) = None ->
  writeImage lib image st
  = Ok (tt, State ((doc st ++ [AddPage])
                   ++ [Text (bullet ++ " " ++ image) 15 20])%list
                  (20 + lineHeight)).
Proof.
  intros Hlt Hf1 Hf2. unfold writeImage.
  unfold PDF.bind at 1. rewrite (checkPageBreak_breaks _ _ Hlt Hf1).
  unfold PDF.bind, text_at_y, PDF.bind, y, invoke, advance. cbn [doc yPosition].
  rewrite Hf2. reflexivity.
Qed.

(** C8, where the code departs from it: the space checked before a link is
    [lineHeight * 1.5] whatever the number of its lines, and the lines are
    cut after the check.  A link whose lines do not fit above the bottom
    margin, while 15 units do, is written where the cursor stands: no page
    is added and the cursor ends below the limit. *)
Theorem writeLink_past_limit link splitLink st :
  splitTextToSize lib (doc st) link maxWidth = Ok splitLink ->
  fault lib (doc st) (TextLines splitLink 15 (yPosition st)) = None ->
  yPosition st + lineHeight * 1.5 <= pageSizeHeight lib - 20 ->
  pageSizeHeight lib - 20 < yPosition st + (len splitLink * 6 + 2) ->
  exists st',
    writeLink lib link st = Ok (tt, st')
    /\ doc st' = (doc st ++ [TextLines splitLink 15 (yPosition st)])%list
    /\ pages (doc st') = pages (doc st)
    /\ yPosition st' = yPosition st + (len splitLink * 6 + 2)
    /\ pageSizeHeight lib - 20 < yPosition st'.
Proof.
  intros Hs Hf Hfit Hover. unfold writeLink.
  unfold PDF.bind at 1. rewrite (checkPageBreak_stays _ _ Hfit).
  unfold PDF.bind at 1. unfold split. rewrite Hs.
  unfold PDF.bind, lines_at_y, PDF.bind, y, invoke, advance. rewrite Hf.
  eexists. split; [reflexivity|]. simpl.
  split; [reflexivity|].
  split; [|split; [reflexivity | exact Hover]].
  unfold pages. rewrite filter_app, length_app. simpl. lia.
Qed.

End PageBreaks.

Lemma writeLink_past_limit_witness :
  exists st',
    PDF.writeLink Demo.a4 (Demo.filler 300) (PDF.State [] 262) = Ok (tt, st')
    /\ PDF.doc st'
       = [JsPDF.TextLines
            [Demo.filler 100; Demo.filler 100; Demo.filler 100] 15 262]
    /\ JsPDF.pages (PDF.doc st') = 1
    /\ PDF.yPosition st' = (262 + (3 * 6 + 2))%Q
    /\ (297 - 20 < PDF.yPosition st')%Q.
Proof.
  apply (writeLink_past_limit Demo.a4 (Demo.filler 300)
           [Demo.filler 100; Demo.filler 100; Demo.filler 100]
           (PDF.State [] 262)).
  - reflexivity.
  - reflexivity.
  - vm_compute. discriminate.
  - reflexivity.
Defined.

(** The state of the witness is reached: in the export of a summary whose
    text takes 27 lines and whose link takes three, the link is written at
    262 on the first page, and the cursor ends below the limit of 277. *)
Example tallLink_export :
  exists pdfBlob st y,
    PDF.render Demo.a4 Demo.details Demo.tallLink (PDF.State [] 20)
    = Ok (pdfBlob, st)
    /\ JsPDF.pages (JsPDF.content pdfBlob) = 1
    /\ In (JsPDF.TextLines
             [Demo.filler 100; Demo.filler 100; Demo.filler 100] 15 y)
          (JsPDF.content pdfBlob)
    /\ (y == 262)%Q
    /\ (297 - 20 < PDF.yPosition st)%Q.
Proof.
  do 3 eexists. split; [vm_compute; reflexivity|].
  split; [reflexivity|].
  split; [simpl; repeat (first [left; reflexivity | right])|].
  split; reflexivity.
Qed.

(** * Further properties *)

(** ** Runs of a class *)

Module RunFacts.
Import RegExp RegExpFacts.

Lemma every_app p a b : JsText.every p (a ++ b) = JsText.every p a && JsText.every p b.
Proof.
  induction a as [|x a IH]; simpl; [reflexivity|].
  rewrite IH, andb_assoc. reflexivity.
Qed.

Lemma take_app a b : Js.take (String.length a) (a ++ b) = a.
Proof. induction a as [|x a IH]; simpl; [destruct b|rewrite IH]; reflexivity. Qed.

Lemma take_all a : Js.take (String.length a) a = a.
Proof. induction a as [|x a IH]; simpl; [|rewrite IH]; reflexivity. Qed.

(** [r{n}] over a class passes exactly [n] characters of the class. *)
Lemma rep_cls p e : forall n k st,
  rep (one p) n k st = Some e ->
  exists pre t,
    rest st = pre ++ t /\ String.length pre = n /\ JsText.every p pre = true
    /\ k (MState (idx st + n) t (caps st)) = Some e.
Proof.
  induction n as [|n IH]; intros k st H; simpl in H.
  - exists EmptyString, (rest st). repeat split.
    rewrite Nat.add_0_r. destruct st; exact H.
  - apply one_some in H as (a & t & E & Hp & H).
    apply IH in H as (pre & t' & E' & L & Hall & H). simpl in E', H.
    exists (String a pre), t'. simpl. rewrite E, E', Hp, Hall, L.
    repeat split. rewrite <- Nat.add_succ_comm. exact H.
Qed.

(** A greedy run over a class passes characters of the class only. *)
Lemma star_cls p k e : forall fuel st,
  star (one p) k fuel st = Some e ->
  exists pre t,
    rest st = pre ++ t /\ JsText.every p pre = true
    /\ k (MState (idx st + String.length pre) t (caps st)) = Some e.
Proof.
  induction fuel as [|fuel IH]; intros st H; simpl in H.
  - exists EmptyString, (rest st). repeat split.
    simpl. rewrite Nat.add_0_r. destruct st; exact H.
  - apply or_else_some in H as [H | [_ H]].
    + apply one_some in H as (a & t & E & Hp & H).
      apply progress_some in H as [_ H].
      apply IH in H as (pre & t' & E' & Hall & H). simpl in E', H.
      exists (String a pre), t'. simpl. rewrite E, E', Hp, Hall.
      repeat split. rewrite <- Nat.add_succ_comm. exact H.
    + exists EmptyString, (rest st). repeat split.
      simpl. rewrite Nat.add_0_r. destruct st; exact H.
Qed.

(** One step of a greedy run: the longer match first. *)
Lemma star_step p k fuel i a t cs :
  p a = true ->
  star (one p) k (S fuel) (MState i (String a t) cs)
  = or_else (star (one p) k fuel (MState (S i) t cs))
            (k (MState i (String a t) cs)).
Proof.
  intros Hp. cbn [star]. unfold one at 1. cbn [rest]. rewrite Hp.
  unfold progress, consume. cbn [idx caps].
  rewrite (proj2 (Nat.eqb_neq (S i) i)) by lia. reflexivity.
Qed.

(** A run stops where the class does. *)
Lemma star_stop p k fuel i s cs :
  match s with EmptyString => true | String a _ => negb (p a) end = true ->
  star (one p) k (S fuel) (MState i s cs) = k (MState i s cs).
Proof.
  intros H. cbn [star]. unfold one at 1. cbn [rest].
  destruct s as [|a t]; [reflexivity|].
  apply negb_true_iff in H. rewrite H. reflexivity.
Qed.

(** When the whole of the input left is in the class and the continuation
    accepts its end, the greedy run goes to the end. *)
Lemma star_to_end p k e : forall s i cs fuel,
  JsText.every p s = true ->
  String.length s < fuel ->
  k (MState (i + String.length s) EmptyString cs) = Some e ->
  star (one p) k fuel (MState i s cs) = Some e.
Proof.
  induction s as [|a s IH]; intros i cs fuel Hall L Hk;
    (destruct fuel as [|fuel]; [simpl in L; lia|]).
  - rewrite star_stop by reflexivity.
    simpl in Hk. rewrite Nat.add_0_r in Hk. exact Hk.
  - simpl in Hall. apply andb_true_iff in Hall as [Hp Hall].
    rewrite (star_step p k fuel i a s cs Hp).
    rewrite (IH (S i) cs fuel Hall); [reflexivity | simpl in L; lia|].
    simpl in Hk. rewrite <- Nat.add_succ_comm in Hk. exact Hk.
Qed.

(** A run whose continuation fails everywhere ahead fails. *)
Lemma star_none body k fuel st :
  (forall k' st' e, body k' st' = Some e ->
                    exists st'', k' st'' = Some e /\ keeps st' st'') ->
  (forall st', keeps st st' -> k st' = None) ->
  star body k fuel st = None.
Proof.
  intros Hb Hk. destruct (star body k fuel st) as [e|] eqn:E; [|reflexivity].
  apply (star_via_cont body Hb) in E as (st' & E & K).
  rewrite (Hk st' K) in E. discriminate.
Qed.

Lemma one_via_cont p k st e :
  one p k st = Some e -> exists st', k st' = Some e /\ keeps st st'.
Proof.
  intros H. apply one_some in H as (a & t & E & _ & H).
  eexists; split; [exact H | apply (keeps_consume st a t E)].
Qed.

End RunFacts.

(** ** The resolvers, further *)

Module ResolverFacts.
Import RegExp RegExpFacts RunFacts.

(** A match found by the search starts at some suffix of the input. *)
Lemma search_found r : forall s i mr,
  search r i s = Some mr ->
  exists pre t,
    s = pre ++ t
    /\ m r Some (MState (i + String.length pre) t []) = Some (last mr).
Proof.
  induction s as [|c s IH]; intros i mr H; simpl in H.
  - destruct (m r Some (MState i EmptyString [])) eqn:E; [|discriminate].
    inversion H; subst; simpl. exists EmptyString, EmptyString.
    simpl. rewrite Nat.add_0_r. auto.
  - destruct (m r Some (MState i (String c s) [])) eqn:E.
    + inversion H; subst; simpl. exists EmptyString, (String c s).
      simpl. rewrite Nat.add_0_r. auto.
    + apply IH in H as (pre & t & -> & H).
      exists (String c pre), t. simpl. rewrite <- Nat.add_succ_comm. auto.
Qed.

Lemma search_first r s i e :
  m r Some (MState i s []) = Some e ->
  search r i s = Some (MatchResult i (Js.take (idx e - i) s) e).
Proof. intros H. destruct s; simpl; rewrite H; reflexivity. Qed.

Lemma every_id_char_no_delimiter s :
  JsText.every Supabase.id_char s = true -> has (Js.one_of "/?") s = false.
Proof.
  induction s as [|a s IH]; simpl; [reflexivity|].
  intros H. apply andb_true_iff in H as [Ha H].
  rewrite (id_char_no_delimiter a Ha). apply IH, H.
Qed.

Lemma every_In p s :
  JsText.every p s = true -> forall c, In c (list_ascii_of_string s) -> p c = true.
Proof.
  induction s as [|a s IH]; simpl; [contradiction|].
  intros H c [<-|Hc]; apply andb_true_iff in H as [Ha H]; auto.
Qed.

(** What the test of [/^[a-zA-Z0-9_-]{11}$/] accepts. *)
Lemma bareId_accepts s :
  test Supabase.bareId s = true ->
  String.length s = 11 /\ JsText.every Supabase.id_char s = true.
Proof.
  unfold test, exec. destruct (search Supabase.bareId 0 s) as [mr|] eqn:E;
    [intros _ | discriminate].
  apply search_found in E as (pre & t & -> & E).
  unfold Supabase.bareId in E. cbn [SeqOf m idx] in E.
  destruct pre as [|c pre]; [|discriminate E]. simpl in E |- *.
  change (rep (one Supabase.id_char) 11 (m Eol Some) (MState 0 t []) = Some (last mr))
    in E.
  apply rep_cls in E as (pre & t' & Et & L & Hall & E). simpl in Et, E.
  destruct t' as [|c t']; [|discriminate E].
  subst t. rewrite length_append, every_app, L, Hall. split; reflexivity.
Qed.

Lemma m_seq_via r1 r2 k st e :
  m (Seq r1 r2) k st = Some e ->
  exists st1, m r2 k st1 = Some e /\ keeps st st1.
Proof. cbn [m]. apply m_via_cont. Qed.

End ResolverFacts.

(** X1: the two resolvers give the same answer on every input but the bare
    ids, the strings of eleven characters of [[a-zA-Z0-9_-]], on which
    only [extractYouTubeVideoId] answers. *)
Theorem resolvers_differ_on_bare_ids_only (url : string) :
  Supabase.extractYouTubeVideoId url = VideoId.extractVideoID url
  <-> (String.length url =? 11) && RegExp.test Supabase.bareId url = false.
Proof.
  split.
  - intros H.
    destruct ((String.length url =? 11) && RegExp.test Supabase.bareId url) eqn:B;
      [exfalso | reflexivity].
    apply andb_true_iff in B as [L T].
    pose proof (ResolverFacts.bareId_accepts url T) as [L' Hall].
    rewrite (extractVideoID_no_delimiter url
               (ResolverFacts.every_id_char_no_delimiter url Hall)) in H.
    unfold Supabase.extractYouTubeVideoId in H.
    rewrite (length_truthy url L'), L, T in H. discriminate H.
  - intros B. unfold Supabase.extractYouTubeVideoId, VideoId.extractVideoID.
    rewrite B.
    destruct (negb (Js.truthy url)); [reflexivity|].
    destruct (RegExp.exec VideoId.regExp url) as [mt|]; [|reflexivity].
    destruct (RegExp.capture mt 7) as [id|]; [|reflexivity].
    destruct (Nat.eqb_spec (String.length id) 11) as [L|_].
    + rewrite (length_truthy id L). reflexivity.
    + rewrite andb_false_r. reflexivity.
Qed.

(** X2: [extractVideoId] of the page returns the empty string or eleven
    characters, none of them a double quote, [&], [?], [/] or white
    space. *)
Theorem page_id_empty_or_11 (url : string) :
  Index.extractVideoId url = EmptyString
  \/ (String.length (Index.extractVideoId url) = 11
      /\ JsText.every Index.id_char (Index.extractVideoId url) = true).
Proof.
  unfold Index.extractVideoId, RegExp.exec.
  destruct (RegExp.search Index.videoIdPattern 0 url) as [mr|] eqn:E;
    [|left; reflexivity].
  right. apply ResolverFacts.search_found in E as (pre & t & _ & E).
  unfold Index.videoIdPattern in E.
  apply ResolverFacts.m_seq_via in E as (st1 & E & _).
  change (RegExp.rep (RegExp.one Index.id_char) 11
            (fun st' => Some (RegExp.set_cap 1 st1 st')) st1
          = Some (RegExp.last mr)) in E.
  apply RunFacts.rep_cls in E as (run & t' & Et & L & Hall & E).
  injection E as E. unfold RegExp.capture. rewrite <- E.
  unfold RegExp.set_cap. cbn [RegExp.caps RegExp.lookup RegExp.idx Nat.eqb].
  replace (RegExp.idx st1 + 11 - RegExp.idx st1) with (String.length run) by lia.
  rewrite Et, RunFacts.take_app. split; assumption.
Qed.

(** ** The shapes of URL that resolve *)

Module ShapeFacts.
Import RegExp RegExpFacts RunFacts Shapes.

Lemma regExp_parts : VideoId.regExp = Seq Bol (Seq (Star Dot) idTail).
Proof. reflexivity. Qed.

(** At the start of the input the pattern is a greedy scan of [.*]
    followed by the rest. *)
Lemma regExp_scan url :
  m VideoId.regExp Some (MState 0 url [])
  = star (one any) (m idTail Some) (S (String.length url)) (MState 0 url []).
Proof. reflexivity. Qed.

Lemma id_char_not_delim c :
  Supabase.id_char c = true
  -> VideoId.not_delim c = true /\ Ascii.eqb "?" c = false
     /\ Ascii.eqb "=" c = false /\ Ascii.eqb "/" c = false /\ any c = true.
Proof. destruct c as [[] [] [] [] [] [] [] []]; vm_compute; intuition congruence. Qed.

Lemma every_not_delim s :
  JsText.every Supabase.id_char s = true -> JsText.every VideoId.not_delim s = true.
Proof.
  induction s as [|a s IH]; simpl; [reflexivity|].
  intros H. apply andb_true_iff in H as [Ha H].
  rewrite (IH H), (proj1 (id_char_not_delim a Ha)). reflexivity.
Qed.

Lemma idTail_needs : needs (Js.one_of "/?") idTail = true.
Proof. reflexivity. Qed.

(** On an input without delimiters, group 7 takes it all. *)
Lemma idGroup_all s i cs :
  JsText.every VideoId.not_delim s = true ->
  m idGroup Some (MState i s cs)
  = Some (MState (i + String.length s) EmptyString ((7, s) :: cs)).
Proof.
  intros H. unfold idGroup. cbn [m rest].
  apply star_to_end; [exact H | lia |].
  unfold set_cap. cbn [idx rest caps].
  replace (i + String.length s - i) with (String.length s) by lia.
  rewrite take_all. reflexivity.
Qed.

(** A greedy scan finds what a scan from further on finds. *)
Lemma scan_later K e q cs : forall p i fuel,
  JsText.every any p = true ->
  star (one any) K fuel (MState (i + String.length p) q cs) = Some e ->
  star (one any) K (String.length p + fuel) (MState i (p ++ q) cs) = Some e.
Proof.
  induction p as [|a p IH]; intros i fuel Hp H;
    cbn [String.append String.length Nat.add].
  - cbn [String.length] in H. rewrite Nat.add_0_r in H. exact H.
  - simpl in Hp. apply andb_true_iff in Hp as [Ha Hp].
    rewrite (star_step any K _ i a (p ++ q) cs Ha).
    rewrite (IH (S i) fuel Hp); [reflexivity|].
    simpl in H. rewrite <- Nat.add_succ_comm in H. exact H.
Qed.

(** Inside an id no shape starts. *)
Lemma scan_id K s i cs fuel :
  K = m idTail Some ->
  JsText.every Supabase.id_char s = true ->
  star (one any) K fuel (MState i s cs) = None.
Proof.
  intros -> H. apply star_none; [apply one_via_cont|].
  intros st' Hk. apply (m_needs (Js.one_of "/?")); [apply idTail_needs|].
  apply (has_ahead _ _ _ Hk). apply ResolverFacts.every_id_char_no_delimiter, H.
Qed.

(** The shape [/u/w/] does not start at a character other than [/], nor
    at a [/] that an id follows. *)
Lemma userShape_other k i a t cs :
  Ascii.eqb "/" a = false -> m userShape k (MState i (String a t) cs) = None.
Proof.
  intros H. unfold userShape. cbn [m SeqOf Lit].
  unfold one at 1. cbn [rest]. rewrite H. reflexivity.
Qed.

Lemma userShape_slash k i s cs :
  JsText.every Supabase.id_char s = true ->
  m userShape k (MState i (String "/" s) cs) = None.
Proof.
  intros H. unfold userShape. cbn [m SeqOf Lit].
  unfold one at 1. cbn [rest]. rewrite Ascii.eqb_refl.
  change (m (Seq (Chr "u") (Chr "/"))
            (m (Seq (Cls Js.word_char) (Chr "/"))
               (fun st' => k (set_cap 4 (MState i (String "/" s) cs) st')))
            (consume (MState i (String "/" s) cs) s) = None).
  apply (m_needs (Js.one_of "/?")); [reflexivity|].
  apply ResolverFacts.every_id_char_no_delimiter, H.
Qed.

(** After the shape, an id that does not start with [v] is taken whole. *)
Lemma idRest_plain c s i cs :
  JsText.every Supabase.id_char (String c s) = true ->
  Ascii.eqb "v" c = false ->
  m idRest Some (MState i (String c s) cs)
  = Some (MState (i + S (String.length s)) EmptyString ((7, String c s) :: cs)).
Proof.
  intros H Hv. pose proof H as H'. simpl in H'.
  apply andb_true_iff in H' as [Hc _].
  destruct (id_char_not_delim c Hc) as (_ & Hq & He & _).
  unfold idRest. cbn [SeqOf m]. unfold one. cbn [rest].
  rewrite Hq, Hv, He. cbn [or_else].
  rewrite idGroup_all by (apply every_not_delim, H). reflexivity.
Qed.

(** An id that starts with [v] loses it to the optional [v] of the
    pattern. *)
Lemma idRest_v s i cs :
  JsText.every Supabase.id_char s = true ->
  m idRest Some (MState i (String "v" s) cs)
  = Some (MState (S i + String.length s) EmptyString ((7, s) :: cs)).
Proof.
  intros H. unfold idRest. cbn [SeqOf m]. unfold one at 1. cbn [rest].
  change (Ascii.eqb "?" "v") with false. cbn [or_else].
  unfold one at 1. cbn [rest]. rewrite Ascii.eqb_refl.
  unfold progress at 1. unfold consume. cbn [idx caps].
  rewrite (proj2 (Nat.eqb_neq (S i) i)) by lia.
  assert (E : forall k, one (Ascii.eqb "=") k (MState (S i) s cs) = None).
  { intros k. unfold one. cbn [rest]. destruct s as [|c s]; [reflexivity|].
    simpl in H. apply andb_true_iff in H as [Hc _].
    destruct (id_char_not_delim c Hc) as (_ & _ & He & _). rewrite He. reflexivity. }
  rewrite E. cbn [or_else].
  rewrite (idGroup_all s (S i) cs) by (apply every_not_delim, H). reflexivity.
Qed.

(** After [watch?], the [v=] goes to the optional parts and the id to
    group 7. *)
Lemma idRest_watch s i cs :
  JsText.every Supabase.id_char s = true ->
  m idRest Some (MState i (String "v" (String "=" s)) cs)
  = Some (MState (S (S i) + String.length s) EmptyString ((7, s) :: cs)).
Proof.
  intros H. unfold idRest. cbn -[idGroup].
  unfold progress at 1. unfold consume. cbn [idx rest caps].
  rewrite (proj2 (Nat.eqb_neq (S i) i)) by lia.
  unfold one at 1. cbn [rest]. rewrite Ascii.eqb_refl.
  unfold progress at 1. unfold consume. cbn [idx rest caps].
  rewrite (proj2 (Nat.eqb_neq (S (S i)) (S i))) by lia.
  rewrite (idGroup_all s (S (S i)) cs) by (apply every_not_delim, H). reflexivity.
Qed.

(** The scan backwards over a shape and the id that follows it. *)
Ltac scan_back H :=
  repeat (rewrite star_step by reflexivity);
  rewrite (scan_id _ _ _ _ _ eq_refl H);
  cbn -[idRest userShape];
  repeat (rewrite userShape_slash by exact H);
  repeat (rewrite userShape_other by reflexivity);
  cbn -[idRest userShape];
  unfold consume, set_cap; cbn -[idRest userShape].

Lemma watch_match s :
  String.length s = 11 -> JsText.every Supabase.id_char s = true ->
  m VideoId.regExp Some
    (MState 0 ("https://www.youtube.com/watch?v=" ++ s) [])
  = Some (MState 43 EmptyString [(7, s); (1, "watch?"); (6, "watch?")]).
Proof.
  intros L H. rewrite regExp_scan.
  change ("https://www.youtube.com/watch?v=" ++ s)
    with ("https://www.youtube.com/" ++ ("watch?v=" ++ s)).
  rewrite !length_append. cbn [String.length]. rewrite L.
  change (S (24 + (8 + 11))) with (24 + 20).
  apply (scan_later (m idTail Some) _ _ _ "https://www.youtube.com/" 0 20);
    [reflexivity|].
  cbn [String.append String.length Nat.add].
  scan_back H.
  rewrite idRest_watch by exact H. rewrite L. reflexivity.
Qed.

(** A short URL: the shape [youtu.be/] at 8, then the id. *)
Lemma short_scan s :
  String.length s = 11 -> JsText.every Supabase.id_char s = true ->
  m VideoId.regExp Some (MState 0 ("https://youtu.be/" ++ s) [])
  = m idRest Some (MState 17 s [(1, "youtu.be/"); (2, "youtu.be/")]).
Proof.
  intros L H. rewrite regExp_scan.
  change ("https://youtu.be/" ++ s) with ("https://" ++ ("youtu.be/" ++ s)).
  rewrite !length_append. cbn [String.length]. rewrite L.
  change (S (8 + (9 + 11))) with (8 + 21).
  destruct (m idRest Some (MState 17 s [(1, "youtu.be/"); (2, "youtu.be/")]))
    as [e|] eqn:E.
  - apply (scan_later (m idTail Some) _ _ _ "https://" 0 21); [reflexivity|].
    cbn [String.append String.length Nat.add].
    scan_back H. rewrite E. reflexivity.
  - exfalso. destruct s as [|c s]; [discriminate L|].
    destruct (Ascii.eqb_spec "v" c) as [<-|N].
    + simpl in H. rewrite idRest_v in E by exact H. discriminate E.
    + rewrite idRest_plain in E; [discriminate E | exact H|].
      apply Ascii.eqb_neq, N.
Qed.

(** An embed URL: the shape [embed/] at 24, then the id. *)
Lemma embed_scan s :
  String.length s = 11 -> JsText.every Supabase.id_char s = true ->
  m VideoId.regExp Some (MState 0 ("https://www.youtube.com/embed/" ++ s) [])
  = m idRest Some (MState 30 s [(1, "embed/"); (5, "embed/")]).
Proof.
  intros L H. rewrite regExp_scan.
  change ("https://www.youtube.com/embed/" ++ s)
    with ("https://www.youtube.com/" ++ ("embed/" ++ s)).
  rewrite !length_append. cbn [String.length]. rewrite L.
  change (S (24 + (6 + 11))) with (24 + 18).
  destruct (m idRest Some (MState 30 s [(1, "embed/"); (5, "embed/")]))
    as [e|] eqn:E.
  - apply (scan_later (m idTail Some) _ _ _ "https://www.youtube.com/" 0 18);
      [reflexivity|].
    cbn [String.append String.length Nat.add].
    scan_back H. rewrite E. reflexivity.
  - exfalso. destruct s as [|c s]; [discriminate L|].
    destruct (Ascii.eqb_spec "v" c) as [<-|N].
    + simpl in H. rewrite idRest_v in E by exact H. discriminate E.
    + rewrite idRest_plain in E; [discriminate E | exact H|].
      apply Ascii.eqb_neq, N.
Qed.

(** What the resolver returns after a match at the start. *)
Lemma extractVideoID_of_match url e :
  Js.truthy url = true ->
  m VideoId.regExp Some (MState 0 url []) = Some e ->
  VideoId.extractVideoID url
  = match lookup 7 (caps e) with
    | Some id => if String.length id =? 11 then Some id else None
    | None => None
    end.
Proof.
  intros T H. unfold VideoId.extractVideoID, exec. rewrite T.
  rewrite (ResolverFacts.search_first _ _ _ _ H). reflexivity.
Qed.

(** The resolver on a shape followed by an id, from the state after the
    shape. *)
Lemma after_shape url s i cs :
  Js.truthy url = true ->
  String.length s = 11 -> JsText.every Supabase.id_char s = true ->
  m VideoId.regExp Some (MState 0 url []) = m idRest Some (MState i s cs) ->
  VideoId.extractVideoID url = if JsText.startsWith "v" s then None else Some s.
Proof.
  intros T L H E. destruct s as [|c s]; [discriminate L|].
  unfold JsText.startsWith. cbn [String.prefix].
  destruct (Ascii.eqb_spec "v" c) as [<-|N].
  - simpl in H. rewrite idRest_v in E by exact H.
    rewrite (extractVideoID_of_match _ _ T E). cbn [caps lookup Nat.eqb].
    simpl in L. injection L as L. rewrite L.
    destruct (Ascii.ascii_dec "v" "v") as [_|N]; [|contradiction].
    destruct s; reflexivity.
  - rewrite idRest_plain in E; [| exact H | apply Ascii.eqb_neq, N].
    rewrite (extractVideoID_of_match _ _ T E). cbn [caps lookup Nat.eqb].
    rewrite L.
    destruct (Ascii.ascii_dec "v" c) as [Y|_]; [contradiction | reflexivity].
Qed.

End ShapeFacts.

(** X3: for every id, eleven characters of [[a-zA-Z0-9_-]], the watch URL
    that [generateSummary] builds resolves to the id, and its embed URL is
    the embed prefix followed by the id. *)
Theorem watch_url_resolves (id : string) :
  String.length id = 11 ->
  JsText.every Supabase.id_char id = true ->
  VideoId.extractVideoID (VideoAnalysis.watchUrl id) = Some id
  /\ VideoId.getEmbedUrl (VideoAnalysis.watchUrl id)
     = "https://www.youtube.com/embed/" ++ id.
Proof.
  intros L H.
  assert (E : VideoId.extractVideoID (VideoAnalysis.watchUrl id) = Some id).
  { unfold VideoAnalysis.watchUrl.
    rewrite (ShapeFacts.extractVideoID_of_match
               ("https://www.youtube.com/watch?v=" ++ id) _ eq_refl
               (ShapeFacts.watch_match id L H)).
    cbn [RegExp.caps RegExp.lookup Nat.eqb]. rewrite L. reflexivity. }
  split; [exact E|].
  unfold VideoId.getEmbedUrl. rewrite E, (length_truthy id L). reflexivity.
Qed.

Lemma watch_url_resolves_witness :
  VideoId.extractVideoID (VideoAnalysis.watchUrl "vQw4w9WgXcQ")
  = Some "vQw4w9WgXcQ"
  /\ VideoId.getEmbedUrl (VideoAnalysis.watchUrl "vQw4w9WgXcQ")
     = "https://www.youtube.com/embed/" ++ "vQw4w9WgXcQ".
Proof. apply (watch_url_resolves "vQw4w9WgXcQ"); reflexivity. Defined.

(** X4: a short URL and an embed URL resolve to their id, except when the
    id starts with [v]: the optional [v] of the pattern takes that letter,
    group 7 is left with ten characters, and the resolver returns null. *)
Theorem short_and_embed_urls (id : string) :
  String.length id = 11 ->
  JsText.every Supabase.id_char id = true ->
  VideoId.extractVideoID ("https://youtu.be/" ++ id)
  = (if JsText.startsWith "v" id then None else Some id)
  /\ VideoId.extractVideoID ("https://www.youtube.com/embed/" ++ id)
     = (if JsText.startsWith "v" id then None else Some id).
Proof.
  intros L H. split.
  - exact (ShapeFacts.after_shape ("https://youtu.be/" ++ id) id 17 _
             eq_refl L H (ShapeFacts.short_scan id L H)).
  - exact (ShapeFacts.after_shape ("https://www.youtube.com/embed/" ++ id)
             id 30 _ eq_refl L H (ShapeFacts.embed_scan id L H)).
Qed.

Lemma short_and_embed_urls_witness :
  VideoId.extractVideoID ("https://youtu.be/" ++ "vQw4w9WgXcQ")
  = (if JsText.startsWith "v" "vQw4w9WgXcQ" then None else Some "vQw4w9WgXcQ")
  /\ VideoId.extractVideoID ("https://www.youtube.com/embed/" ++ "vQw4w9WgXcQ")
     = (if JsText.startsWith "v" "vQw4w9WgXcQ" then None else Some "vQw4w9WgXcQ").
Proof. apply (short_and_embed_urls "vQw4w9WgXcQ"); reflexivity. Defined.

(** ** The details and the summary, further *)

(** X5: an input without [/] and [?] (the empty string and a bare id are
    such inputs) makes [getVideoDetails] throw [Invalid YouTube URL],
    whatever the services would answer. *)
Theorem getVideoDetails_invalid {raw : Type} (sv : VideoAnalysis.services raw)
        (url : string) :
  RegExp.has (Js.one_of "/?") url = false ->
  VideoAnalysis.getVideoDetails sv url = Throw (Error "Invalid YouTube URL").
Proof.
  intros H. unfold VideoAnalysis.getVideoDetails.
  rewrite (extractVideoID_no_delimiter url H). reflexivity.
Qed.

Lemma getVideoDetails_invalid_witness :
  VideoAnalysis.getVideoDetails
    (Demo.services (Ok tt) (Ok Demo.processed)) "dQw4w9WgXcQ"
  = Throw (Error "Invalid YouTube URL").
Proof.
  apply (getVideoDetails_invalid
           (Demo.services (Ok tt) (Ok Demo.processed)) "dQw4w9WgXcQ").
  reflexivity.
Defined.

Section SummaryOfId.
Import VideoAnalysis.
Context {raw : Type}.
Variable sv : services raw.
Variable id : string.
Hypothesis id_length : String.length id = 11.
Hypothesis id_chars : JsText.every Supabase.id_char id = true.

#[local] Abbreviation oembedUrl := (Requests.oembedUrl id).

Lemma getVideoDetails_of_id :
  getVideoDetails sv (watchUrl id)
  = match fetch_json sv oembedUrl with
    | Ok data =>
        Ok (VideoDetails.Make
              (oe_title data)
              (or_default (oe_description data) "Description not available")
              ("https://img.youtube.com/vi/" ++ id ++ "/maxresdefault.jpg")
              (oe_author_name data)
              (or_default (oe_duration data) "Duration not available")
              None None)
    | Throw e => Throw e
    end.
Proof.
  unfold getVideoDetails.
  rewrite (proj1 (watch_url_resolves id id_length id_chars)).
  rewrite (length_truthy id id_length). cbn [negb].
  unfold Requests.oembedUrl. destruct (fetch_json sv _); reflexivity.
Qed.

(** X6: for every id, when the oEmbed request succeeds,
    [generateSummary] returns a summary, whatever becomes of the captions:
    its links are the watch URL of the id and the channel URL, its only
    image reference is the [maxresdefault] thumbnail of the id, and its
    text is not empty. *)
Theorem summary_of_id data :
  fetch_json sv oembedUrl = Ok data ->
  exists s,
    generateSummary sv id = Ok s
    /\ SummaryContent.links s
       = [ "https://www.youtube.com/watch?v=" ++ id;
           "https://www.youtube.com/channel/" ++ oe_author_name data ]
    /\ SummaryContent.imageReferences s
       = [ "https://img.youtube.com/vi/" ++ id ++ "/maxresdefault.jpg" ]
    /\ SummaryContent.text s <> EmptyString.
Proof.
  intros Hf. pose proof getVideoDetails_of_id as Hd. rewrite Hf in Hd.
  eexists. split; [apply (generateSummary_returns sv id _ Hd)|].
  cbn [SummaryContent.links SummaryContent.imageReferences SummaryContent.text
       VideoDetails.channel VideoDetails.thumbnail].
  repeat split. apply or_default_nonempty, fallbackText_nonempty.
Qed.

(** X7: for every id, when the oEmbed request throws, [generateSummary]
    throws the same value: the captions services have no part in it. *)
Theorem summary_fetch_error e :
  fetch_json sv oembedUrl = Throw e ->
  generateSummary sv id = Throw e.
Proof.
  intros Hf. unfold generateSummary. rewrite getVideoDetails_of_id, Hf.
  reflexivity.
Qed.

End SummaryOfId.

Lemma summary_of_id_witness :
  exists s,
    VideoAnalysis.generateSummary
      (Demo.services (Throw (Error "quota exceeded")) (Ok Demo.processed))
      "vQw4w9WgXcQ" = Ok s
    /\ SummaryContent.links s
       = [ "https://www.youtube.com/watch?v=" ++ "vQw4w9WgXcQ";
           "https://www.youtube.com/channel/"
           ++ VideoAnalysis.oe_author_name Demo.response ]
    /\ SummaryContent.imageReferences s
       = [ "https://img.youtube.com/vi/" ++ "vQw4w9WgXcQ" ++ "/maxresdefault.jpg" ]
    /\ SummaryContent.text s <> EmptyString.
Proof.
  apply (summary_of_id
           (Demo.services (Throw (Error "quota exceeded")) (Ok Demo.processed))
           "vQw4w9WgXcQ" eq_refl eq_refl Demo.response).
  reflexivity.
Defined.

Lemma summary_fetch_error_witness :
  VideoAnalysis.generateSummary Samples.offline "dQw4w9WgXcQ"
  = Throw (Error "Failed to fetch").
Proof.
  apply (summary_fetch_error Samples.offline "dQw4w9WgXcQ" eq_refl eq_refl
           (Error "Failed to fetch")).
  reflexivity.
Defined.

(** X8: without an API key, missing or empty, the captions services are
    not consulted: the summary has no code, timestamps or key points, no
    transcript summary, and the template as text. *)
Theorem summary_without_key {raw : Type} (sv : VideoAnalysis.services raw)
        (videoId : string) (videoDetails : VideoDetails.t) :
  VideoAnalysis.VITE_YOUTUBE_API_KEY sv = None
  \/ VideoAnalysis.VITE_YOUTUBE_API_KEY sv = Some EmptyString ->
  VideoAnalysis.getVideoDetails sv (VideoAnalysis.watchUrl videoId)
  = Ok videoDetails ->
  VideoAnalysis.generateSummary sv videoId
  = Ok (SummaryContent.Make
          (VideoAnalysis.fallbackText videoDetails)
          []
          [ VideoAnalysis.watchUrl videoId;
            "https://www.youtube.com/channel/"
            ++ VideoDetails.channel videoDetails ]
          [ VideoDetails.thumbnail videoDetails ]
          [] [] None).
Proof.
  intros Hk Hd. rewrite (generateSummary_returns sv videoId _ Hd).
  unfold VideoAnalysis.captionLocals, VideoAnalysis.processCaptions.
  destruct Hk as [-> | ->]; reflexivity.
Qed.

Lemma summary_without_key_witness :
  VideoAnalysis.generateSummary Samples.keyless "dQw4w9WgXcQ"
  = Ok (SummaryContent.Make
          (VideoAnalysis.fallbackText
             (VideoDetails.Make
                "Never Gonna Give You Up" "Description not available"
                "https://img.youtube.com/vi/dQw4w9WgXcQ/maxresdefault.jpg"
                "Rick Astley" "Duration not available" None None))
          []
          [ VideoAnalysis.watchUrl "dQw4w9WgXcQ";
            "https://www.youtube.com/channel/" ++ "Rick Astley" ]
          [ "https://img.youtube.com/vi/dQw4w9WgXcQ/maxresdefault.jpg" ]
          [] [] None).
Proof.
  apply (summary_without_key Samples.keyless "dQw4w9WgXcQ"
           (VideoDetails.Make
              "Never Gonna Give You Up" "Description not available"
              "https://img.youtube.com/vi/dQw4w9WgXcQ/maxresdefault.jpg"
              "Rick Astley" "Duration not available" None None)).
  - right. reflexivity.
  - reflexivity.
Defined.

(** ** The page, further *)

(** X9: when [handleSubmit] is done the page is not loading, and it shows
    either a summary with the details of the video and no error, or an
    error with neither summary nor details. *)
Theorem page_summary_or_error {raw : Type} (sv : VideoAnalysis.services raw)
        (supabase : Supabase.client) (url : string) :
  let d := Index.summaryData (Index.handleSubmit sv supabase url) in
  SummaryData.isLoading d = false
  /\ ((exists s videoDetails,
          SummaryData.summary d = Some s
          /\ SummaryData.videoDetails d = Some videoDetails
          /\ SummaryData.error d = None)
      \/ (exists message,
             SummaryData.error d = Some message
             /\ SummaryData.summary d = None
             /\ SummaryData.videoDetails d = None)).
Proof.
  cbv zeta.
  unfold Index.handleSubmit, Index.summaryData, Index.analyse, ResultMonad.bind.
  destruct (VideoAnalysis.getVideoDetails sv url) as [details|[msg]];
    [|split; [reflexivity | right; eexists; repeat split]].
  destruct (negb (Js.truthy (Index.extractVideoId url)));
    [split; [reflexivity | right; eexists; repeat split]|].
  destruct (VideoAnalysis.generateSummary sv (Index.extractVideoId url))
    as [summary|[msg]]; (split; [reflexivity|]);
    [left; do 2 eexists; repeat split | right; eexists; repeat split].
Qed.

(** The page after the uploads [images], in their order. *)
Lemma uploads_append (images : list string) : forall (p : Index.page) s,
  SummaryData.summary (Index.summaryData p) = Some s ->
  exists s',
    SummaryData.summary
      (Index.summaryData
         (fold_left (fun q image => Index.handleImageUploadSuccess image q)
                    images p)) = Some s'
    /\ SummaryContent.imageReferences s'
       = (SummaryContent.imageReferences s ++ images)%list.
Proof.
  induction images as [|image images IH]; intros p s Hs; cbn [fold_left].
  - exists s. rewrite app_nil_r. auto.
  - destruct (IH (Index.handleImageUploadSuccess image p)
                 (SummaryContent.Make
                    (SummaryContent.text s) (SummaryContent.code s)
                    (SummaryContent.links s)
                    (SummaryContent.imageReferences s ++ [image])%list
                    (SummaryContent.timestamps s) (SummaryContent.keyPoints s)
                    (SummaryContent.transcriptSummary s)))
      as (s' & Hs' & Hi).
    + unfold Index.handleImageUploadSuccess. rewrite Hs. reflexivity.
    + exists s'. split; [exact Hs'|].
      rewrite Hi. cbn [SummaryContent.imageReferences].
      rewrite <- app_assoc. reflexivity.
Qed.

(** X10: after a request that gave a summary and any number of uploads,
    the image references are the thumbnail of the video, then the
    references read from the table, then the uploads in the order in which
    they came. *)
Theorem images_after_uploads {raw : Type} (sv : VideoAnalysis.services raw)
        (supabase : Supabase.client) (url : string) (images : list string)
        (s : SummaryContent.t) :
  SummaryData.summary (Index.summaryData (Index.handleSubmit sv supabase url))
  = Some s ->
  exists s' videoDetails,
    SummaryData.summary
      (Index.summaryData
         (fold_left (fun q image => Index.handleImageUploadSuccess image q)
                    images (Index.handleSubmit sv supabase url))) = Some s'
    /\ VideoAnalysis.getVideoDetails sv
         (VideoAnalysis.watchUrl (Index.extractVideoId url)) = Ok videoDetails
    /\ SummaryContent.imageReferences s'
       = (VideoDetails.thumbnail videoDetails
          :: Supabase.getImageReferences supabase (Index.extractVideoId url)
          ++ images)%list.
Proof.
  intros Hs.
  destruct (uploads_append images _ s Hs) as (s' & Hs' & Hi).
  assert (T : exists videoDetails,
             VideoAnalysis.getVideoDetails sv
               (VideoAnalysis.watchUrl (Index.extractVideoId url))
             = Ok videoDetails
             /\ SummaryContent.imageReferences s
                = VideoDetails.thumbnail videoDetails
                  :: Supabase.getImageReferences supabase
                       (Index.extractVideoId url)).
  { clear Hs' Hi s'. revert Hs.
    unfold Index.handleSubmit, Index.summaryData, Index.analyse,
      ResultMonad.bind.
    destruct (VideoAnalysis.getVideoDetails sv url) as [details|[msg]];
      [|discriminate].
    destruct (negb (Js.truthy (Index.extractVideoId url))); [discriminate|].
    destruct (VideoAnalysis.generateSummary sv (Index.extractVideoId url))
      as [summary|[msg]] eqn:E; [|discriminate].
    intros H. injection H as H; subst s.
    destruct (generateSummary_thumbnail sv _ _ E) as (vd & Hd & Hi).
    exists vd. split; [exact Hd|].
    rewrite combinedSummary_images, Hi. reflexivity. }
  destruct T as (vd & Hd & Ht).
  exists s', vd. repeat split; [exact Hs' | exact Hd|].
  rewrite Hi, Ht. reflexivity.
Qed.

Lemma images_after_uploads_witness :
  exists s' videoDetails,
    SummaryData.summary
      (Index.summaryData
         (fold_left (fun q image => Index.handleImageUploadSuccess image q)
                    ["video-images/1_b.png"; "https://youtu.be/abc"]
                    (Index.handleSubmit
                       (Demo.services (Ok tt) (Ok Demo.processed))
                       Demo.supabase "https://youtu.be/dQw4w9WgXcQ")))
    = Some s'
    /\ VideoAnalysis.getVideoDetails
         (Demo.services (Ok tt) (Ok Demo.processed))
         (VideoAnalysis.watchUrl
            (Index.extractVideoId "https://youtu.be/dQw4w9WgXcQ"))
       = Ok videoDetails
    /\ SummaryContent.imageReferences s'
       = (VideoDetails.thumbnail videoDetails
          :: Supabase.getImageReferences Demo.supabase
               (Index.extractVideoId "https://youtu.be/dQw4w9WgXcQ")
          ++ ["video-images/1_b.png"; "https://youtu.be/abc"])%list.
Proof.
  apply (images_after_uploads
           (Demo.services (Ok tt) (Ok Demo.processed)) Demo.supabase
           "https://youtu.be/dQw4w9WgXcQ"
           ["video-images/1_b.png"; "https://youtu.be/abc"]
           (SummaryContent.Make
              "A summary of the transcript."
              (map TimeStampedContent.text Demo.codeBlocks)
              [ "https://www.youtube.com/watch?v=dQw4w9WgXcQ";
                "https://www.youtube.com/channel/Rick Astley" ]
              [ "https://img.youtube.com/vi/dQw4w9WgXcQ/maxresdefault.jpg";
                "video-images/a.png"; "https://youtu.be/xyz" ]
              (JsArray.sort VideoAnalysis.by_timestamp
                 (Demo.keyPoints ++ Demo.codeBlocks))
              Demo.keyPoints
              (Some "A summary of the transcript."))).
  vm_compute. reflexivity.
Defined.

(** ** Splitting and joining *)

Module SplitFacts.
Import JsSplit JsText.

Lemma append_nil (a : string) : a ++ EmptyString = a.
Proof. induction a as [|x a IH]; simpl; [|rewrite IH]; reflexivity. Qed.

Lemma prefix_drop sep : forall s,
  String.prefix sep s = true -> s = sep ++ drop (String.length sep) s.
Proof.
  induction sep as [|a sep IH]; intros s H; [reflexivity|].
  destruct s as [|b s]; [discriminate H|]. simpl in H.
  destruct (Ascii.ascii_dec a b) as [<-|]; [|discriminate H].
  simpl. rewrite <- (IH s H). reflexivity.
Qed.

Lemma go_cons sep : forall s skip cur, exists x l, go sep skip cur s = x :: l.
Proof.
  induction s as [|c s IH]; intros skip cur; cbn [go]; [eauto|].
  destruct skip as [|skip]; [|apply IH].
  destruct (String.prefix sep (String c s)); [eauto | apply IH].
Qed.

Lemma join_cons sep x l :
  l <> [] -> join sep (x :: l) = x ++ sep ++ join sep l.
Proof. destruct l; [contradiction | reflexivity]. Qed.

(** Joining the pieces with the separator gives the string back. *)
Lemma go_join a sep : forall s skip cur,
  join (String a sep) (go (String a sep) skip cur s) = cur ++ drop skip s.
Proof.
  induction s as [|c s IH]; intros skip cur.
  - destruct skip; cbn [go join drop]; rewrite append_nil; reflexivity.
  - destruct skip as [|skip]; [|apply IH].
    cbn [go]. destruct (String.prefix (String a sep) (String c s)) eqn:P.
    + destruct (go_cons (String a sep) s (String.length (String a sep) - 1)
                        EmptyString) as (x & l & E).
      rewrite join_cons by (rewrite E; discriminate).
      rewrite IH. pose proof (prefix_drop _ _ P) as D.
      cbn [String.length drop] in D. cbn [String.length Nat.sub String.append].
      rewrite Nat.sub_0_r. cbn [drop]. rewrite D at 1. reflexivity.
    + rewrite IH. cbn [drop].
      rewrite RegExpFacts.append_assoc. reflexivity.
Qed.

Lemma split_join a sep s : join (String a sep) (split (String a sep) s) = s.
Proof. unfold split. rewrite go_join. reflexivity. Qed.

(** A string that includes the separator splits in two pieces or more. *)
Lemma go_single a sep : forall s cur x,
  go (String a sep) 0 cur s = [x] -> includes (String a sep) s = false.
Proof.
  induction s as [|c s IH]; intros cur x H; [reflexivity|].
  cbn [go] in H. cbn [includes].
  destruct (String.prefix (String a sep) (String c s)) eqn:P.
  - destruct (go_cons (String a sep) s (String.length (String a sep) - 1)
                      EmptyString) as (y & l & E).
    rewrite E in H. discriminate H.
  - rewrite (IH _ _ H). reflexivity.
Qed.

(** The first piece, on a one-character separator, ends before the first
    separator. *)
Lemma go_hd a : forall s cur,
  RegExp.has (Ascii.eqb a) cur = false ->
  RegExp.has (Ascii.eqb a)
    (hd EmptyString (go (String a EmptyString) 0 cur s)) = false.
Proof.
  induction s as [|c s IH]; intros cur H; [exact H|].
  cbn [go String.prefix].
  destruct (Ascii.ascii_dec a c) as [<-|N].
  - destruct s; exact H.
  - apply IH. rewrite RegExpFacts.has_app, H. simpl.
    rewrite (proj2 (Ascii.eqb_neq a c) N). reflexivity.
Qed.

(** A string made of a piece without separator, the separator and a rest
    splits first at that separator. *)
Lemma go_first a rest_ : forall b cur,
  RegExp.has (Ascii.eqb a) b = false ->
  go (String a EmptyString) 0 cur (b ++ String a rest_)
  = (cur ++ b) :: go (String a EmptyString) 0 EmptyString rest_.
Proof.
  induction b as [|c b IH]; intros cur H.
  - cbn [String.append go String.prefix].
    destruct (Ascii.ascii_dec a a) as [_|N]; [|contradiction].
    rewrite append_nil. destruct rest_; reflexivity.
  - simpl in H. apply orb_false_iff in H as [Hc H].
    cbn [String.append go String.prefix].
    destruct (Ascii.ascii_dec a c) as [<-|N];
      [rewrite Ascii.eqb_refl in Hc; discriminate Hc|].
    rewrite IH by exact H. rewrite RegExpFacts.append_assoc. reflexivity.
Qed.

Lemma includes_app a : forall b rest_,
  includes (String a EmptyString) (b ++ String a rest_) = true.
Proof.
  induction b as [|c b IH]; intros rest_; cbn [String.append includes String.prefix].
  - destruct (Ascii.ascii_dec a a) as [_|N]; [|contradiction].
    destruct rest_; reflexivity.
  - rewrite IH. apply orb_true_r.
Qed.

End SplitFacts.

(** ** Thumbnails and storage *)

(** X11: [getYouTubeThumbnailUrl] returns the placeholder or the
    [hqdefault] URL of an id of eleven characters; an input of eleven
    characters is taken as the id as it is, whatever its characters. *)
Theorem thumbnail_url_shape (videoIdOrUrl : string) :
  (Images.getYouTubeThumbnailUrl videoIdOrUrl = Images.invalidThumbnail
   \/ exists id,
        String.length id = 11
        /\ Images.getYouTubeThumbnailUrl videoIdOrUrl
           = "https://img.youtube.com/vi/" ++ id ++ "/hqdefault.jpg")
  /\ (String.length videoIdOrUrl = 11 ->
      Images.getYouTubeThumbnailUrl videoIdOrUrl
      = "https://img.youtube.com/vi/" ++ videoIdOrUrl ++ "/hqdefault.jpg").
Proof.
  unfold Images.getYouTubeThumbnailUrl. split.
  - destruct (negb (Js.truthy videoIdOrUrl)); [left; reflexivity|].
    destruct (Nat.eqb_spec (String.length videoIdOrUrl) 11) as [L|_].
    + right. exists videoIdOrUrl. unfold Images.resolved.
      rewrite (length_truthy _ L). auto.
    + destruct (Supabase.extractYouTubeVideoId videoIdOrUrl) as [id|] eqn:E;
        [|left; reflexivity].
      right. exists id.
      pose proof (extractYouTubeVideoId_length _ _ E) as L.
      unfold Images.resolved. rewrite (length_truthy _ L). auto.
  - intros L. rewrite (length_truthy _ L), L. cbn [negb Nat.eqb].
    unfold Images.resolved. rewrite (length_truthy _ L). reflexivity.
Qed.

(** X12: [bucketAndPath] cuts an image path at its first [/]: the bucket
    has no [/], and bucket, [/] and file path give the image path back; a
    path without [/] is a file of the bucket [video-images]. *)
Theorem bucketAndPath_cut (imagePath : string) :
  RegExp.has (Ascii.eqb "/") (fst (Images.bucketAndPath imagePath)) = false
  /\ (JsText.includes "/" imagePath = true ->
      fst (Images.bucketAndPath imagePath) ++ "/"
      ++ snd (Images.bucketAndPath imagePath) = imagePath)
  /\ (JsText.includes "/" imagePath = false ->
      Images.bucketAndPath imagePath = ("video-images", imagePath)).
Proof.
  unfold Images.bucketAndPath.
  destruct (JsText.includes "/" imagePath) eqn:I; cbn [fst snd].
  - split; [apply (SplitFacts.go_hd "/"); reflexivity|].
    split; [intros _ | discriminate].
    pose proof (SplitFacts.split_join "/" EmptyString imagePath) as J.
    unfold JsSplit.split in *.
    destruct (SplitFacts.go_cons "/" imagePath 0 EmptyString) as (x & l & E).
    rewrite E in *. cbn [hd tl].
    destruct l as [|y l].
    + rewrite (SplitFacts.go_single "/" EmptyString _ _ _ E) in I. discriminate I.
    + exact J.
  - split; [reflexivity|]. split; [discriminate | reflexivity].
Qed.

Module UploadFacts.
Import RegExp RegExpFacts RunFacts.

Lemma digits_of_uint d : JsText.every Js.is_digit (NilEmpty.string_of_uint d) = true.
Proof. induction d; simpl; auto. Qed.

(** The decimal form of a natural number has digits only. *)
Lemma digits_of_N n : JsText.every Js.is_digit (JsText.ofInt (Z.of_N n)) = true.
Proof.
  unfold JsText.ofInt. destruct n as [|p]; [reflexivity|].
  cbn [Z.of_N Z.to_int NilZero.string_of_int]. unfold NilZero.string_of_uint.
  pose proof (digits_of_uint (Pos.to_uint p)) as D.
  destruct (Pos.to_uint p); exact D.
Qed.

Lemma digit_not_space c : Js.is_digit c = true -> Js.white_space c = false.
Proof. destruct c as [[] [] [] [] [] [] [] []]; vm_compute; congruence. Qed.

Lemma digits_no_space s :
  JsText.every Js.is_digit s = true -> has Js.white_space s = false.
Proof.
  induction s as [|c s IH]; simpl; [reflexivity|].
  intros H. apply andb_true_iff in H as [Hc H].
  rewrite (digit_not_space c Hc), (IH H). reflexivity.
Qed.

Lemma star_some body fuel st : star body Some fuel st <> None.
Proof.
  destruct fuel; simpl; [discriminate|].
  destruct (body _ st); simpl; discriminate.
Qed.

(** Where a run of white space does not start there is no white space. *)
Lemma run_none i s :
  m Images.whiteSpaceRun Some (MState i s []) = None ->
  match s with
  | EmptyString => True
  | String c _ => Js.white_space c = false
  end.
Proof.
  destruct s as [|c t]; [trivial|].
  unfold Images.whiteSpaceRun, Plus. cbn [m]. unfold one at 1. cbn [rest].
  destruct (Js.white_space c); [|reflexivity].
  intros H. exfalso. exact (star_some _ _ _ H).
Qed.

(** A run of white space is not empty. *)
Lemma run_some st e :
  m Images.whiteSpaceRun Some st = Some e ->
  idx e <> idx st /\ String.length (rest e) < String.length (rest st).
Proof.
  unfold Images.whiteSpaceRun, Plus. cbn [m]. intros H.
  apply one_some in H as (a & t & E & _ & H).
  apply (star_via_cont _ (fun k st e => one_via_cont Js.white_space k st e))
    in H as (st' & H & K).
  injection H as <-.
  destruct K as [_ (pre & Er & Ei)]. cbn [consume rest idx] in Er, Ei.
  rewrite E, Er, Ei. cbn [String.length]. rewrite length_append. lia.
Qed.

(** After [replace(/\s+/g, '_')] no white space is left. *)
Lemma replace_no_space : forall fuel i s,
  String.length s < fuel ->
  has Js.white_space (replace_from fuel Images.whiteSpaceRun "_" i s) = false.
Proof.
  induction fuel as [|fuel IH]; intros i s L; [lia|]. cbn [replace_from].
  destruct (m Images.whiteSpaceRun Some (MState i s [])) as [e|] eqn:E.
  - destruct (run_some _ _ E) as [N Hl]. cbn [idx rest] in N, Hl.
    rewrite (proj2 (Nat.eqb_neq _ _) N).
    rewrite has_app. cbn [has orb]. apply IH. lia.
  - apply run_none in E. destruct s as [|c t]; [reflexivity|].
    cbn [has]. rewrite E. apply IH. simpl in L. lia.
Qed.

End UploadFacts.

(** X13: the path that [uploadImage] returns is the bucket, [/] and the
    name under which the file was stored; that name has no white space;
    and, the bucket having no [/], [bucketAndPath] reads the bucket and the
    name back from the path. *)
Theorem upload_path (supabase : Images.client) (f : Images.file)
        (bucket path : string) :
  Images.uploadImage supabase f bucket = Some path ->
  RegExp.has (Ascii.eqb "/") bucket = false ->
  exists fileName,
    path = bucket ++ "/" ++ fileName
    /\ Images.upload supabase bucket fileName f = Ok (Images.Data tt)
    /\ RegExp.has Js.white_space fileName = false
    /\ Images.bucketAndPath path = (bucket, fileName).
Proof.
  unfold Images.uploadImage.
  set (fileName := JsText.ofInt (Z.of_N (Images.now supabase)) ++ "_"
                   ++ RegExp.replace_all Images.whiteSpaceRun "_" (Images.name f)).
  intros H Hb. exists fileName.
  destruct (Images.upload supabase bucket fileName f) as [[[]|err]|err] eqn:U;
    try discriminate H.
  cbn [ResultMonad.bind] in H. injection H as <-.
  split; [reflexivity|]. split; [reflexivity|]. split.
  - unfold fileName. rewrite !RegExpFacts.has_app.
    rewrite (UploadFacts.digits_no_space _ (UploadFacts.digits_of_N _)).
    unfold RegExp.replace_all.
    rewrite UploadFacts.replace_no_space by lia. reflexivity.
  - unfold Images.bucketAndPath.
    change (bucket ++ "/" ++ fileName) with (bucket ++ String "/" fileName).
    rewrite SplitFacts.includes_app. unfold JsSplit.split.
    rewrite (SplitFacts.go_first "/" fileName bucket EmptyString Hb).
    cbn [hd tl String.append].
    rewrite (SplitFacts.go_join "/" EmptyString fileName 0 EmptyString).
    reflexivity.
Qed.

Lemma upload_path_witness :
  exists fileName,
    "video-images/1712345678901_my_cat_photo.png"
    = "video-images" ++ "/" ++ fileName
    /\ Images.upload Samples.storage "video-images" fileName
         (Images.File "my cat  photo.png") = Ok (Images.Data tt)
    /\ RegExp.has Js.white_space fileName = false
    /\ Images.bucketAndPath "video-images/1712345678901_my_cat_photo.png"
       = ("video-images", fileName).
Proof.
  apply (upload_path Samples.storage (Images.File "my cat  photo.png")
           "video-images" "video-images/1712345678901_my_cat_photo.png");
    reflexivity.
Defined.

(** X14: [getSignedImageUrl] returns null only when the signed URL could
    not be had and the request of the public URL, for the bucket and the
    file path of the image path, threw as well; it never does for an image
    path that starts with [http]. *)
Theorem signed_url_null (supabase : Images.client) (imagePath : string)
        (expiresIn : Q) :
  Images.getSignedImageUrl supabase imagePath expiresIn = None ->
  JsText.startsWith "http" imagePath = false
  /\ (forall signedUrl,
         Images.createSignedUrl supabase
           (fst (Images.bucketAndPath imagePath))
           (snd (Images.bucketAndPath imagePath)) expiresIn
         <> Ok (Images.Data signedUrl))
  /\ exists e,
       Images.getPublicUrl supabase
         (fst (Images.bucketAndPath imagePath))
         (snd (Images.bucketAndPath imagePath)) = Throw e.
Proof.
  unfold Images.getSignedImageUrl.
  destruct (Images.bucketAndPath imagePath) as [bucketName filePath].
  cbn [fst snd].
  destruct (JsText.startsWith "http" imagePath); [discriminate|].
  destruct (Images.resolved (Supabase.extractYouTubeVideoId imagePath));
    [discriminate|].
  destruct (Images.createSignedUrl supabase bucketName filePath expiresIn)
    as [[signedUrl|err]|err]; cbn [ResultMonad.bind];
    [discriminate | |];
    (destruct (Images.getPublicUrl supabase bucketName filePath) as [u|e];
     [discriminate|]; intros _; split; [reflexivity|];
     split; [intros u; discriminate | exists e; reflexivity]).
Qed.

Lemma signed_url_null_witness :
  JsText.startsWith "http" "video-images/1_a.png" = false
  /\ (forall signedUrl,
         Images.createSignedUrl Samples.unreachable
           (fst (Images.bucketAndPath "video-images/1_a.png"))
           (snd (Images.bucketAndPath "video-images/1_a.png")) 3600
         <> Ok (Images.Data signedUrl))
  /\ exists e,
       Images.getPublicUrl Samples.unreachable
         (fst (Images.bucketAndPath "video-images/1_a.png"))
         (snd (Images.bucketAndPath "video-images/1_a.png")) = Throw e.
Proof.
  apply (signed_url_null Samples.unreachable "video-images/1_a.png" 3600).
  reflexivity.
Defined.

(** X15: [getImageUrl] never returns null: it answers with the image path,
    a thumbnail, a signed or public URL, or the placeholder. *)
Theorem image_url_never_null (supabase : Images.client) (imagePath : string) :
  exists url, Images.getImageUrl supabase imagePath = Some url.
Proof.
  unfold Images.getImageUrl.
  destruct (JsText.startsWith "http" imagePath); [eauto|].
  destruct (Images.resolved (Supabase.extractYouTubeVideoId imagePath));
    [eauto|].
  destruct (Images.bucketAndPath imagePath) as [bucketName filePath].
  destruct (Images.resolved
              (Images.getSignedImageUrl supabase
                 (bucketName ++ "/" ++ filePath) Images.defaultExpiry));
    [eauto|].
  destruct (Images.getPublicUrl supabase bucketName filePath); eauto.
Qed.

(** ** The cursor of the PDF export *)

Section Cursor.
Import JsPDF PDF PDFFacts.
Variable lib : library.

Local Open Scope Q_scope.

(** The limit that [checkPageBreak] compares with. *)
#[local] Abbreviation limit := (pageSizeHeight lib - 20).

(** After [checkPageBreak] the needed space fits above the limit, or the
    cursor is at the top of a new page. *)
Lemma checkPageBreak_post neededSpace st b st' :
  checkPageBreak lib neededSpace st = Ok (b, st') ->
  yPosition st' + neededSpace <= limit \/ yPosition st' = 20.
Proof.
  unfold checkPageBreak, PDF.bind, y, pageHeight.
  destruct (Qlt_le_dec (pageSizeHeight lib - 20) (yPosition st + neededSpace))
    as [Hlt|Hle].
  - unfold invoke. cbn [doc yPosition].
    destruct (fault lib (doc st) AddPage); [discriminate|].
    unfold setY, PDF.ret. intros H. injection H as _ <-. right. reflexivity.
  - unfold PDF.ret. intros H. injection H as _ <-. left. exact Hle.
Qed.

Lemma split_ok text width st lines st' :
  split lib text width st = Ok (lines, st') ->
  st' = st /\ splitTextToSize lib (doc st) text width = Ok lines.
Proof.
  unfold split. destruct (splitTextToSize lib (doc st) text width);
    [|discriminate].
  intros H. injection H as <- <-. auto.
Qed.

Lemma checkPageBreak_doc neededSpace st b st' :
  checkPageBreak lib neededSpace st = Ok (b, st') ->
  doc st' = doc st \/ doc st' = (doc st ++ [AddPage])%list.
Proof.
  unfold checkPageBreak, PDF.bind, y, pageHeight.
  destruct (Qlt_le_dec (pageSizeHeight lib - 20) (yPosition st + neededSpace)).
  - unfold invoke. cbn [doc yPosition].
    destruct (fault lib (doc st) AddPage); [discriminate|].
    unfold setY, PDF.ret. intros H. injection H as _ <-. right. reflexivity.
  - unfold PDF.ret. intros H. injection H as _ <-. left. reflexivity.
Qed.

Lemma text_at_y_position text st u st' :
  text_at_y lib text st = Ok (u, st') -> yPosition st' = yPosition st.
Proof.
  unfold text_at_y, PDF.bind, y. intros H. apply invoke_ok in H as [_ H]. exact H.
Qed.

Lemma lines_at_y_position text st u st' :
  lines_at_y lib text st = Ok (u, st') -> yPosition st' = yPosition st.
Proof.
  unfold lines_at_y, PDF.bind, y. intros H. apply invoke_ok in H as [_ H]. exact H.
Qed.

(** What a paragraph does to the cursor. *)
Lemma writeParagraph_cursor paragraph st st' :
  writeParagraph lib paragraph st = Ok (tt, st') ->
  exists splitText d,
    splitTextToSize lib d paragraph maxWidth = Ok splitText
    /\ (yPosition st' <= limit
        \/ yPosition st' == 20 + (len splitText * 6 + lineHeight)).
Proof.
  unfold writeParagraph. intros H.
  apply bind_ok in H as (splitText & st1 & Hs & H).
  apply split_ok in Hs as [-> Hs].
  apply bind_ok in H as (b & st2 & Hc & H).
  apply bind_ok in H as (u & st3 & Ht & H).
  apply lines_at_y_position in Ht.
  unfold advance in H. injection H as <-. cbn [yPosition].
  exists splitText, (doc st). split; [exact Hs|].
  rewrite Ht. destruct (checkPageBreak_post _ _ _ _ Hc) as [Hfit | ->].
  - left. exact Hfit.
  - right. reflexivity.
Qed.

(** X16: a loop over paragraphs that each fit on a page keeps the cursor
    above the limit [pageHeight - 20]: no paragraph runs into the bottom
    margin. *)
Theorem paragraphs_above_limit (paragraphs : list string) :
  (forall d paragraph splitText,
      In paragraph paragraphs ->
      splitTextToSize lib d paragraph maxWidth = Ok splitText ->
      20 + (len splitText * 6 + lineHeight) <= limit) ->
  forall st st',
    yPosition st <= limit ->
    forEach (writeParagraph lib) paragraphs st = Ok (tt, st') ->
    yPosition st' <= limit.
Proof.
  induction paragraphs as [|p ps IH]; intros Hfit st st' Hy H.
  - cbn [forEach] in H. unfold PDF.ret in H. injection H as <-. exact Hy.
  - cbn [forEach] in H. apply bind_ok in H as ([] & st1 & Hp & H).
    apply (IH (fun d q l Hq => Hfit d q l (or_intror Hq)) st1 st'); [|exact H].
    destruct (writeParagraph_cursor _ _ _ Hp) as (l & d & Hl & [Hle | Heq]);
      [exact Hle|].
    rewrite Heq. apply (Hfit d p l (or_introl eq_refl) Hl).
Qed.

(** X17: the loop over the image references keeps the cursor above the
    limit on every page at least 50 high. *)
Theorem images_above_limit (images : list string) :
  50 <= pageSizeHeight lib ->
  forall st st',
    yPosition st <= limit ->
    forEach (writeImage lib) images st = Ok (tt, st') ->
    yPosition st' <= limit.
Proof.
  intros Hp. induction images as [|image images IH]; intros st st' Hy H.
  - cbn [forEach] in H. unfold PDF.ret in H. injection H as <-. exact Hy.
  - cbn [forEach] in H. apply bind_ok in H as ([] & st1 & Hi & H).
    apply (IH st1 st'); [|exact H]. clear H IH.
    unfold writeImage in Hi.
    apply bind_ok in Hi as (b & st2 & Hc & Hi).
    apply bind_ok in Hi as (u & st3 & Ht & Hi).
    apply text_at_y_position in Ht.
    unfold advance in Hi. injection Hi as <-. cbn [yPosition]. rewrite Ht.
    destruct (checkPageBreak_post _ _ _ _ Hc) as [Hfit | ->];
      [exact Hfit | unfold lineHeight; lra].
Qed.

(** X18: a code snippet that fits on a page leaves the cursor at most 5
    below the limit: the space checked is [lines * 5 + 20] and the cursor
    moves by [lines * 5 + 25]. *)
Theorem snippet_cursor (codeSnippet : string) st st' :
  (forall d splitCode,
      splitTextToSize lib d (cleanCode codeSnippet) maxWidth = Ok splitCode ->
      20 + (len splitCode * 5 + 25) <= limit + 5) ->
  writeCodeSnippet lib codeSnippet st = Ok (tt, st') ->
  yPosition st' <= limit + 5.
Proof.
  intros Hfit H. unfold writeCodeSnippet in H.
  apply bind_ok in H as (splitCode & st1 & Hs & H).
  apply split_ok in Hs as [-> Hs].
  apply bind_ok in H as (b & st2 & Hc & H).
  apply bind_ok in H as (u1 & st3 & H1 & H). apply invoke_ok in H1 as [_ H1].
  apply bind_ok in H as (u2 & st4 & H2 & H). apply invoke_ok in H2 as [_ H2].
  apply bind_ok in H as (u3 & st5 & H3 & H). apply text_at_y_position in H3.
  apply bind_ok in H as (u4 & st6 & H4 & H).
  unfold advance in H4. injection H4 as _ <-.
  apply bind_ok in H as (u5 & st7 & H5 & H). apply invoke_ok in H5 as [_ H5].
  apply bind_ok in H as (u6 & st8 & H6 & H). apply invoke_ok in H6 as [_ H6].
  apply bind_ok in H as (u7 & st9 & H7 & H). apply lines_at_y_position in H7.
  unfold advance in H. injection H as <-. cbn [yPosition] in *.
  rewrite H7, H6, H5, H3, H2, H1.
  destruct (checkPageBreak_post _ _ _ _ Hc) as [Hle | ->].
  - unfold lineHeight in *. lra.
  - specialize (Hfit (doc st) splitCode Hs). unfold lineHeight. lra.
Qed.

End Cursor.

Lemma paragraphs_above_limit_witness :
  exists st',
    PDF.forEach (PDF.writeParagraph Demo.a4)
      [Demo.filler 2500; "A short paragraph."; Demo.filler 300]
      (PDF.State [] 80) = Ok (tt, st')
    /\ (PDF.yPosition st' <= JsPDF.pageSizeHeight Demo.a4 - 20)%Q.
Proof.
  eexists. split; [vm_compute; reflexivity|].
  apply (paragraphs_above_limit Demo.a4
           [Demo.filler 2500; "A short paragraph."; Demo.filler 300]
           ltac:(intros d p l Hin Hs; cbn [JsPDF.splitTextToSize Demo.a4] in Hs;
                 injection Hs as <-;
                 repeat (destruct Hin as [<- | Hin];
                         [vm_compute; discriminate|]);
                 contradiction)
           (PDF.State [] 80)).
  - vm_compute. discriminate.
  - vm_compute. reflexivity.
Defined.

Lemma images_above_limit_witness :
  exists st',
    PDF.forEach (PDF.writeImage Demo.a4)
      ["thumb.jpg"; "video-images/a.png"; "https://youtu.be/xyz"]
      (PDF.State [] 262) = Ok (tt, st')
    /\ (PDF.yPosition st' <= JsPDF.pageSizeHeight Demo.a4 - 20)%Q.
Proof.
  eexists. split; [vm_compute; reflexivity|].
  apply (images_above_limit Demo.a4
           ["thumb.jpg"; "video-images/a.png"; "https://youtu.be/xyz"]
           ltac:(vm_compute; discriminate)
           (PDF.State [] 262)).
  - vm_compute. discriminate.
  - vm_compute. reflexivity.
Defined.

Lemma snippet_cursor_witness :
  exists st',
    PDF.writeCodeSnippet Demo.a4 Demo.fenced (PDF.State [] 250) = Ok (tt, st')
    /\ (PDF.yPosition st' <= JsPDF.pageSizeHeight Demo.a4 - 20 + 5)%Q.
Proof.
  eexists. split; [vm_compute; reflexivity|].
  apply (snippet_cursor Demo.a4 Demo.fenced (PDF.State [] 250)).
  - intros d l Hs. cbn [JsPDF.splitTextToSize Demo.a4] in Hs.
    injection Hs as <-. vm_compute. discriminate.
  - vm_compute. reflexivity.
Defined.

(** ** The fences of a code snippet *)

Module FenceFacts.
Import RegExp RegExpFacts RunFacts Consuming.

(** A match of a pattern that consumes input ends further on. *)
Lemma m_moves r : forall k st e,
  nonempty r = true ->
  m r k st = Some e ->
  exists st', k st' = Some e /\ keeps st st' /\ idx st' <> idx st.
Proof.
  assert (one_moves : forall p k st e,
             one p k st = Some e ->
             exists st', k st' = Some e /\ keeps st st' /\ idx st' <> idx st).
  { intros p k st e H. apply one_some in H as (a & t & E & _ & H).
    exists (consume st t). split; [exact H|].
    split; [apply (keeps_consume st a t E) | cbn [consume idx]; lia]. }
  assert (further : forall st1 st2 st3,
             keeps st1 st2 -> keeps st2 st3 ->
             idx st2 <> idx st1 \/ idx st3 <> idx st2 -> idx st3 <> idx st1).
  { intros st1 st2 st3 [_ (p1 & _ & I1)] [_ (p2 & _ & I2)] N. lia. }
  induction r as [ | c | | p | r1 IH1 r2 IH2 | r1 IH1 r2 IH2 | r1 IH1
                 | r1 IH1 | n r1 IH1 | j r1 IH1 | | ];
    intros k st e Hn H; cbn [nonempty] in Hn; try discriminate;
    cbn [m] in H; try (apply one_moves in H; exact H).
  - apply orb_true_iff in Hn as [Hn | Hn].
    + apply (IH1 _ _ _ Hn) in H as (st1 & H & K1 & N1).
      apply m_via_cont in H as (st2 & H & K2).
      exists st2. split; [exact H|].
      split; [eapply keeps_trans; eassumption|].
      apply (further st st1 st2 K1 K2). left. exact N1.
    + apply m_via_cont in H as (st1 & H & K1).
      apply (IH2 _ _ _ Hn) in H as (st2 & H & K2 & N2).
      exists st2. split; [exact H|].
      split; [eapply keeps_trans; eassumption|].
      apply (further st st1 st2 K1 K2). right. exact N2.
  - apply andb_true_iff in Hn as [Hn1 Hn2].
    apply or_else_some in H as [H | [_ H]]; eauto.
  - destruct n as [|n]; [discriminate|]. cbn [rep] in H.
    apply (IH1 _ _ _ Hn) in H as (st1 & H & K1 & N1).
    apply (rep_via_cont _ (m_via_cont r1)) in H as (st2 & H & K2).
    exists st2. split; [exact H|].
    split; [eapply keeps_trans; eassumption|].
    apply (further st st1 st2 K1 K2). left. exact N1.
  - apply (IH1 _ _ _ Hn) in H as (st1 & H & K1 & N1).
    exists (set_cap j st st1). split; [exact H|].
    split; [eapply keeps_trans; [exact K1 | apply keeps_set_cap]|].
    exact N1.
Qed.

(** A literal does not match where it is not a prefix. *)
Lemma lit_none : forall lit k st,
  lit <> EmptyString ->
  String.prefix lit (rest st) = false -> m (Lit lit) k st = None.
Proof.
  induction lit as [|c lit IH]; intros k st N P; [contradiction|].
  destruct lit as [|c' lit].
  - cbn [Lit m]. unfold one. destruct (rest st) as [|a t]; [reflexivity|].
    cbn [String.prefix] in P.
    destruct (Ascii.ascii_dec c a) as [<-|Na]; [destruct t; discriminate P|].
    rewrite (proj2 (Ascii.eqb_neq c a) Na). reflexivity.
  - change (Lit (String c (String c' lit)))
      with (Seq (Chr c) (Lit (String c' lit))).
    cbn [m]. unfold one. destruct (rest st) as [|a t]; [reflexivity|].
    cbn [String.prefix] in P.
    destruct (Ascii.ascii_dec c a) as [<-|Na].
    + rewrite Ascii.eqb_refl. apply IH; [discriminate | exact P].
    + rewrite (proj2 (Ascii.eqb_neq c a) Na). reflexivity.
Qed.

(** The pattern of the fences matches exactly where three backquotes
    stand. *)
Lemma fence_none i s :
  String.prefix "```" s = false -> m PDF.fence Some (MState i s []) = None.
Proof.
  intros P. unfold PDF.fence. cbn [m SeqOf].
  rewrite !lit_none by (discriminate || exact P). reflexivity.
Qed.

Lemma fence_some i s :
  String.prefix "```" s = true -> m PDF.fence Some (MState i s []) <> None.
Proof.
  intros P. rewrite (SplitFacts.prefix_drop _ _ P).
  unfold PDF.fence. cbn [m SeqOf].
  match goal with |- or_else ?a ?b <> None =>
    assert (B : b <> None) by (cbn; discriminate);
    destruct a; [discriminate | exact B]
  end.
Qed.

Lemma fence_moves i s e :
  m PDF.fence Some (MState i s []) = Some e ->
  idx e <> i /\ String.length (rest e) < String.length s.
Proof.
  intros H. apply m_moves in H as (st' & H & K & N); [|reflexivity].
  injection H as <-. split; [exact N|].
  apply (proj2 (keeps_length _ _ K) N).
Qed.

#[local] Abbreviation strip fuel i s := (replace_from fuel PDF.fence EmptyString i s).

(** Where no fence starts, the first character is kept. *)
Lemma strip_keeps fuel i c t :
  String.prefix "```" (String c t) = false ->
  strip (S fuel) i (String c t) = String c (strip fuel (S i) t).
Proof. intros P. cbn [replace_from]. rewrite (fence_none _ _ P). reflexivity. Qed.

Lemma prefix_tick n c t :
  String.prefix (String "`" n) (String c t)
  = if Ascii.ascii_dec "`" c then String.prefix n t else false.
Proof. reflexivity. Qed.

Lemma prefix_weaken t :
  String.prefix "`" t = false -> String.prefix "``" t = false.
Proof.
  destruct t as [|d t]; [reflexivity|]. rewrite !prefix_tick.
  destruct (Ascii.ascii_dec "`" d); [destruct t; discriminate | reflexivity].
Qed.

(** What is left does not start with more backquotes than the input. *)
Lemma strip_start : forall fuel i s,
  (String.prefix "`" s = false -> String.prefix "`" (strip fuel i s) = false)
  /\ (String.prefix "``" s = false -> String.prefix "``" (strip fuel i s) = false)
  /\ (String.prefix "```" s = false
      -> String.prefix "```" (strip fuel i s) = false).
Proof.
  induction fuel as [|fuel IH]; intros i s; [cbn [replace_from]; auto|].
  destruct s as [|c t]; [cbn; auto|].
  destruct (IH (S i) t) as (IH1 & IH2 & _).
  rewrite !prefix_tick.
  destruct (Ascii.ascii_dec "`" c) as [<-|N].
  - split; [destruct t; discriminate|]. split.
    + intros P. rewrite strip_keeps
        by (rewrite prefix_tick;
            destruct (Ascii.ascii_dec "`" "`"); [apply prefix_weaken, P | reflexivity]).
      rewrite prefix_tick.
      destruct (Ascii.ascii_dec "`" "`"); [apply IH1, P | reflexivity].
    + intros P. rewrite strip_keeps
        by (rewrite prefix_tick;
            destruct (Ascii.ascii_dec "`" "`"); [exact P | reflexivity]).
      rewrite prefix_tick.
      destruct (Ascii.ascii_dec "`" "`"); [apply IH2, P | reflexivity].
  - assert (Q : forall n, String.prefix (String "`" n)
                            (strip (S fuel) i (String c t)) = false).
    { intros n. rewrite strip_keeps
        by (rewrite prefix_tick;
            destruct (Ascii.ascii_dec "`" c); [contradiction | reflexivity]).
      rewrite prefix_tick.
      destruct (Ascii.ascii_dec "`" c); [contradiction | reflexivity]. }
    repeat split; intros _; apply Q.
Qed.

(** After the replacement no three backquotes stand together. *)
Lemma strip_clean : forall fuel i s,
  String.length s < fuel ->
  JsText.includes "```" (strip fuel i s) = false.
Proof.
  induction fuel as [|fuel IH]; intros i s L; [lia|].
  destruct (String.prefix "```" s) eqn:P.
  - cbn [replace_from].
    destruct (m PDF.fence Some (MState i s [])) as [e|] eqn:E;
      [|exfalso; exact (fence_some i s P E)].
    destruct (fence_moves _ _ _ E) as [N Hl].
    rewrite (proj2 (Nat.eqb_neq _ _) N). cbn [String.append].
    apply IH. lia.
  - destruct s as [|c t]; [reflexivity|].
    pose proof (proj2 (proj2 (strip_start (S fuel) i (String c t))) P) as Q.
    rewrite (strip_keeps _ _ _ _ P) in *. cbn [JsText.includes].
    rewrite Q. apply IH. simpl in L. lia.
Qed.

End FenceFacts.

(** X19: in the code that [generatePDF] cleans for rendering no three
    backquotes stand together, whatever the snippet: the fences are gone
    from it and none is formed by what is left. *)
Theorem cleaned_code_has_no_fence (codeSnippet : string) :
  JsText.includes "```" (PDF.cleanCode codeSnippet) = false.
Proof.
  unfold PDF.cleanCode, RegExp.replace_all.
  apply FenceFacts.strip_clean. lia.
Qed.

(** ** The language of a code snippet *)

Module LabelFacts.
Import RegExp RegExpFacts RunFacts Label.

Lemma take_run p : forall s, Js.take (String.length (run p s)) s = run p s.
Proof.
  induction s as [|c s IH]; cbn [run]; [reflexivity|].
  destruct (p c); [cbn [String.length Js.take]; rewrite IH|]; reflexivity.
Qed.

(** A greedy run whose continuation accepts everywhere is the longest
    run. *)
Lemma star_greedy p k :
  (forall st, k st <> None) ->
  forall s i cs fuel,
    String.length s < fuel ->
    star (one p) k fuel (MState i s cs)
    = k (MState (i + String.length (run p s)) (after p s) cs).
Proof.
  intros Hk. induction s as [|a s IH]; intros i cs fuel L;
    (destruct fuel as [|fuel]; [cbn [String.length] in L; lia|]).
  - rewrite star_stop by reflexivity. cbn [run after String.length].
    rewrite Nat.add_0_r. reflexivity.
  - cbn [run after]. cbn [String.length] in L. destruct (p a) eqn:Hp.
    + rewrite (star_step p k fuel i a s cs Hp), IH by lia.
      cbn [String.length]. rewrite Nat.add_succ_comm.
      destruct (k (MState (i + S (String.length (run p s))) (after p s) cs))
        as [e|] eqn:E; [reflexivity | destruct (Hk _ E)].
    + rewrite star_stop by (rewrite Hp; reflexivity).
      cbn [String.length]. rewrite Nat.add_0_r. reflexivity.
Qed.

Lemma lit_app : forall l k i t cs,
  m (Lit l) k (MState i (l ++ t) cs) = k (MState (i + String.length l) t cs).
Proof.
  induction l as [|c l IH]; intros k i t cs.
  - cbn [Lit m append String.length]. rewrite Nat.add_0_r. reflexivity.
  - assert (E : m (Lit (String c l)) k (MState i (String c l ++ t) cs)
                = m (Lit l) k (MState (S i) (l ++ t) cs)).
    { destruct l as [|c' l]; cbn [Lit m append]; unfold one; cbn [rest];
        rewrite Ascii.eqb_refl; reflexivity. }
    rewrite E, IH. cbn [String.length]. rewrite Nat.add_succ_comm. reflexivity.
Qed.

(** The pattern of the language at one position: it matches where a fence
    and a word stand, and group 1 is the longest word there. *)
Lemma label_at i s :
  m PDF.fenceLanguage Some (MState i s [])
  = match labelAt s with
    | Some word =>
        Some (MState (i + 3 + String.length word)
                     (after Js.word_char (JsText.drop 3 s)) [(1, word)])
    | None => None
    end.
Proof.
  unfold labelAt, PDF.fenceLanguage.
  destruct (String.prefix "```" s) eqn:P.
  - pose proof (SplitFacts.prefix_drop _ _ P) as E.
    cbn [String.length] in E. set (t := JsText.drop 3 s) in *.
    rewrite E at 1. clearbody t. clear E P s.
    change (m (Seq (Lit "```") ?g) Some ?st) with (m (Lit "```") (m g Some) st).
    rewrite lit_app. cbn [String.length]. unfold Plus. cbn [m].
    unfold one at 1. cbn [rest].
    destruct t as [|c t]; [reflexivity|]. cbn [run after].
    destruct (Js.word_char c) eqn:Hc; [|reflexivity].
    unfold consume. cbn [idx rest caps].
    change (star (one Js.word_char)
                 (fun st' => Some (set_cap 1 (MState (i + 3) (String c t) []) st'))
                 (S (String.length t)) (MState (S (i + 3)) t [])
            = Some (MState (i + 3 + String.length (String c (run Js.word_char t)))
                           (after Js.word_char t)
                           [(1, String c (run Js.word_char t))])).
    rewrite star_greedy by (discriminate || lia).
    unfold set_cap. cbn [idx rest caps String.length].
    replace (S (i + 3) + String.length (run Js.word_char t) - (i + 3))
      with (S (String.length (run Js.word_char t))) by lia.
    cbn [Js.take]. rewrite take_run. do 2 f_equal. lia.
  - change (m (Lit "```") (m (Group 1 (Plus (Cls Js.word_char))) Some)
              (MState i s []) = None).
    apply FenceFacts.lit_none; [discriminate | exact P].
Qed.

(** The search goes from left to right, so the label is that of the first
    position with one. *)
Lemma search_label : forall s i,
  match search PDF.fenceLanguage i s with
  | Some languageMatch =>
      match capture languageMatch 1 with
      | Some language => language
      | None => "code"
      end
  | None => "code"
  end
  = match firstLabel s with Some word => word | None => "code" end.
Proof.
  induction s as [|c s IH]; intros i.
  - cbn [search firstLabel]. rewrite label_at.
    destruct (labelAt EmptyString); reflexivity.
  - cbn [search firstLabel]. rewrite label_at.
    destruct (labelAt (String c s)); [reflexivity | apply IH].
Qed.

Lemma label_is_word (codeSnippet : string) :
  PDF.languageOf codeSnippet <> EmptyString
  /\ JsText.every Js.word_char (PDF.languageOf codeSnippet) = true.
Proof.
  unfold PDF.languageOf, RegExp.exec.
  destruct (RegExp.search PDF.fenceLanguage 0 codeSnippet) as [mr|] eqn:E;
    [|split; [discriminate | reflexivity]].
  apply ResolverFacts.search_found in E as (pre & t & _ & E).
  unfold PDF.fenceLanguage in E.
  apply ResolverFacts.m_seq_via in E as (st1 & E & _).
  unfold RegExp.Plus in E. cbn [RegExp.m] in E.
  apply RegExpFacts.one_some in E as (a & t1 & Er & Ha & E).
  change (RegExp.star (RegExp.one Js.word_char)
            (fun st' => Some (RegExp.set_cap 1 st1 st'))
            (S (String.length (RegExp.rest (RegExp.consume st1 t1))))
            (RegExp.consume st1 t1) = Some (RegExp.last mr)) in E.
  apply RunFacts.star_cls in E as (run & t2 & Et & Hall & E).
  injection E as E. unfold RegExp.capture. rewrite <- E.
  unfold RegExp.set_cap, RegExp.consume in *.
  cbn [RegExp.caps RegExp.lookup RegExp.idx RegExp.rest Nat.eqb] in *.
  replace (S (RegExp.idx st1 + String.length run) - RegExp.idx st1)
    with (S (String.length run)) by lia.
  rewrite Er, Et. cbn [Js.take]. rewrite RunFacts.take_app.
  split; [discriminate|]. cbn [JsText.every]. rewrite Ha, Hall. reflexivity.
Qed.

End LabelFacts.

(** X20: the language label of a snippet is the word that follows the
    first fence with one, the longest run of word characters there, and
    [code] when no fence has one; so it is never empty and made of word
    characters only. *)
Theorem language_label_is_first_word (codeSnippet : string) :
  PDF.languageOf codeSnippet
  = match Label.firstLabel codeSnippet with
    | Some word => word
    | None => "code"
    end
  /\ PDF.languageOf codeSnippet <> EmptyString
  /\ JsText.every Js.word_char (PDF.languageOf codeSnippet) = true.
Proof.
  split; [|apply LabelFacts.label_is_word].
  unfold PDF.languageOf, RegExp.exec. apply LabelFacts.search_label.
Qed.

(** The label of the fenced sample is its language, and a snippet without
    a fence is labelled [code]. *)
Example language_of_samples :
  PDF.languageOf Demo.fenced = "js"
  /\ PDF.languageOf "x = 2" = "code"
  /\ PDF.languageOf ("```" ++ Js.NL ++ "a ```py3 b ```c") = "py3".
Proof. repeat split; vm_compute; reflexivity. Qed.

(** ** The document as a whole *)

Module GrowthFacts.
Import JsPDF PDF PDFFacts Growth.

Lemma grows_ret {A : Type} (a : A) : grows (PDF.ret a).
Proof.
  intros st x st' H. unfold PDF.ret in H. injection H as _ <-.
  exists []. rewrite app_nil_r. reflexivity.
Qed.

Lemma grows_bind {A B : Type} (c : PDF.t A) (f : A -> PDF.t B) :
  grows c -> (forall a, grows (f a)) -> grows (PDF.bind c f).
Proof.
  intros Hc Hf st b st' H. apply bind_ok in H as (a & st1 & H1 & H2).
  apply Hc in H1 as (d1 & E1). apply Hf in H2 as (d2 & E2).
  exists (d1 ++ d2)%list. rewrite E2, E1, app_assoc. reflexivity.
Qed.

Lemma grows_invoke lib c : grows (invoke lib c).
Proof. intros st u st' H. apply invoke_ok in H as [H _]. eauto. Qed.

Lemma grows_same {A : Type} (c : PDF.t A) :
  (forall st a st', c st = Ok (a, st') -> doc st' = doc st) -> grows c.
Proof.
  intros Hc st a st' H. exists []. rewrite app_nil_r. eapply Hc, H.
Qed.

Lemma grows_y : grows y.
Proof. apply grows_same. intros st a st' H. injection H as _ <-. reflexivity. Qed.

Lemma grows_advance d : grows (advance d).
Proof. apply grows_same. intros st a st' H. injection H as _ <-. reflexivity. Qed.

Lemma grows_setY v : grows (setY v).
Proof. apply grows_same. intros st a st' H. injection H as _ <-. reflexivity. Qed.

Lemma grows_split lib text width : grows (split lib text width).
Proof.
  apply grows_same. intros st a st'. unfold split.
  destruct (splitTextToSize lib (doc st) text width); [|discriminate].
  intros H. injection H as _ <-. reflexivity.
Qed.

Lemma grows_when b c : grows c -> grows (when b c).
Proof. intros Hc. destruct b; [exact Hc | apply grows_ret]. Qed.

Lemma grows_forEach {A : Type} (body : A -> PDF.t unit) l :
  (forall a, grows (body a)) -> grows (forEach body l).
Proof.
  intros Hb. induction l as [|a l IH]; cbn [forEach].
  - apply grows_ret.
  - apply grows_bind; [apply Hb | intros _; exact IH].
Qed.

Lemma grows_if {A : Type} (P Q : Prop) (b : {P} + {Q}) (c1 c2 : PDF.t A) :
  grows c1 -> grows c2 -> grows (if b then c1 else c2).
Proof. destruct b; auto. Qed.

(** Every step of the export only adds to the document. *)
Ltac grow :=
  repeat first
    [ apply grows_ret | apply grows_invoke | apply grows_y | apply grows_advance
    | apply grows_setY | apply grows_split
    | apply grows_bind; [|intros ?]
    | apply grows_when | apply grows_forEach; intros ?
    | apply grows_if
    | progress unfold text_at_y, lines_at_y, checkPageBreak, writeParagraph,
        writeCodeSnippet, writeLink, writeImage ].

Lemma grows_checkPageBreak lib n : grows (checkPageBreak lib n).
Proof. grow. Qed.

Lemma grows_text_at_y lib text : grows (text_at_y lib text).
Proof. grow. Qed.

Lemma grows_writeParagraph lib p : grows (writeParagraph lib p).
Proof. grow. Qed.

Lemma grows_writeCodeSnippet lib c : grows (writeCodeSnippet lib c).
Proof. grow. Qed.

Lemma grows_writeLink lib l : grows (writeLink lib l).
Proof. grow. Qed.

Lemma grows_writeImage lib i : grows (writeImage lib i).
Proof. grow. Qed.

Lemma ext_step {A : Type} (c : PDF.t A) D st1 a st2 :
  (exists d, doc st1 = (D ++ d)%list) ->
  grows c -> c st1 = Ok (a, st2) ->
  exists d, doc st2 = (D ++ d)%list.
Proof.
  intros [d1 E1] Hc H. apply Hc in H as (d2 & E2).
  exists (d1 ++ d2)%list. rewrite E2, E1, app_assoc. reflexivity.
Qed.

End GrowthFacts.

(** X21: every blob that [generatePDF] returns starts with the title, in
    16 point bold at the top of the first page, and ends with the metadata,
    whose title is the title of the video followed by [ - Summary], and
    the output: no later step of the export removes or reorders them. *)
Theorem blob_head_and_tail (lib : JsPDF.library) (videoDetails : VideoDetails.t)
        (summary : SummaryContent.t) (pdfBlob : JsPDF.blob) :
  PDF.generatePDF lib videoDetails summary = Ok pdfBlob ->
  exists middle,
    JsPDF.content pdfBlob
    = ([ JsPDF.New; JsPDF.SetFontSize 16; JsPDF.SetFont "helvetica" "bold";
         JsPDF.Text ("Video Summary: " ++ VideoDetails.title videoDetails) 15 20 ]
       ++ middle
       ++ [ JsPDF.SetProperties
              (VideoDetails.title videoDetails ++ " - Summary")
              "YouTube Video Summary" "AI Summarizer"
              "youtube, summary, ai" "YouTube AI Summarizer";
            JsPDF.Output ])%list.
Proof.
  unfold PDF.generatePDF. intros H.
  destruct (PDF.render lib videoDetails summary (PDF.State [] 20))
    as [[b st]|e] eqn:R; [|discriminate H].
  cbn [ResultMonad.try_catch] in H. injection H as ->.
  unfold PDF.render in R.
  apply PDFFacts.bind_ok in R as (u1 & st1 & H1 & R).
  apply PDFFacts.invoke_ok in H1 as [D1 Y1].
  apply PDFFacts.bind_ok in R as (u2 & st2 & H2 & R).
  apply PDFFacts.invoke_ok in H2 as [D2 Y2].
  apply PDFFacts.bind_ok in R as (u3 & st3 & H3 & R).
  apply PDFFacts.invoke_ok in H3 as [D3 Y3].
  apply PDFFacts.bind_ok in R as (u4 & st4 & H4 & R).
  unfold PDF.text_at_y, PDF.bind, PDF.y in H4.
  apply PDFFacts.invoke_ok in H4 as [D4 Y4].
  rewrite Y3, Y2, Y1 in D4. cbn [PDF.yPosition PDF.doc] in *.
  rewrite D3, D2, D1 in D4. cbn [app] in D4.
  assert (G : exists d,
             PDF.doc st4
             = ([ JsPDF.New; JsPDF.SetFontSize 16;
                  JsPDF.SetFont "helvetica" "bold";
                  JsPDF.Text ("Video Summary: "
                              ++ VideoDetails.title videoDetails) 15 20 ]
                ++ d)%list)
    by (exists []; rewrite app_nil_r; exact D4).
  clear - R G.
  repeat match goal with
    | R : PDF.bind (PDF.invoke _ (JsPDF.SetProperties _ _ _ _ _)) _ _ = _
      |- _ => fail 1
    | G : (exists d, PDF.doc ?s = _), R : PDF.bind _ _ ?s = _ |- _ =>
        let Hs := fresh "Hs" in
        apply PDFFacts.bind_ok in R as (? & ? & Hs & R);
        apply (GrowthFacts.ext_step _ _ _ _ _ G) in Hs;
        [clear G | solve [GrowthFacts.grow]]
    end.
  match goal with G : exists d, _ |- _ => destruct G as [d Hd] end.
  apply PDFFacts.bind_ok in R as (u5 & st5 & H5 & R).
  apply PDFFacts.invoke_ok in H5 as [D5 _].
  apply PDFFacts.bind_ok in R as (u6 & st6 & H6 & R).
  apply PDFFacts.invoke_ok in H6 as [D6 _].
  injection R as <- _. cbn [JsPDF.content].
  exists d. rewrite D6, D5, Hd. rewrite <- !app_assoc. reflexivity.
Qed.

Lemma blob_head_and_tail_witness :
  exists pdfBlob,
    PDF.generatePDF Demo.a4 Demo.details Demo.tallLink = Ok pdfBlob
    /\ exists middle,
         JsPDF.content pdfBlob
         = ([ JsPDF.New; JsPDF.SetFontSize 16;
              JsPDF.SetFont "helvetica" "bold";
              JsPDF.Text "Video Summary: Never Gonna Give You Up" 15 20 ]
            ++ middle
            ++ [ JsPDF.SetProperties
                   "Never Gonna Give You Up - Summary"
                   "YouTube Video Summary" "AI Summarizer"
                   "youtube, summary, ai" "YouTube AI Summarizer";
                 JsPDF.Output ])%list.
Proof.
  eexists. split; [vm_compute; reflexivity|].
  apply (blob_head_and_tail Demo.a4 Demo.details Demo.tallLink).
  vm_compute. reflexivity.
Defined.

(** ** The form *)

Module FormFacts.
Import RegExp RegExpFacts RunFacts Language.

Lemma star_lang body k e :
  forall R : string -> string -> Prop,
  (forall k' st' e', body k' st' = Some e' ->
                     exists st'', R (rest st') (rest st'') /\ k' st'' = Some e') ->
  forall fuel st,
    star body k fuel st = Some e ->
    exists st', (exists n, iter n R (rest st) (rest st')) /\ k st' = Some e.
Proof.
  intros R Hb. induction fuel as [|fuel IH]; intros st H; cbn [star] in H.
  - exists st. split; [exists 0; reflexivity | exact H].
  - apply or_else_some in H as [H | [_ H]].
    + apply Hb in H as (st1 & L1 & H). apply progress_some in H as [_ H].
      apply IH in H as (st2 & [n L2] & H).
      exists st2. split; [exists (S n), (rest st1); auto | exact H].
    + exists st. split; [exists 0; reflexivity | exact H].
Qed.

Lemma rep_lang body e :
  forall R : string -> string -> Prop,
  (forall k' st' e', body k' st' = Some e' ->
                     exists st'', R (rest st') (rest st'') /\ k' st'' = Some e') ->
  forall n k st,
    rep body n k st = Some e ->
    exists st', iter n R (rest st) (rest st') /\ k st' = Some e.
Proof.
  intros R Hb. induction n as [|n IH]; intros k st H; cbn [rep] in H.
  - exists st. split; [reflexivity | exact H].
  - apply Hb in H as (st1 & L1 & H). apply IH in H as (st2 & L2 & H).
    exists st2. split; [exists (rest st1); auto | exact H].
Qed.

(** The matcher passes only what the pattern matches. *)
Lemma m_lang r : forall k st e,
  m r k st = Some e ->
  exists st', lang r (rest st) (rest st') /\ k st' = Some e.
Proof.
  induction r as [ | c | | p | r1 IH1 r2 IH2 | r1 IH1 r2 IH2 | r1 IH1
                 | r1 IH1 | n r1 IH1 | i r1 IH1 | | ]; intros k st e H;
    cbn [m] in H; cbn [lang].
  - exists st; auto.
  - apply one_some in H as (a & t & E & Ha & H).
    apply Ascii.eqb_eq in Ha as <-. exists (consume st t). auto.
  - apply one_some in H as (a & t & E & Ha & H).
    exists (consume st t). split; [exists a; auto | exact H].
  - apply one_some in H as (a & t & E & Ha & H).
    exists (consume st t). split; [exists a; auto | exact H].
  - apply IH1 in H as (st1 & L1 & H). apply IH2 in H as (st2 & L2 & H).
    exists st2. split; [exists (rest st1); auto | exact H].
  - apply or_else_some in H as [H | [_ H]];
      [apply IH1 in H | apply IH2 in H]; destruct H as (st1 & L & H);
      exists st1; auto.
  - apply or_else_some in H as [H | [_ H]].
    + apply IH1 in H as (st1 & L & H). apply progress_some in H as [_ H].
      exists st1; auto.
    + exists st; auto.
  - apply (star_lang _ _ _ (lang r1) IH1) in H. exact H.
  - apply (rep_lang _ _ (lang r1) IH1) in H. exact H.
  - apply IH1 in H as (st1 & L & H). exists (set_cap i st st1). auto.
  - destruct (idx st =? 0); [|discriminate]. exists st; auto.
  - destruct (rest st) eqn:E; [|discriminate]. exists st. rewrite E. auto.
Qed.

(** A run of [.] passes characters that are no line terminators. *)
Lemma iter_dot : forall n s t,
  iter n (lang Dot) s t ->
  exists run, s = run ++ t /\ JsText.every Shapes.any run = true.
Proof.
  induction n as [|n IH]; intros s t H; cbn [iter] in H.
  - exists EmptyString. auto.
  - destruct H as (u & (a & -> & Ha) & H). apply IH in H as (run & -> & Hr).
    exists (String a run). cbn [JsText.every]. rewrite Ha, Hr. auto.
Qed.

(** What makes a match, one pattern at a time. *)
Lemma m_opt_l r k st :
  m r (progress st k) st <> None -> m (Opt r) k st <> None.
Proof. cbn [m]. destruct (m r (progress st k) st); [discriminate | contradiction]. Qed.

Lemma m_opt_r r k st : k st <> None -> m (Opt r) k st <> None.
Proof. cbn [m]. destruct (m r (progress st k) st); [discriminate | auto]. Qed.

Lemma m_alt_l r1 r2 k st : m r1 k st <> None -> m (Alt r1 r2) k st <> None.
Proof. cbn [m]. destruct (m r1 k st); [discriminate | contradiction]. Qed.

Lemma m_alt_r r1 r2 k st : m r2 k st <> None -> m (Alt r1 r2) k st <> None.
Proof. cbn [m]. destruct (m r1 k st); [discriminate | auto]. Qed.

Lemma m_seq r1 r2 k st : m r1 (m r2 k) st <> None -> m (Seq r1 r2) k st <> None.
Proof. auto. Qed.

Lemma m_group i r k st :
  m r (fun st' => k (set_cap i st st')) st <> None -> m (Group i r) k st <> None.
Proof. auto. Qed.

Lemma m_bol k st : idx st = 0 -> k st <> None -> m Bol k st <> None.
Proof. cbn [m]. intros ->. auto. Qed.

Lemma bol_some r k st e :
  m (Seq Bol r) k st = Some e -> idx st = 0 /\ m r k st = Some e.
Proof.
  change (m (Seq Bol r) k st) with (if idx st =? 0 then m r k st else None).
  destruct (Nat.eqb_spec (idx st) 0); [auto | discriminate].
Qed.

Lemma lit_ok : forall l k i t cs,
  k (MState (i + String.length l) t cs) <> None ->
  m (Lit l) k (MState i (l ++ t) cs) <> None.
Proof.
  induction l as [|c l IH]; intros k i t cs H.
  - cbn [Lit m append]. cbn [String.length] in H. rewrite Nat.add_0_r in H. exact H.
  - assert (E : m (Lit (String c l)) k (MState i (String c l ++ t) cs)
                = m (Lit l) k (MState (S i) (l ++ t) cs)).
    { destruct l as [|c' l]; cbn [Lit m append]; unfold one; cbn [rest];
        rewrite Ascii.eqb_refl; reflexivity. }
    rewrite E. apply IH. cbn [String.length] in H.
    rewrite <- Nat.add_succ_comm in H. exact H.
Qed.

Lemma chr_ok c k i t cs :
  k (MState (i + 1) t cs) <> None ->
  m (Chr c) k (MState i (String c t) cs) <> None.
Proof. apply (lit_ok (String c EmptyString)). Qed.

Lemma progress_ok st k st' :
  idx st' <> idx st -> k st' <> None -> progress st k st' <> None.
Proof.
  intros N H. unfold progress. rewrite (proj2 (Nat.eqb_neq _ _) N). exact H.
Qed.

(** The end of the pattern: [/], a path of one character or more, without
    line terminators, and the end of the input. *)
Lemma tail_ok path i cs :
  path <> EmptyString -> JsText.every Shapes.any path = true ->
  m (Seq (Chr "/") (Seq (Plus Dot) Eol)) Some (MState i (String "/" path) cs)
  <> None.
Proof.
  intros N H. destruct path as [|a path]; [contradiction|].
  cbn [JsText.every] in H. apply andb_true_iff in H as [Ha H].
  apply m_seq, chr_ok. unfold Plus. cbn [m]. unfold one at 1. cbn [rest].
  change (negb (Js.line_terminator a)) with (Shapes.any a). rewrite Ha.
  unfold consume. cbn [idx rest caps].
  change (star (one Shapes.any)
               (fun st => match rest st with
                          | EmptyString => Some st
                          | String _ _ => None
                          end)
               (S (String.length path)) (MState (S (i + 1)) path cs) <> None).
  erewrite star_to_end; [discriminate | exact H | lia | reflexivity].
Qed.

(** The search of an accepted string. *)
Ltac state := unfold set_cap; cbn [idx rest caps Nat.add String.length].

Ltac starts l :=
  lazymatch goal with
  | |- m _ _ (MState _ ?s _) <> None =>
      let b := eval cbv in (String.prefix l s) in
      lazymatch b with true => idtac end
  end.

Ltac accept :=
  lazymatch goal with
  | |- m (Seq (Chr "/") _) _ _ <> None => state; apply tail_ok; assumption
  | |- m Bol _ _ <> None => apply m_bol; [reflexivity | accept]
  | |- m (Opt _) _ _ <> None => (apply m_opt_l + apply m_opt_r); accept
  | |- m (Alt _ _) _ _ <> None => (apply m_alt_l + apply m_alt_r); accept
  | |- m (Seq _ _) _ _ <> None => apply m_seq; accept
  | |- m (Group _ _) _ _ <> None => apply m_group; accept
  | |- m (Lit ?l) _ _ <> None =>
      state; starts l; apply (lit_ok l); cbv beta; accept
  | |- m (Chr ?c) _ _ <> None =>
      state; starts (String c EmptyString); apply (chr_ok c); cbv beta; accept
  | |- progress _ _ _ <> None =>
      apply progress_ok; [state; lia | accept]
  end.

Lemma blank_form scheme www host path :
  In scheme [EmptyString; "http://"; "https://"] ->
  In www [EmptyString; "www."] ->
  In host ["youtube.com"; "youtu.be"; "youtube"] ->
  JsText.blank (scheme ++ www ++ host ++ "/" ++ path) = false.
Proof.
  cbn [In]. intros Hs Hw Hh.
  repeat match goal with
         | H : _ \/ _ |- _ => destruct H as [<-|H]
         | H : False |- _ => destruct H
         end; reflexivity.
Qed.

(** What [validateUrl] accepts. *)
Lemma validateUrl_shape (url : string) :
  YouTubeInput.validateUrl url = true
  <-> exists scheme www host path,
        In scheme [EmptyString; "http://"; "https://"]
        /\ In www [EmptyString; "www."]
        /\ In host ["youtube.com"; "youtu.be"; "youtube"]
        /\ path <> EmptyString
        /\ JsText.every Shapes.any path = true
        /\ url = scheme ++ www ++ host ++ "/" ++ path.
Proof.
  unfold YouTubeInput.validateUrl, test, exec. split.
  - destruct (search YouTubeInput.youtubeRegex 0 url) as [mr|] eqn:E;
      [intros _ | discriminate].
    apply ResolverFacts.search_found in E as (pre & t & -> & E).
    unfold YouTubeInput.youtubeRegex in E. cbn [SeqOf] in E.
    apply bol_some in E as [Z E]. cbn [idx] in Z.
    destruct pre as [|c pre]; [|discriminate Z]. cbn [append].
    cbn [Nat.add String.length] in E.
    apply m_lang in E as (st' & L & _). cbn [rest] in L.
    unfold Plus in L. cbn [lang Lit] in L.
    repeat match type of L with
           | exists _, _ => destruct L as (? & L)
           | _ /\ _ =>
               let L' := fresh "L" in destruct L as [L' L]
           end.
    repeat match goal with
           | H : exists _, _ |- _ => destruct H as (? & H)
           | H : _ /\ _ |- _ => destruct H as [? ?]
           | H : iter _ _ _ _ |- _ => apply iter_dot in H
           | H : _ \/ _ |- _ => destruct H as [H|H]
           end; subst; rewrite SplitFacts.append_nil;
      match goal with
      | Ha : Shapes.any ?a = true, Hr : JsText.every Shapes.any ?run = true
        |- _ =>
          (exists EmptyString + exists "http://" + exists "https://");
          (exists EmptyString + exists "www.");
          (exists "youtube.com" + exists "youtu.be" + exists "youtube");
          exists (String a run);
          solve [ cbn [In JsText.every append]; rewrite Ha, Hr;
                  repeat split; auto; discriminate ]
      end.
  - intros (scheme & www & host & path & Hs & Hw & Hh & N & Hp & ->).
    assert (M : m YouTubeInput.youtubeRegex Some
                  (MState 0 (scheme ++ www ++ host ++ "/" ++ path) []) <> None).
    { unfold YouTubeInput.youtubeRegex. cbn [SeqOf]. cbn [In] in Hs, Hw, Hh.
      repeat match goal with
             | H : _ \/ _ |- _ => destruct H as [<-|H]
             | H : False |- _ => destruct H
             end; cbn [append]; accept. }
    destruct (m YouTubeInput.youtubeRegex Some
                (MState 0 (scheme ++ www ++ host ++ "/" ++ path) []))
      as [e|] eqn:E; [|contradiction].
    rewrite (ResolverFacts.search_first _ _ _ _ E). reflexivity.
Qed.

End FormFacts.

(** X22: the form hands a text to [onSubmit] exactly when it is an
    optional [http://] or [https://], an optional [www.], one of
    [youtube.com], [youtu.be] and [youtube], a [/] and a path of one
    character or more without line terminators; the text is handed over
    as it was typed. *)
Theorem form_submits (url : string) :
  (YouTubeInput.handleSubmit url = YouTubeInput.Submit url
   <-> exists scheme www host path,
         In scheme [EmptyString; "http://"; "https://"]
         /\ In www [EmptyString; "www."]
         /\ In host ["youtube.com"; "youtu.be"; "youtube"]
         /\ path <> EmptyString
         /\ JsText.every Shapes.any path = true
         /\ url = scheme ++ www ++ host ++ "/" ++ path)
  /\ forall submitted,
       YouTubeInput.handleSubmit url = YouTubeInput.Submit submitted ->
       submitted = url.
Proof.
  unfold YouTubeInput.handleSubmit. split; [split|].
  - destruct (JsText.blank url); [discriminate|].
    destruct (YouTubeInput.validateUrl url) eqn:V; [|discriminate].
    intros _. apply FormFacts.validateUrl_shape, V.
  - intros S. pose proof S as (scheme & www & host & path & Hs & Hw & Hh & _ & _ & E).
    apply FormFacts.validateUrl_shape in S. rewrite S.
    rewrite E, (FormFacts.blank_form _ _ _ _ Hs Hw Hh). reflexivity.
  - intros submitted. destruct (JsText.blank url); [discriminate|].
    destruct (negb (YouTubeInput.validateUrl url)); [discriminate|].
    intros H. injection H as <-. reflexivity.
Qed.

(** ** The name of the download *)

Module NameFacts.
Import RegExp Written.

Lemma replace_unsafe : forall fuel i s,
  String.length s < fuel ->
  String.length (replace_from fuel (Cls PDFExport.unsafe) "_" i s)
  = String.length s
  /\ JsText.every kept (replace_from fuel (Cls PDFExport.unsafe) "_" i s) = true.
Proof.
  induction fuel as [|fuel IH]; intros i s L; [lia|].
  cbn [replace_from m]. unfold one. cbn [rest].
  destruct s as [|c t]; [split; reflexivity|].
  cbn [String.length] in L.
  destruct (IH (S i) t ltac:(lia)) as [Hl Hk].
  destruct (PDFExport.unsafe c) eqn:U.
  - unfold consume. cbn [idx rest].
    rewrite (proj2 (Nat.eqb_neq (S i) i)) by lia.
    cbn [append String.length JsText.every]. rewrite Hl, Hk. split; reflexivity.
  - cbn [String.length JsText.every]. rewrite Hl, Hk.
    split; [reflexivity|]. rewrite andb_true_r.
    unfold PDFExport.unsafe in U. apply negb_false_iff in U.
    unfold kept. rewrite U. reflexivity.
Qed.

Lemma lower_kept (c : ascii) : kept c = true -> tame (JsText.lower c) = true.
Proof.
  destruct c as [[] [] [] [] [] [] [] []]; vm_compute; intros H;
    first [reflexivity | discriminate H].
Qed.

Lemma toLowerCase_kept : forall s,
  JsText.every kept s = true ->
  String.length (JsText.toLowerCase s) = String.length s
  /\ JsText.every tame (JsText.toLowerCase s) = true.
Proof.
  induction s as [|c s IH]; cbn [JsText.every JsText.toLowerCase String.length];
    [split; reflexivity|].
  intros H. apply andb_true_iff in H as [Hc H].
  destruct (IH H) as [Hl Ht]. rewrite Hl, Ht, (lower_kept c Hc).
  split; reflexivity.
Qed.

End NameFacts.

(** X23: the name under which the summary is downloaded is the title of
    the video, character by character in its length, written with small
    letters, digits and underscores only, and then [_summary.pdf]. *)
Theorem download_name_is_tame (videoDetails : VideoDetails.t) :
  exists stem,
    PDFExport.downloadName videoDetails = stem ++ "_summary.pdf"
    /\ String.length stem = String.length (VideoDetails.title videoDetails)
    /\ JsText.every Written.tame stem = true.
Proof.
  unfold PDFExport.downloadName, RegExp.replace_all.
  destruct (NameFacts.replace_unsafe
              (S (String.length (VideoDetails.title videoDetails))) 0
              (VideoDetails.title videoDetails) ltac:(lia)) as [Hl Hk].
  destruct (NameFacts.toLowerCase_kept _ Hk) as [Hl' Ht].
  eexists. split; [reflexivity|]. split; [congruence | exact Ht].
Qed.

(** ** The time of a timeline entry *)

Module TimeFacts.
Import Written.

Lemma padStart_two : forall j : nat,
  j < 60 ->
  JsText.padStart 2 "0" (JsText.ofInt (Z.of_nat j)) = twoDigits (Z.of_nat j).
Proof.
  intros j L.
  do 60 (destruct j as [|j]; [reflexivity|]). lia.
Qed.

Lemma minutes_of (n : Z) : Qfloor (inject_Z n / 60) = (n / 60)%Z.
Proof.
  unfold Qdiv, Qmult, Qinv, Qfloor, inject_Z. cbn [Qnum Qden].
  rewrite Z.mul_1_r. reflexivity.
Qed.

Lemma seconds_of (n : Z) :
  (0 <= n)%Z ->
  Qfloor (SummarySection.remainder (inject_Z n) 60) = (n mod 60)%Z.
Proof.
  intros P. unfold SummarySection.remainder, SummarySection.trunc.
  assert (Q0 : Qle_bool 0 (inject_Z n / 60) = true).
  { apply Qle_bool_iff. unfold Qle, Qdiv, Qmult, Qinv, inject_Z.
    cbn [Qnum Qden]. lia. }
  rewrite Q0, minutes_of.
  rewrite <- (Qfloor_Z (n mod 60)). apply Qfloor_comp.
  rewrite (Z.mod_eq n 60) by lia.
  unfold Qeq, Qminus, Qplus, Qmult, Qopp, inject_Z. cbn [Qnum Qden]. lia.
Qed.

End TimeFacts.

(** X24: a whole number of seconds, zero or more and below two to the 53,
    is shown as its minutes, a colon and its seconds beyond the minutes in
    two digits. *)
Theorem formatTimestamp_whole (n : Z) :
  (0 <= n < 2 ^ 53)%Z ->
  SummarySection.formatTimestamp (inject_Z n)
  = JsText.ofInt (n / 60) ++ ":" ++ Written.twoDigits (n mod 60).
Proof.
  intros [P _]. unfold SummarySection.formatTimestamp. cbv zeta.
  rewrite TimeFacts.minutes_of, (TimeFacts.seconds_of n P).
  pose proof (Z.mod_pos_bound n 60 ltac:(lia)) as B.
  rewrite <- (Z2Nat.id (n mod 60)) at 1 by lia.
  rewrite TimeFacts.padStart_two by lia.
  rewrite Z2Nat.id by lia. reflexivity.
Qed.

Lemma formatTimestamp_whole_witness :
  (0 <= 125 < 2 ^ 53)%Z
  /\ SummarySection.formatTimestamp (inject_Z 125) = "2:05".
Proof.
  split; [lia|].
  exact (formatTimestamp_whole 125 ltac:(lia)).
Defined.
